(** * Board interaction controller of the web chess game

    A shallow embedding of the three controllers of the repository:

    - [Full]  : [src/app_ai.js], the AI opponent with undo/redo, board flip
                and threat overlay;
    - [Ai]    : [src/unnamed/part_000], the AI opponent without history
                buttons;
    - [Basic] : the two-player script that follows [app_ai.js] in the same
                file.

    The rules of chess are not part of the repository: every controller
    talks to a [Chess()] object of the chess.js library.  That object is a
    parameter here ([Chess.Engine]); the few facts about it that the
    controllers rely on are collected in [Chess.Laws].

    The numbers the controllers compute with, the random index of the
    AI's move, are binary64 values; they are rationals here, rounded as
    JavaScript rounds them ([Js.round64]). *)

From Stdlib Require Import List String Ascii Bool Arith Lia ZArith QArith Qround
  Qpower Lqa.
Import ListNotations.

Close Scope Q_scope.
Set Implicit Arguments.

(** ** JavaScript values used by the controllers *)

Module Js.

(** Truthiness of a string value ([""] is falsy). *)
Definition truthyStr (s : string) : bool := negb (String.eqb s "").

(** Truthiness of a value that is [null]/[undefined] or a string. *)
Definition truthy (v : option string) : bool :=
  match v with
  | Some s => truthyStr s
  | None => false
  end.

(** [Array.prototype.includes] on an array of strings. *)
Definition includes (l : list string) (s : string) : bool :=
  existsb (String.eqb s) l.

(** [s[i]] : the one-character string at index [i], or [undefined]. *)
Definition charAt (s : string) (i : nat) : option ascii := String.get i s.

Definition lowerAscii (c : ascii) : ascii :=
  let n := nat_of_ascii c in
  if (65 <=? n) && (n <=? 90) then ascii_of_nat (n + 32) else c.

(** [String.prototype.toLowerCase].  Strings are byte sequences here; only
    the letters A-Z change.  No other character lower-cases to one of the
    ASCII letters the controller compares the result with. *)
Fixpoint toLowerCase (s : string) : string :=
  match s with
  | EmptyString => EmptyString
  | String c s' => String (lowerAscii c) (toLowerCase s')
  end.

(** *** Numbers

    A JavaScript number is a binary64 value.  The controllers compute
    with numbers in one place,
    [Math.floor(Math.random() * legalMoves.length)]; the numbers there are
    finite and not negative, and they are rationals here: [m * 2^e] with
    [m < 2^53] and [e >= -1074]. *)

(** [2^e] *)
Definition pow2 (e : Z) : Q := (2 ^ e)%Q.

(** The binary exponent of a positive rational [x]: the [e] with
    [2^e <= x < 2^(e+1)]. *)
Definition ilog2 (x : Q) : Z :=
  let e := (Z.log2 (Qnum x) - Z.log2 (Zpos (Qden x)))%Z in
  if Qle_bool (pow2 e) x then e else (e - 1)%Z.

(** The distance between neighbouring numbers at a positive [x]:
    [2^(e-52)] for the exponent [e] of [x], and [2^-1074] below [2^-1022],
    among the subnormal numbers. *)
Definition ulp (x : Q) : Q := pow2 (Z.max (ilog2 x) (-1022) - 52).

(** The number nearest to a positive rational [x]; half way between two
    numbers, the one whose significand is even. *)
Definition nearest (x : Q) : Q :=
  let q := ulp x in
  let k := Qfloor (x / q) in
  let up :=
    match (x / q - inject_Z k ?= 1 # 2)%Q with
    | Lt => false
    | Gt => true
    | Eq => Z.odd k
    end in
  (inject_Z (if up then k + 1 else k) * q)%Q.

(** What an arithmetic operation returns when its exact result is [x].
    Overflow, which begins at [2^1024 - 2^970], is left out: the products
    the controllers form stay below the length of an array. *)
Definition round64 (x : Q) : Q :=
  match (x ?= 0)%Q with
  | Eq => 0%Q
  | Gt => nearest x
  | Lt => (- nearest (- x))%Q
  end.

(** The largest number below 1. *)
Definition belowOne : Q := (1 - pow2 (-53))%Q.

(** What [Math.random()] returns is a number from 0 up to but not
    including 1.  Where a random number [r] is computed with, it is taken
    as such a number: [r] itself when it is one (lemma
    [JsFacts.random_number]), and the nearest of them otherwise. *)
Definition random (r : Q) : Q :=
  if Qle_bool (round64 r) belowOne then round64 r else belowOne.

(** [Math.floor(r * n)] for a random number [r] and an array length [n]
    (an integer below [2^32], a number as it stands): the product of the
    two numbers is rounded before [Math.floor] is applied. *)
Definition floorTimes (r : Q) (n : nat) : nat :=
  Z.to_nat (Qfloor (round64 (random r * inject_Z (Z.of_nat n))%Q)).

(** [r < 0.5] *)
Definition ltHalf (r : Q) : bool := negb (Qle_bool (1 # 2)%Q r).

End Js.

(** ** The chess.js object, as the controllers see it *)

Module Chess.

Inductive Color := White | Black.

Definition color_eqb (a b : Color) : bool :=
  match a, b with
  | White, White | Black, Black => true
  | _, _ => false
  end.

(** [c === 'w' ? 'b' : 'w'] *)
Definition other (c : Color) : Color :=
  match c with White => Black | Black => White end.

Inductive PieceType := Pawn | Knight | Bishop | Rook | Queen | King.

Definition type_eqb (a b : PieceType) : bool :=
  match a, b with
  | Pawn, Pawn | Knight, Knight | Bishop, Bishop
  | Rook, Rook | Queen, Queen | King, King => true
  | _, _ => false
  end.

(** [{ type, color }] as returned by [get] and [board]. *)
Record Piece := mkPiece { ptype : PieceType; pcolor : Color }.

(** A verbose move object, as returned by [moves({verbose: true})],
    [move] and [undo]. *)
Record Move := mkMove {
  color : Color;
  from : string;
  to : string;
  flags : string;
  piece : PieceType;
  captured : option PieceType;
  promotion : option string;
  san : string
}.

(** The object handed to [move]: [{ from, to, promotion }]. *)
Record MoveObj := mkObj {
  ofrom : string;
  oto : string;
  opromotion : option string
}.

(** [game.move(m)] with a verbose move [m]: chess.js reads only these
    three fields of an object argument. *)
Definition objOf (m : Move) : MoveObj :=
  mkObj (from m) (to m) (promotion m).

(** The methods of the game object that the controllers call.  A mutating
    method returns the new game state next to its JavaScript result. *)
Record Engine := {
  GameState : Type;
  newGame : GameState;                                  (* new Chess() *)
  reset : GameState -> GameState;
  turn : GameState -> Color;
  get : GameState -> string -> option Piece;
  board : GameState -> nat -> nat -> option Piece;     (* board()[r][c] *)
  moves : GameState -> option string -> list Move;     (* verbose *)
  move : GameState -> MoveObj -> GameState * option Move;
  undo : GameState -> GameState * option Move;
  in_check : GameState -> bool;
  in_checkmate : GameState -> bool;
  in_draw : GameState -> bool;
  game_over : GameState -> bool;
  history : GameState -> list string
}.

(** [redoMove] rebuilds its argument from an undone move: [from], [to],
    and [promotion] only when that field is truthy. *)
Definition redoObjOf (m : Move) : MoveObj :=
  mkObj (from m) (to m)
        (if Js.truthy (promotion m) then promotion m else None).

(** Game states that arise from [new Chess()] through the mutating calls
    the controllers make ([reset], [move], [undo]). *)
Inductive Played (E : Engine) : GameState E -> Prop :=
| played_new : Played E (newGame E)
| played_reset g : Played E g -> Played E (reset E g)
| played_move g o : Played E g -> Played E (fst (move E g o))
| played_undo g : Played E g -> Played E (fst (undo E g)).

(** What the controllers take for granted about chess.js. *)
Record Laws (E : Engine) : Prop := {
  (** a move listed by [moves] is accepted when handed back to [move] *)
  move_legal : forall g sq m,
    In m (moves E g sq) ->
    exists g' m', move E g (objOf m) = (g', Some m');
  (** a rejected move ([null]) leaves the game as it was *)
  move_rejected : forall g o g',
    move E g o = (g', None) -> g' = g;
  (** an accepted move adds its notation at the end of the history *)
  move_history : forall g o g' m,
    move E g o = (g', Some m) -> history E g' = history E g ++ [san m];
  (** [undo] takes back the last accepted move and returns it *)
  undo_move : forall g o g' m,
    move E g o = (g', Some m) -> undo E g' = (g, Some m);
  (** [undo] returns [null] exactly on an empty history, changing nothing *)
  undo_none : forall g g',
    undo E g = (g', None) -> g' = g /\ history E g = [];
  undo_history : forall g g' m,
    undo E g = (g', Some m) -> history E g = history E g' ++ [san m];
  (** replaying an undone move by its [from], [to] and [promotion] gives
      back the game that was undone *)
  redo_undo : forall g g' m,
    Played E g -> undo E g = (g', Some m) ->
    move E g' (redoObjOf m) = (g, Some m);
  (** the game is over exactly in checkmate or in a draw *)
  game_over_iff : forall g,
    game_over E g = in_checkmate E g || in_draw E g;
  (** in checkmate there is no legal move, for any square *)
  checkmate_no_moves : forall g sq,
    in_checkmate E g = true -> moves E g sq = [];
  (** [reset] gives the starting position: nothing played, not terminal *)
  reset_fresh : forall g,
    history E (reset E g) = [] /\
    in_checkmate E (reset E g) = false /\
    in_draw E (reset E g) = false
}.

End Chess.

(** ** Squares of the rendered board *)

Module Board.

(** ['abcdefgh'[col]] *)
Definition fileChar (col : nat) : ascii :=
  nth col ["a"; "b"; "c"; "d"; "e"; "f"; "g"; "h"]%char "?"%char.

(** The decimal digit [8 - row] as concatenated to the file letter. *)
Definition rankChar (row : nat) : ascii := ascii_of_nat (48 + (8 - row)).

(** [squareName = 'abcdefgh'[col] + (8 - row)] *)
Definition squareName (row col : nat) : string :=
  String (fileChar col) (String (rankChar row) EmptyString).

(** The index pairs of [for (r = 0; r < 8; r++) for (c = 0; c < 8; c++)]. *)
Definition cells : list (nat * nat) :=
  list_prod (seq 0 8) (seq 0 8).

(** The same loop with the display indices mapped through [flipped]. *)
Definition displayCells (flipped : bool) : list (nat * nat) :=
  map (fun '(r, c) => if flipped then (7 - r, 7 - c) else (r, c)) cells.

End Board.

(** ** [src/app_ai.js]: the controller with AI opponent, undo/redo, flip
     and threat overlay *)

Module Full.
Section Controller.

Variable E : Chess.Engine.

(** Where the [#threat-overlay] element is.  [initThreatOverlay] appends
    it to the board container unless the page already has one. *)
Inductive Overlay := NoOverlay | InBoard | OutsideBoard.

(** The part of the page that the controller reads back: the children of
    the board container (square elements with their [dataset.square] and
    whether they hold an [<img>], animated piece elements, the overlay). *)
Record Dom := mkDom {
  squareEls : list (string * bool);
  animEls : list nat;
  overlay : Overlay;
  fresh : nat                     (* identity of the next created element *)
}.

(** Pending [setTimeout] callbacks: the 400 ms thinking delay of
    [triggerAiMove], and the 550 ms clean-up of [animateAIMove] with the
    element and the move its closure holds. *)
Inductive Timer :=
| Think
| Anim (el : nat) (m : Chess.Move).

(** The variables of the [DOMContentLoaded] closure. *)
Record State := mkState {
  game : Chess.GameState E;
  playerColor : Chess.Color;
  aiColor : Chess.Color;
  aiThinking : bool;
  redoStack : list Chess.Move;
  showThreats : bool;
  flipped : bool;
  selectedSquare : option string;
  possibleMoves : list string;
  dom : Dom;
  timers : list Timer
}.

Definition setGame (g : Chess.GameState E) (st : State) : State :=
  mkState g (playerColor st) (aiColor st) (aiThinking st) (redoStack st)
          (showThreats st) (flipped st) (selectedSquare st)
          (possibleMoves st) (dom st) (timers st).

Definition setSides (p a : Chess.Color) (st : State) : State :=
  mkState (game st) p a (aiThinking st) (redoStack st)
          (showThreats st) (flipped st) (selectedSquare st)
          (possibleMoves st) (dom st) (timers st).

Definition setAiThinking (b : bool) (st : State) : State :=
  mkState (game st) (playerColor st) (aiColor st) b (redoStack st)
          (showThreats st) (flipped st) (selectedSquare st)
          (possibleMoves st) (dom st) (timers st).

Definition setRedoStack (l : list Chess.Move) (st : State) : State :=
  mkState (game st) (playerColor st) (aiColor st) (aiThinking st) l
          (showThreats st) (flipped st) (selectedSquare st)
          (possibleMoves st) (dom st) (timers st).

Definition setShowThreats (b : bool) (st : State) : State :=
  mkState (game st) (playerColor st) (aiColor st) (aiThinking st)
          (redoStack st) b (flipped st) (selectedSquare st)
          (possibleMoves st) (dom st) (timers st).

Definition setFlipped (b : bool) (st : State) : State :=
  mkState (game st) (playerColor st) (aiColor st) (aiThinking st)
          (redoStack st) (showThreats st) b (selectedSquare st)
          (possibleMoves st) (dom st) (timers st).

(** [selectedSquare = s; possibleMoves = l;] *)
Definition setSelection (s : option string) (l : list string)
           (st : State) : State :=
  mkState (game st) (playerColor st) (aiColor st) (aiThinking st)
          (redoStack st) (showThreats st) (flipped st) s l
          (dom st) (timers st).

Definition setDom (d : Dom) (st : State) : State :=
  mkState (game st) (playerColor st) (aiColor st) (aiThinking st)
          (redoStack st) (showThreats st) (flipped st) (selectedSquare st)
          (possibleMoves st) d (timers st).

Definition setTimers (l : list Timer) (st : State) : State :=
  mkState (game st) (playerColor st) (aiColor st) (aiThinking st)
          (redoStack st) (showThreats st) (flipped st) (selectedSquare st)
          (possibleMoves st) (dom st) l.

(** *** Rendering *)

(** [squares.find(el => el.dataset.square === name)] over the children of
    the board container; only square elements carry [dataset.square]. *)
Definition findSquare (d : Dom) (name : string) : option (string * bool) :=
  find (fun el => String.eqb (fst el) name) (squareEls d).

(** [boardContainer.children.length] *)
Definition childCount (d : Dom) : nat :=
  List.length (squareEls d) + List.length (animEls d)
  + match overlay d with InBoard => 1 | _ => 0 end.

(** The first part of [renderBoard]: the container is emptied (which
    detaches animated pieces and an overlay placed inside it) and the 64
    squares are appended in display order. *)
Definition drawBoard (st : State) : State :=
  let d := dom st in
  setDom
    (mkDom
       (map (fun '(row, col) =>
               (Board.squareName row col,
                match Chess.board E (game st) row col with
                | Some _ => true
                | None => false
                end))
            (Board.displayCells (flipped st)))
       []
       (match overlay d with InBoard => NoOverlay | o => o end)
       (fresh d))
    st.

(** The test of [verifyBoard]: is there a square whose [<img>] does not
    match the piece on it, or are there not exactly 64 children? *)
Definition boardMismatch (st : State) : bool :=
  negb (childCount (dom st) =? 64)
  || existsb
       (fun '(row, col) =>
          match Chess.board E (game st) row col,
                findSquare (dom st) (Board.squareName row col) with
          | Some _, None => true
          | Some _, Some el => negb (snd el)
          | None, Some el => snd el
          | None, None => false
          end)
       Board.cells.

(** The moves [updateThreatOverlay] tries on the game for one opposing
    piece: [game.move(move); ...; game.undo();] for each of its moves. *)
Definition tryMoves (g : Chess.GameState E) (ms : list Chess.Move)
  : Chess.GameState E :=
  fold_left
    (fun g m => fst (Chess.undo E (fst (Chess.move E g (Chess.objOf m)))))
    ms g.

(** [updateThreatOverlay], as far as the game object is concerned.  The
    arrows it draws are display only. *)
Definition updateThreatOverlay (st : State) : State :=
  match overlay (dom st) with
  | NoOverlay => st
  | _ =>
    if negb (showThreats st) then st
    else
      let opponent := Chess.other (playerColor st) in
      let boardState := Chess.board E (game st) in
      setGame
        (fold_left
           (fun g '(r, c) =>
              match boardState r c with
              | Some p =>
                if Chess.color_eqb (Chess.pcolor p) opponent
                then tryMoves g
                       (Chess.moves E g (Some (Board.squareName r c)))
                else g
              | None => g
              end)
           Board.cells (game st))
        st
  end.

(** [renderBoard].  [updateStatus] and [updateMoveList] only write text.
    [verifyBoard] runs on the squares just drawn, where [boardMismatch]
    is false (lemma [verifyBoard_after_draw]), so its re-render is never
    taken. *)
Definition renderBoard (st : State) : State :=
  updateThreatOverlay (drawBoard st).

(** The text [updateStatus] writes after "You are playing ...": *)
Definition statusLine (st : State) : string :=
  let moveColor :=
    match Chess.turn E (game st) with
    | Chess.White => "White"
    | Chess.Black => "Black"
    end%string in
  if Chess.in_checkmate E (game st)
  then ("Game over: " ++ moveColor ++ " is in checkmate.")%string
  else if Chess.in_draw E (game st) then "Game over: draw."%string
  else ((moveColor ++ " to move.")
        ++ (if Chess.in_check E (game st) then " (Check!)" else ""))%string.

(** *** The AI's turn *)

(** [triggerAiMove] up to its [setTimeout]: the callback is queued. *)
Definition triggerAiMove (st : State) : State :=
  if negb (Chess.color_eqb (Chess.turn E (game st)) (aiColor st))
     || Chess.game_over E (game st)
  then st
  else setTimers (timers st ++ [Think]) (setAiThinking true st).

(** The callback [triggerAiMove] passes to [animateAIMove]. *)
Definition aiMoveDone (m : Chess.Move) (st : State) : State :=
  let st := setGame (fst (Chess.move E (game st) (Chess.objOf m))) st in
  let st := setSelection None [] st in
  let st := setAiThinking false st in
  let st := setRedoStack [] st in
  let st := renderBoard st in
  updateThreatOverlay st.

(** [el.innerHTML = ''] on the first square element named [name]. *)
Fixpoint emptySquare (name : string) (els : list (string * bool))
  : list (string * bool) :=
  match els with
  | [] => []
  | el :: rest =>
    if String.eqb (fst el) name then (fst el, false) :: rest
    else el :: emptySquare name rest
  end.

(** [animateAIMove(move, callback)] with the callback of
    [triggerAiMove].  The [requestAnimationFrame] callback only restyles
    the moving element. *)
Definition animateAIMove (m : Chess.Move) (st : State) : State :=
  match Chess.get E (game st) (Chess.from m) with
  | None => aiMoveDone m st
  | Some _ =>
    match findSquare (dom st) (Chess.from m),
          findSquare (dom st) (Chess.to m) with
    | Some _, Some _ =>
      let d := dom st in
      let el := fresh d in
      setTimers (timers st ++ [Anim el m])
        (setDom (mkDom (emptySquare (Chess.from m) (squareEls d))
                       (animEls d ++ [el]) (overlay d) (S el))
                st)
    | _, _ => aiMoveDone m st
    end
  end.

(** The callback of the 400 ms timer; [r] is what [Math.random()]
    returns.  An index outside the array gives [undefined], and
    [animateAIMove] stops at [move.from] with a [TypeError]. *)
Definition thinkTimeout (r : Q) (st : State) : State :=
  let legalMoves := Chess.moves E (game st) None in
  if List.length legalMoves =? 0 then setAiThinking false st
  else
    let move := nth_error legalMoves
                          (Js.floorTimes r (List.length legalMoves)) in
    let st := setSelection None [] st in
    match move with
    | Some m => animateAIMove m st
    | None => st
    end.

(** The callback of the 550 ms timer.  [removeChild] throws a
    [NotFoundError] when the moving element is no longer a child of the
    board container; the callback is then not reached. *)
Definition animTimeout (el : nat) (m : Chess.Move) (st : State) : State :=
  if existsb (Nat.eqb el) (animEls (dom st))
  then
    let d := dom st in
    aiMoveDone m
      (setDom (mkDom (squareEls d)
                     (filter (fun e => negb (Nat.eqb el e)) (animEls d))
                     (overlay d) (fresh d))
              st)
  else st.

(** *** Clicks on the board *)

(** The [promotion] value after the prompt: the lower-cased choice when
    it is one of the four codes, queen otherwise. *)
Definition promotionChoice (choice : option string) : string :=
  match choice with
  | Some c =>
    if Js.truthyStr c
       && Js.includes ["q"; "r"; "b"; "n"]%string (Js.toLowerCase c)
    then Js.toLowerCase c
    else "q"%string
  | None => "q"%string
  end.

(** Does the move from [sel] to [square] ask for the prompt? *)
Definition promotes (g : Chess.GameState E) (sel square : string) : bool :=
  match Chess.get E g sel with
  | Some movingPiece =>
    Chess.type_eqb (Chess.ptype movingPiece) Chess.Pawn
    && let targetRank := Js.charAt square 1 in
       match Chess.pcolor movingPiece, targetRank with
       | Chess.White, Some c => Ascii.eqb c "8"
       | Chess.Black, Some c => Ascii.eqb c "1"
       | _, None => false
       end
  | None => false
  end.

(** The variable [promotion] of [onSquareClick]; [choice] is what
    [prompt] returns if it is shown. *)
Definition promotionFor (g : Chess.GameState E) (sel square : string)
           (choice : option string) : option string :=
  if promotes g sel square then Some (promotionChoice choice) else None.

(** [selectedSquare && possibleMoves.includes(square)], with the selected
    square when it holds. *)
Definition moveFrom (st : State) (square : string) : option string :=
  match selectedSquare st with
  | Some sel =>
    if Js.truthyStr sel && Js.includes (possibleMoves st) square
    then Some sel else None
  | None => None
  end.

(** [aiThinking || game.turn() !== playerColor] *)
Definition gated (st : State) : bool :=
  aiThinking st
  || negb (Chess.color_eqb (Chess.turn E (game st)) (playerColor st)).

Definition onSquareClick (square : string) (choice : option string)
           (st : State) : State :=
  if gated st then st
  else
    let piece := Chess.get E (game st) square in
    match moveFrom st square with
    | Some sel =>
      let promotion := promotionFor (game st) sel square choice in
      let st :=
        setGame (fst (Chess.move E (game st)
                                 (Chess.mkObj sel square promotion))) st in
      let st := setSelection None [] st in
      let st := setRedoStack [] st in
      let st := renderBoard st in
      let st := updateThreatOverlay st in
      triggerAiMove st
    | None =>
      let own :=
        match piece with
        | Some p => Chess.color_eqb (Chess.pcolor p)
                                    (Chess.turn E (game st))
        | None => false
        end in
      if own
      then
        let moves := Chess.moves E (game st) (Some square) in
        renderBoard (setSelection (Some square) (map Chess.to moves) st)
      else
        updateThreatOverlay (renderBoard (setSelection None [] st))
    end.

(** *** Buttons *)

(** [r] is what [Math.random()] returns. *)
Definition resetGame (r : Q) (st : State) : State :=
  let st := setGame (Chess.reset E (game st)) st in
  let p := if Js.ltHalf r then Chess.White else Chess.Black in
  let st := setSides p (Chess.other p) st in
  let st := setSelection None [] st in
  let st := setAiThinking false st in
  let st := setFlipped false st in
  let st := renderBoard st in
  let st := updateThreatOverlay st in
  let st :=
    match aiColor st with
    | Chess.White => triggerAiMove st
    | Chess.Black => st
    end in
  setRedoStack [] st.

Definition flipBoard (st : State) : State :=
  renderBoard (setFlipped (negb (flipped st)) st).

Definition undoLastMove (st : State) : State :=
  if aiThinking st then st
  else
    let (g, undone) := Chess.undo E (game st) in
    let st := setGame g st in
    match undone with
    | None => st
    | Some m =>
      let st := setRedoStack (redoStack st ++ [m]) st in
      let st := setSelection None [] st in
      let st := setAiThinking false st in
      let st := renderBoard st in
      updateThreatOverlay st
    end.

(** [redoStack.pop()]: the last element and the rest. *)
Definition pop (l : list Chess.Move)
  : option (Chess.Move * list Chess.Move) :=
  match rev l with
  | [] => None
  | m :: r => Some (m, rev r)
  end.

Definition redoMove (st : State) : State :=
  if aiThinking st then st
  else
    match pop (redoStack st) with
    | None => st
    | Some (m, rest) =>
      let st := setRedoStack rest st in
      let st :=
        setGame (fst (Chess.move E (game st) (Chess.redoObjOf m))) st in
      let st := setSelection None [] st in
      let st := renderBoard st in
      updateThreatOverlay st
    end.

Definition toggleThreats (st : State) : State :=
  updateThreatOverlay (setShowThreats (negb (showThreats st)) st).

(** *** The page *)

(** [initThreatOverlay] *)
Definition initThreatOverlay (st : State) : State :=
  match overlay (dom st) with
  | NoOverlay =>
    let d := dom st in
    setDom (mkDom (squareEls d) (animEls d) InBoard (fresh d)) st
  | _ => st
  end.

(** The [DOMContentLoaded] handler: [r] is what [Math.random()] returns,
    [page] says where the page has a [#threat-overlay] element. *)
Definition boot (r : Q) (page : Overlay) : State :=
  let p := if Js.ltHalf r then Chess.White else Chess.Black in
  let st :=
    mkState (Chess.newGame E) p (Chess.other p) false [] false false
            None [] (mkDom [] [] page 0) [] in
  let st := initThreatOverlay st in
  let st := renderBoard st in
  match aiColor st with
  | Chess.White => triggerAiMove st
  | Chess.Black => st
  end.

(** What can happen after that: a click on a square (with the answer the
    user gives if prompted), a button, or a pending timer that fires
    (with the random number its callback draws). *)
Inductive Event :=
| Click (square : string) (choice : option string)
| ResetBtn (r : Q)
| FlipBtn
| UndoBtn
| RedoBtn
| ThreatBtn
| Timeout (k : nat) (r : Q).

(** The [k]-th element taken out of a list. *)
Fixpoint takeOut {A : Type} (k : nat) (l : list A) : option (A * list A) :=
  match k, l with
  | _, [] => None
  | 0, x :: rest => Some (x, rest)
  | S k', x :: rest =>
    match takeOut k' rest with
    | Some (y, rest') => Some (y, x :: rest')
    | None => None
    end
  end.

Definition handle (e : Event) (st : State) : State :=
  match e with
  | Click square choice => onSquareClick square choice st
  | ResetBtn r => resetGame r st
  | FlipBtn => flipBoard st
  | UndoBtn => undoLastMove st
  | RedoBtn => redoMove st
  | ThreatBtn => toggleThreats st
  | Timeout k r =>
    match takeOut k (timers st) with
    | Some (Think, rest) => thinkTimeout r (setTimers rest st)
    | Some (Anim el m, rest) => animTimeout el m (setTimers rest st)
    | None => st
    end
  end.

Definition run (st : State) (es : list Event) : State :=
  fold_left (fun st e => handle e st) es st.

(** The states the page can be in: what the load handler leaves, and
    whatever a sequence of events makes of it. *)
Definition Reachable (st : State) : Prop :=
  exists r page es, st = run (boot r page) es.

(** The Selection of the specification: the selected square and its
    destinations. *)
Definition selection (st : State) : option string * list string :=
  (selectedSquare st, possibleMoves st).

(** A click that selects: the human may act, the click does not complete
    a move, and the square holds a piece of the side to move. *)
Definition selects (st : State) (square : string) : Prop :=
  gated st = false
  /\ moveFrom st square = None
  /\ exists p, Chess.get E (game st) square = Some p
               /\ Chess.pcolor p = Chess.turn E (game st).

(** The destinations are the ones the engine lists, in the present game,
    for the selected square. *)
Definition selectionCurrent (st : State) : Prop :=
  match selectedSquare st with
  | Some sq =>
    possibleMoves st = map Chess.to (Chess.moves E (game st) (Some sq))
  | None => possibleMoves st = []
  end.

End Controller.
End Full.

(** ** [src/unnamed/part_000]: the controller with AI opponent only *)

Module Ai.
Section Controller.

Variable E : Chess.Engine.

(** The children of the board container: square elements by their
    [dataset.square], and animated piece elements. *)
Record Dom := mkDom {
  squareEls : list string;
  animEls : list nat;
  fresh : nat
}.

Inductive Timer :=
| Think
| Anim (el : nat) (m : Chess.Move).

Record State := mkState {
  game : Chess.GameState E;
  playerColor : Chess.Color;
  aiColor : Chess.Color;
  aiThinking : bool;
  selectedSquare : option string;
  possibleMoves : list string;
  dom : Dom;
  timers : list Timer
}.

Definition setGame (g : Chess.GameState E) (st : State) : State :=
  mkState g (playerColor st) (aiColor st) (aiThinking st)
          (selectedSquare st) (possibleMoves st) (dom st) (timers st).

Definition setAiThinking (b : bool) (st : State) : State :=
  mkState (game st) (playerColor st) (aiColor st) b
          (selectedSquare st) (possibleMoves st) (dom st) (timers st).

Definition setSelection (s : option string) (l : list string)
           (st : State) : State :=
  mkState (game st) (playerColor st) (aiColor st) (aiThinking st)
          s l (dom st) (timers st).

Definition setDom (d : Dom) (st : State) : State :=
  mkState (game st) (playerColor st) (aiColor st) (aiThinking st)
          (selectedSquare st) (possibleMoves st) d (timers st).

Definition setTimers (l : list Timer) (st : State) : State :=
  mkState (game st) (playerColor st) (aiColor st) (aiThinking st)
          (selectedSquare st) (possibleMoves st) (dom st) l.

(** [renderBoard]: the container is emptied and the 64 squares are
    appended; [updateStatus] only writes text. *)
Definition renderBoard (st : State) : State :=
  setDom
    (mkDom (map (fun '(row, col) => Board.squareName row col) Board.cells)
           [] (fresh (dom st)))
    st.

Definition hasSquare (d : Dom) (name : string) : bool :=
  existsb (fun n => String.eqb n name) (squareEls d).

Definition triggerAiMove (st : State) : State :=
  if negb (Chess.color_eqb (Chess.turn E (game st)) (aiColor st))
     || Chess.game_over E (game st)
  then st
  else setTimers (timers st ++ [Think]) (setAiThinking true st).

(** The callback [triggerAiMove] passes to [animateAIMove]. *)
Definition aiMoveDone (m : Chess.Move) (st : State) : State :=
  let st := setGame (fst (Chess.move E (game st) (Chess.objOf m))) st in
  let st := setSelection None [] st in
  let st := setAiThinking false st in
  renderBoard st.

Definition animateAIMove (m : Chess.Move) (st : State) : State :=
  match Chess.get E (game st) (Chess.from m) with
  | None => aiMoveDone m st
  | Some _ =>
    if hasSquare (dom st) (Chess.from m) && hasSquare (dom st) (Chess.to m)
    then
      let d := dom st in
      let el := fresh d in
      setTimers (timers st ++ [Anim el m])
        (setDom (mkDom (squareEls d) (animEls d ++ [el]) (S el)) st)
    else aiMoveDone m st
  end.

(** The callback of the 400 ms timer.  Here the chosen move is shown as
    the selection while it is animated. *)
Definition thinkTimeout (r : Q) (st : State) : State :=
  let legalMoves := Chess.moves E (game st) None in
  if List.length legalMoves =? 0 then setAiThinking false st
  else
    match nth_error legalMoves
                    (Js.floorTimes r (List.length legalMoves)) with
    | Some m =>
      let st := setSelection (Some (Chess.from m)) [Chess.to m] st in
      let st := renderBoard st in
      animateAIMove m st
    | None => st
    end.

Definition animTimeout (el : nat) (m : Chess.Move) (st : State) : State :=
  if existsb (Nat.eqb el) (animEls (dom st))
  then
    let d := dom st in
    aiMoveDone m
      (setDom (mkDom (squareEls d)
                     (filter (fun e => negb (Nat.eqb el e)) (animEls d))
                     (fresh d))
              st)
  else st.

Definition moveFrom (st : State) (square : string) : option string :=
  match selectedSquare st with
  | Some sel =>
    if Js.truthyStr sel && Js.includes (possibleMoves st) square
    then Some sel else None
  | None => None
  end.

Definition gated (st : State) : bool :=
  aiThinking st
  || negb (Chess.color_eqb (Chess.turn E (game st)) (playerColor st)).

Definition onSquareClick (square : string) (st : State) : State :=
  if gated st then st
  else
    let piece := Chess.get E (game st) square in
    match moveFrom st square with
    | Some sel =>
      let st :=
        setGame (fst (Chess.move E (game st)
                                 (Chess.mkObj sel square None))) st in
      let st := setSelection None [] st in
      let st := renderBoard st in
      triggerAiMove st
    | None =>
      let own :=
        match piece with
        | Some p => Chess.color_eqb (Chess.pcolor p)
                                    (Chess.turn E (game st))
        | None => false
        end in
      if own
      then
        let moves := Chess.moves E (game st) (Some square) in
        renderBoard (setSelection (Some square) (map Chess.to moves) st)
      else renderBoard (setSelection None [] st)
    end.

Definition boot (r : Q) : State :=
  let p := if Js.ltHalf r then Chess.White else Chess.Black in
  let st :=
    renderBoard
      (mkState (Chess.newGame E) p (Chess.other p) false None []
               (mkDom [] [] 0) []) in
  match aiColor st with
  | Chess.White => triggerAiMove st
  | Chess.Black => st
  end.

Inductive Event :=
| Click (square : string)
| Timeout (k : nat) (r : Q).

Definition handle (e : Event) (st : State) : State :=
  match e with
  | Click square => onSquareClick square st
  | Timeout k r =>
    match Full.takeOut k (timers st) with
    | Some (Think, rest) => thinkTimeout r (setTimers rest st)
    | Some (Anim el m, rest) => animTimeout el m (setTimers rest st)
    | None => st
    end
  end.

Definition run (st : State) (es : list Event) : State :=
  fold_left (fun st e => handle e st) es st.

Definition selection (st : State) : option string * list string :=
  (selectedSquare st, possibleMoves st).

(** A click that selects, as in [Full.selects]. *)
Definition selects (st : State) (square : string) : Prop :=
  gated st = false
  /\ moveFrom st square = None
  /\ exists p, Chess.get E (game st) square = Some p
               /\ Chess.pcolor p = Chess.turn E (game st).

(** Random numbers are taken from the interval from 0 to 1, 1 excluded. *)
Definition inRange (e : Event) : Prop :=
  match e with
  | Click _ => True
  | Timeout _ r => (0 <= r)%Q /\ (r < 1)%Q
  end.

(** The AI is idle with nothing pending, or thinking with its thinking
    timer pending, or animating with its animation timer pending and the
    moving element attached to the board. *)
Definition inStep (st : State) : Prop :=
  (aiThinking st = false /\ timers st = [])
  \/ (aiThinking st = true /\ timers st = [Think])
  \/ (aiThinking st = true
      /\ exists el m, timers st = [Anim el m] /\ animEls (dom st) = [el]).

(** The [k]-th pending timer is a thinking delay, and with the random
    number [r] its callback picks the legal move [m]. *)
Definition picks (st : State) (k : nat) (r : Q) (m : Chess.Move) : Prop :=
  (exists rest, Full.takeOut k (timers st) = Some (Think, rest))
  /\ nth_error (Chess.moves E (game st) None)
               (Js.floorTimes r
                  (List.length (Chess.moves E (game st) None)))
     = Some m.

End Controller.
End Ai.

(** ** The two-player script (second script of [src/app_ai.js]) *)

Module Basic.
Section Controller.

Variable E : Chess.Engine.

(** Nothing of the page is read back by this script. *)
Record State := mkState {
  game : Chess.GameState E;
  selectedSquare : option string;
  possibleMoves : list string
}.

Definition moveFrom (st : State) (square : string) : option string :=
  match selectedSquare st with
  | Some sel =>
    if Js.truthyStr sel && Js.includes (possibleMoves st) square
    then Some sel else None
  | None => None
  end.

Definition onSquareClick (square : string) (st : State) : State :=
  let piece := Chess.get E (game st) square in
  match moveFrom st square with
  | Some sel =>
    mkState (fst (Chess.move E (game st) (Chess.mkObj sel square None)))
            None []
  | None =>
    let own :=
      match piece with
      | Some p => Chess.color_eqb (Chess.pcolor p) (Chess.turn E (game st))
      | None => false
      end in
    if own
    then
      let moves := Chess.moves E (game st) (Some square) in
      mkState (game st) (Some square) (map Chess.to moves)
    else mkState (game st) None []
  end.

Definition boot : State := mkState (Chess.newGame E) None [].

Definition run (st : State) (clicks : list string) : State :=
  fold_left (fun st sq => onSquareClick sq st) clicks st.

Definition selection (st : State) : option string * list string :=
  (selectedSquare st, possibleMoves st).

(** A click that selects: it does not complete a move, and the square
    holds a piece of the side to move. *)
Definition selects (st : State) (square : string) : Prop :=
  moveFrom st square = None
  /\ exists p, Chess.get E (game st) square = Some p
               /\ Chess.pcolor p = Chess.turn E (game st).

End Controller.
End Basic.

(** ** A reference engine

  The rules of chess in the way chess.js implements them, so that the
  controllers can be run on real positions.  Squares are numbered 0..63
  from a8 to h1, row by row, as chess.js scans its board. *)

Module Rules.
Import Chess.

Inductive Kind := Normal | Capture | BigPawn | EpCapture | KCastle | QCastle.

(** The internal move of chess.js ([build_move]). *)
Record Raw := mkRaw {
  rcolor : Color;
  rfrom : nat;
  rto : nat;
  rkind : Kind;
  rpiece : PieceType;
  rcaptured : option PieceType;
  rpromo : option PieceType
}.

Record Position := mkPos {
  cells : list (option Piece);
  side : Color;
  wk : bool; wq : bool;          (* castling rights of White *)
  bk : bool; bq : bool;          (* castling rights of Black *)
  ep : option nat;
  halfMoves : nat;
  moveNumber : nat
}.

Definition at_ (b : list (option Piece)) (i : nat) : option Piece :=
  nth i b None.

Fixpoint put (b : list (option Piece)) (i : nat) (v : option Piece)
  : list (option Piece) :=
  match b, i with
  | [], _ => []
  | _ :: rest, 0 => v :: rest
  | x :: rest, S i' => x :: put rest i' v
  end.

Definition rowOf (i : nat) : nat := i / 8.
Definition colOf (i : nat) : nat := i mod 8.

(** The square [dr] rows down and [dc] columns right of [i], if it is
    on the board. *)
Definition shift (i : nat) (dr dc : Z) : option nat :=
  let r := (Z.of_nat (rowOf i) + dr)%Z in
  let c := (Z.of_nat (colOf i) + dc)%Z in
  if ((0 <=? r) && (r <? 8) && (0 <=? c) && (c <? 8))%Z
  then Some (Z.to_nat (r * 8 + c)) else None.

(** [algebraic(i)] *)
Definition algebraic (i : nat) : string :=
  Board.squareName (rowOf i) (colOf i).

(** [SQUARES[name]] *)
Definition square (name : string) : option nat :=
  match name with
  | String f (String r EmptyString) =>
    let col :=
      match f with
      | "a" => Some 0 | "b" => Some 1 | "c" => Some 2 | "d" => Some 3
      | "e" => Some 4 | "f" => Some 5 | "g" => Some 6 | "h" => Some 7
      | _ => None
      end%char in
    let row :=
      match r with
      | "8" => Some 0 | "7" => Some 1 | "6" => Some 2 | "5" => Some 3
      | "4" => Some 4 | "3" => Some 5 | "2" => Some 6 | "1" => Some 7
      | _ => None
      end%char in
    match row, col with
    | Some r, Some c => Some (r * 8 + c)
    | _, _ => None
    end
  | _ => None
  end.

Definition isColor (c : Color) (p : option Piece) : bool :=
  match p with
  | Some q => color_eqb (pcolor q) c
  | None => false
  end.

Definition isEmpty (p : option Piece) : bool :=
  match p with Some _ => false | None => true end.

(** [PIECE_OFFSETS], as (rows, columns). *)
Definition offsets (t : PieceType) : list (Z * Z) :=
  match t with
  | Knight => [(-1, -2); (-2, -1); (-2, 1); (-1, 2);
               (1, 2); (2, 1); (2, -1); (1, -2)]
  | Bishop => [(-1, -1); (-1, 1); (1, 1); (1, -1)]
  | Rook => [(-1, 0); (0, 1); (1, 0); (0, -1)]
  | Queen | King => [(-1, -1); (-1, 0); (-1, 1); (0, 1);
                     (1, 1); (1, 0); (1, -1); (0, -1)]
  | Pawn => []
  end%Z.

Definition slides (t : PieceType) : bool :=
  match t with
  | Bishop | Rook | Queen => true
  | _ => false
  end.

(** [build_move] *)
Definition build (p : Position) (from to : nat) (k : Kind)
           (promo : option PieceType) : Raw :=
  mkRaw (side p) from to k
        (match at_ (cells p) from with Some q => ptype q | None => Pawn end)
        (match at_ (cells p) to with
         | Some q => Some (ptype q)
         | None => match k with EpCapture => Some Pawn | _ => None end
         end)
        promo.

(** [add_move]: a pawn reaching the first or last row gives four moves. *)
Definition addMove (p : Position) (from to : nat) (k : Kind) : list Raw :=
  match at_ (cells p) from with
  | Some (mkPiece Pawn _) =>
    if (rowOf to =? 0) || (rowOf to =? 7)
    then map (fun t => build p from to k (Some t))
             [Queen; Rook; Bishop; Knight]
    else [build p from to k None]
  | _ => [build p from to k None]
  end.

(** The squares a piece reaches along one offset: the loop
    [while (true) { square += offset; ... }]. *)
Fixpoint ray (p : Position) (from : nat) (d : Z * Z) (t : PieceType)
         (cur : nat) (fuel : nat) : list Raw :=
  match fuel with
  | 0 => []
  | S fuel' =>
    match shift cur (fst d) (snd d) with
    | None => []
    | Some sq =>
      match at_ (cells p) sq with
      | None =>
        addMove p from sq Normal
        ++ (if slides t then ray p from d t sq fuel' else [])
      | Some q =>
        if color_eqb (pcolor q) (side p) then []
        else addMove p from sq Capture
      end
    end
  end.

Definition pawnMoves (p : Position) (i : nat) : list Raw :=
  let us := side p in
  let dr := match us with White => (-1)%Z | Black => 1%Z end in
  let secondRow := match us with White => 6 | Black => 1 end in
  let pushes :=
    match shift i dr 0 with
    | Some s1 =>
      if isEmpty (at_ (cells p) s1)
      then addMove p i s1 Normal
           ++ match shift i (2 * dr) 0 with
              | Some s2 =>
                if (rowOf i =? secondRow) && isEmpty (at_ (cells p) s2)
                then addMove p i s2 BigPawn else []
              | None => []
              end
      else []
    | None => []
    end in
  let capture (dc : Z) :=
    match shift i dr dc with
    | Some s =>
      if isColor (other us) (at_ (cells p) s) then addMove p i s Capture
      else match ep p with
           | Some e => if s =? e then addMove p i s EpCapture else []
           | None => []
           end
    | None => []
    end in
  pushes
  ++ match us with
     | White => capture (-1)%Z ++ capture 1%Z
     | Black => capture 1%Z ++ capture (-1)%Z
     end.

Definition pieceMoves (p : Position) (i : nat) : list Raw :=
  match at_ (cells p) i with
  | Some q =>
    if color_eqb (pcolor q) (side p)
    then match ptype q with
         | Pawn => pawnMoves p i
         | t => flat_map (fun d => ray p i d t i 8) (offsets t)
         end
    else []
  | None => []
  end.

(** Is the way from [i] along [d] to [target] free of pieces?  The loop
    of [attacked] over [RAYS]. *)
Fixpoint clearTo (b : list (option Piece)) (d : Z * Z) (cur target : nat)
         (fuel : nat) : bool :=
  match fuel with
  | 0 => false
  | S fuel' =>
    match shift cur (fst d) (snd d) with
    | None => false
    | Some sq =>
      if sq =? target then true
      else isEmpty (at_ b sq) && clearTo b d sq target fuel'
    end
  end.

(** Does the piece on [i] attack [target]? *)
Definition attacksFrom (b : list (option Piece)) (i target : nat) : bool :=
  match at_ b i with
  | None => false
  | Some q =>
    match ptype q with
    | Pawn =>
      let dr := match pcolor q with White => (-1)%Z | Black => 1%Z end in
      existsb (fun dc => match shift i dr dc with
                         | Some s => s =? target
                         | None => false
                         end) [(-1)%Z; 1%Z]
    | Knight | King =>
      existsb (fun d => match shift i (fst d) (snd d) with
                        | Some s => s =? target
                        | None => false
                        end) (offsets (ptype q))
    | t => existsb (fun d => clearTo b d i target 8) (offsets t)
    end
  end.

(** [attacked(color, square)] *)
Definition attacked (b : list (option Piece)) (c : Color) (target : nat)
  : bool :=
  existsb (fun i => isColor c (at_ b i) && attacksFrom b i target)
          (seq 0 64).

(** [kings[c]] *)
Definition kingOf (b : list (option Piece)) (c : Color) : option nat :=
  find (fun i => match at_ b i with
                 | Some (mkPiece King c') => color_eqb c c'
                 | _ => false
                 end) (seq 0 64).

(** [king_attacked(c)] *)
Definition kingAttacked (b : list (option Piece)) (c : Color) : bool :=
  match kingOf b c with
  | Some k => attacked b (other c) k
  | None => false
  end.

(** The castling moves of [generate_moves]. *)
Definition castlingMoves (p : Position) : list Raw :=
  let us := side p in
  let them := other us in
  let b := cells p in
  match kingOf b us with
  | None => []
  | Some k =>
    (if (match us with White => wk p | Black => bk p end)
        && isEmpty (at_ b (k + 1)) && isEmpty (at_ b (k + 2))
        && negb (attacked b them k)
        && negb (attacked b them (k + 1))
        && negb (attacked b them (k + 2))
     then addMove p k (k + 2) KCastle else [])
    ++
    (if (match us with White => wq p | Black => bq p end)
        && isEmpty (at_ b (k - 1)) && isEmpty (at_ b (k - 2))
        && isEmpty (at_ b (k - 3))
        && negb (attacked b them k)
        && negb (attacked b them (k - 1))
        && negb (attacked b them (k - 2))
     then addMove p k (k - 2) QCastle else [])
  end.

(** The rooks' home squares: a8, h8, a1, h1. *)
Definition dropRights (p : Position) (from to : nat) (kingMoved : bool)
  : bool * bool * bool * bool :=
  let us := side p in
  let lose (c : Color) (sq : nat) :=
    (color_eqb us c && ((from =? sq) || kingMoved))
    || (color_eqb (other us) c && (to =? sq)) in
  (wk p && negb (lose White 63), wq p && negb (lose White 56),
   bk p && negb (lose Black 7), bq p && negb (lose Black 0)).

(** [make_move], without the history push. *)
Definition makeMove (p : Position) (m : Raw) : Position :=
  let us := side p in
  let b := cells p in
  let b := put (put b (rto m) (at_ b (rfrom m))) (rfrom m) None in
  let b :=
    match rkind m with
    | EpCapture =>
      match us with
      | Black => put b (rto m - 8) None
      | White => put b (rto m + 8) None
      end
    | _ => b
    end in
  let b :=
    match rpromo m with
    | Some t => put b (rto m) (Some (mkPiece t us))
    | None => b
    end in
  let kingMoved :=
    match at_ b (rto m) with
    | Some (mkPiece King _) => true
    | _ => false
    end in
  let b :=
    if kingMoved
    then match rkind m with
         | KCastle => put (put b (rto m - 1) (at_ b (rto m + 1)))
                          (rto m + 1) None
         | QCastle => put (put b (rto m + 1) (at_ b (rto m - 2)))
                          (rto m - 2) None
         | _ => b
         end
    else b in
  let '(wk', wq', bk', bq') := dropRights p (rfrom m) (rto m) kingMoved in
  mkPos b (other us) wk' wq' bk' bq'
        (match rkind m with
         | BigPawn =>
           Some (match us with
                 | Black => rto m - 8
                 | White => rto m + 8
                 end)
         | _ => None
         end)
        (match rpiece m, rkind m with
         | Pawn, _ => 0
         | _, Capture | _, EpCapture => 0
         | _, _ => S (halfMoves p)
         end)
        (match us with
         | Black => S (moveNumber p)
         | White => moveNumber p
         end).

(** [generate_moves(options)]: [only] is the square of the options, as
    an index; pseudo-legal moves that leave the own king attacked are
    filtered out. *)
Definition generateMoves (p : Position) (only : option nat) : list Raw :=
  let pseudo :=
    match only with
    | Some i =>
      pieceMoves p i
      ++ (if match kingOf (cells p) (side p) with
             | Some k => i =? k
             | None => false
             end
          then castlingMoves p else [])
    | None => flat_map (pieceMoves p) (seq 0 64) ++ castlingMoves p
    end in
  filter (fun m => negb (kingAttacked (cells (makeMove p m)) (side p)))
         pseudo.

Definition inCheck (p : Position) : bool :=
  kingAttacked (cells p) (side p).

Definition noMoves (p : Position) : bool :=
  match generateMoves p None with [] => true | _ => false end.

Definition inCheckmate (p : Position) : bool := inCheck p && noMoves p.
Definition inStalemate (p : Position) : bool :=
  negb (inCheck p) && noMoves p.

(** *** Notation *)

Definition code (t : PieceType) : string :=
  match t with
  | Pawn => "p" | Knight => "n" | Bishop => "b"
  | Rook => "r" | Queen => "q" | King => "k"
  end.

Definition upper (t : PieceType) : string :=
  match t with
  | Pawn => "P" | Knight => "N" | Bishop => "B"
  | Rook => "R" | Queen => "Q" | King => "K"
  end.

Definition isCapture (m : Raw) : bool :=
  match rkind m with Capture | EpCapture => true | _ => false end.

(** [get_disambiguator] *)
Definition disambiguator (p : Position) (m : Raw) : string :=
  let others :=
    filter (fun m' => type_eqb (rpiece m) (rpiece m')
                      && negb (rfrom m =? rfrom m')
                      && (rto m =? rto m'))
           (generateMoves p None) in
  let sameRank :=
    existsb (fun m' => rowOf (rfrom m) =? rowOf (rfrom m')) others in
  let sameFile :=
    existsb (fun m' => colOf (rfrom m) =? colOf (rfrom m')) others in
  match others with
  | [] => ""
  | _ =>
    if sameRank && sameFile then algebraic (rfrom m)
    else if sameFile
         then String (Board.rankChar (rowOf (rfrom m))) ""
         else String (Board.fileChar (colOf (rfrom m))) ""
  end%string.

(** [move_to_san] *)
Definition moveToSan (p : Position) (m : Raw) : string :=
  let output :=
    match rkind m with
    | KCastle => "O-O"
    | QCastle => "O-O-O"
    | _ =>
      (match rpiece m with
       | Pawn => ""
       | t => upper t ++ disambiguator p m
       end)
      ++ (if isCapture m
          then (match rpiece m with
                | Pawn => String (Board.fileChar (colOf (rfrom m))) ""
                | _ => ""
                end) ++ "x"
          else "")
      ++ algebraic (rto m)
      ++ (match rpromo m with
          | Some t => "=" ++ upper t
          | None => ""
          end)
    end%string in
  let after := makeMove p m in
  (output ++ (if inCheck after
              then if inCheckmate after then "#" else "+"
              else ""))%string.

(** [make_pretty] *)
Definition pretty (p : Position) (m : Raw) : Move :=
  mkMove (rcolor m) (algebraic (rfrom m)) (algebraic (rto m))
         ((match rkind m with
           | Normal => "n" | Capture => "c" | BigPawn => "b"
           | EpCapture => "e" | KCastle => "k" | QCastle => "q"
           end)
          ++ (match rpromo m with Some _ => "p" | None => "" end))%string
         (rpiece m) (rcaptured m)
         (option_map code (rpromo m))
         (moveToSan p m).

(** *** Draws *)

Definition countType (b : list (option Piece)) (t : PieceType) : nat :=
  List.length (filter (fun q => match q with
                                | Some x => type_eqb (ptype x) t
                                | None => false
                                end) b).

(** [insufficient_material] *)
Definition insufficientMaterial (p : Position) : bool :=
  let b := cells p in
  let numPieces := List.length (filter (fun q => negb (isEmpty q)) b) in
  let bishops :=
    filter (fun i => match at_ b i with
                     | Some (mkPiece Bishop _) => true
                     | _ => false
                     end) (seq 0 64) in
  let colour i := Nat.even (rowOf i + colOf i) in
  if numPieces =? 2 then true
  else if (numPieces =? 3)
          && ((countType b Bishop =? 1) || (countType b Knight =? 1))
  then true
  else if negb (List.length bishops =? 0)
          && (numPieces =? List.length bishops + 2)
  then forallb colour bishops || forallb (fun i => negb (colour i)) bishops
  else false.

Definition piece_eqb (a b : option Piece) : bool :=
  match a, b with
  | Some x, Some y =>
    type_eqb (ptype x) (ptype y) && color_eqb (pcolor x) (pcolor y)
  | None, None => true
  | _, _ => false
  end.

Fixpoint cells_eqb (a b : list (option Piece)) : bool :=
  match a, b with
  | [], [] => true
  | x :: a', y :: b' => piece_eqb x y && cells_eqb a' b'
  | _, _ => false
  end.

(** Equality of the first four fields of the FEN strings. *)
Definition sameFen (p q : Position) : bool :=
  cells_eqb (cells p) (cells q)
  && color_eqb (side p) (side q)
  && Bool.eqb (wk p) (wk q) && Bool.eqb (wq p) (wq q)
  && Bool.eqb (bk p) (bk q) && Bool.eqb (bq p) (bq q)
  && match ep p, ep q with
     | Some i, Some j => i =? j
     | None, None => true
     | _, _ => false
     end.

(** [in_threefold_repetition] over the positions of the game so far. *)
Definition threefold (positions : list Position) : bool :=
  existsb (fun p =>
             3 <=? List.length (filter (sameFen p) positions))
          positions.

(** *** The game object *)

(** The current position and the history stack, latest move first, each
    move with the position it was played in. *)
Record Game := mkGame {
  pos : Position;
  past : list (Raw * Position)
}.

Definition backRank (c : Color) : list (option Piece) :=
  map (fun t => Some (mkPiece t c))
      [Rook; Knight; Bishop; Queen; King; Bishop; Knight; Rook].

Definition startPosition : Position :=
  mkPos (backRank Black
         ++ repeat (Some (mkPiece Pawn Black)) 8
         ++ repeat None 32
         ++ repeat (Some (mkPiece Pawn White)) 8
         ++ backRank White)
        White true true true true None 0 1.

Definition start : Game := mkGame startPosition [].

(** The test of [move] on an object argument. *)
Definition matches (o : MoveObj) (m : Raw) : bool :=
  String.eqb (ofrom o) (algebraic (rfrom m))
  && String.eqb (oto o) (algebraic (rto m))
  && match rpromo m with
     | None => true
     | Some t =>
       match opromotion o with
       | Some c => String.eqb c (code t)
       | None => false
       end
     end.

Definition doMove (g : Game) (o : MoveObj) : Game * option Move :=
  match find (matches o) (generateMoves (pos g) None) with
  | Some m =>
    (mkGame (makeMove (pos g) m) ((m, pos g) :: past g),
     Some (pretty (pos g) m))
  | None => (g, None)
  end.

Definition doUndo (g : Game) : Game * option Move :=
  match past g with
  | (m, p) :: rest => (mkGame p rest, Some (pretty p m))
  | [] => (g, None)
  end.

Definition movesOf (g : Game) (sq : option string) : list Move :=
  match sq with
  | None => map (pretty (pos g)) (generateMoves (pos g) None)
  | Some name =>
    match square name with
    | Some i => map (pretty (pos g)) (generateMoves (pos g) (Some i))
    | None => []
    end
  end.

(** Every entry of the history stack was found by [doMove] in the
    position stored with it and leads to the next position. *)
Fixpoint chained (cur : Position) (past : list (Raw * Position)) : Prop :=
  match past with
  | [] => True
  | (m, p) :: rest =>
    find (matches (objOf (pretty p m))) (generateMoves p None) = Some m
    /\ cur = makeMove p m
    /\ chained p rest
  end.

Definition inDraw (g : Game) : bool :=
  (100 <=? halfMoves (pos g))
  || inStalemate (pos g)
  || insufficientMaterial (pos g)
  || threefold (pos g :: map snd (past g)).

Definition engine : Engine :=
  {| GameState := Game;
     newGame := start;
     reset := fun _ => start;
     turn := fun g => side (pos g);
     get := fun g name =>
              match square name with
              | Some i => at_ (cells (pos g)) i
              | None => None
              end;
     board := fun g r c => at_ (cells (pos g)) (r * 8 + c);
     moves := movesOf;
     move := doMove;
     undo := doUndo;
     in_check := fun g => inCheck (pos g);
     in_checkmate := fun g => inCheckmate (pos g);
     in_draw := inDraw;
     game_over := fun g => inCheckmate (pos g) || inDraw g;
     history := fun g =>
                  rev (map (fun '(m, p) => moveToSan p m) (past g)) |}.

End Rules.

(** ** Sessions on the reference engine *)

Module Scenario.
Import Full.

(** [Math.random()] gave 1/4: the human plays White.  The page has no
    threat overlay of its own. *)
Definition humanWhite : State Rules.engine :=
  boot Rules.engine (1 # 4) NoOverlay.

(** [Math.random()] gave 3/4: the AI plays White and is thinking. *)
Definition humanBlack : State Rules.engine :=
  boot Rules.engine (3 # 4) NoOverlay.

(** A page with a [#threat-overlay] element next to the board, the AI
    playing White: the user switches the threat arrows on while the AI is
    thinking, and the AI's two timers fire. *)
Definition arrowsOn : State Rules.engine :=
  run (boot Rules.engine (3 # 4) OutsideBoard)
      [ThreatBtn; Timeout 0 0; Timeout 0 0].

(** The human has clicked e2 and then e4; the AI is thinking. *)
Definition afterE4 : State Rules.engine :=
  run humanWhite [Click "e2" None; Click "e4" None].

(** Both timers of the AI's turn have fired, with random number 0: the
    AI has answered with the first legal move, Nc6. *)
Definition afterReply : State Rules.engine :=
  run afterE4 [Timeout 0 0; Timeout 0 0].

(** The human has taken the AI's answer back: Black, the AI, is to move
    and no timer is pending. *)
Definition replyUndone : State Rules.engine :=
  undoLastMove afterReply.

(** One round of knight moves: the human plays Nf3 and Ng1 by clicks, the
    AI draws the random numbers that make it answer Nf6 and Ng8 (indices
    3 of 20 and 17 of 22 in its lists of legal moves). *)
Definition knightsOutAndBack : list Event :=
  [Click "g1" None; Click "f3" None; Timeout 0 (3 # 20); Timeout 0 0;
   Click "f3" None; Click "g1" None; Timeout 0 (17 # 22); Timeout 0 0].

(** 1. Nf3 Nf6 2. Ng1 Ng8 3. Nf3 Nf6 4. Ng1 Ng8: the starting position has
    now occurred three times, with White, the human, to move. *)
Definition repetition : State Rules.engine :=
  run humanWhite (knightsOutAndBack ++ knightsOutAndBack).

(** 1. f3 e5 2. g4 Qh4#: the human, White, is checkmated.  The AI's random
    numbers 13/20 and 1/6 pick e5 and Qh4 (indices 13 of 20 and 5 of 30). *)
Definition foolsMate : State Rules.engine :=
  run humanWhite
      [Click "f2" None; Click "f3" None; Timeout 0 (13 # 20); Timeout 0 0;
       Click "g2" None; Click "g4" None; Timeout 0 (1 # 6); Timeout 0 0].

(** The AI plays White; its thinking timer has fired and the piece is
    moving when the user presses the flip button; then the animation
    timer fires. *)
Definition flipWhileMoving : State Rules.engine :=
  run humanBlack [Timeout 0 0; FlipBtn; Timeout 0 0].

(** The same without the flip. *)
Definition noFlip : State Rules.engine :=
  run humanBlack [Timeout 0 0; Timeout 0 0].

(** A position with a white pawn on e7 and nothing on e8 (kings on e1
    and a6), White to move and played by the human. *)
Definition pawnOnE7 : State Rules.engine :=
  drawBoard
    (mkState Rules.engine
       (Rules.mkGame
          (Rules.mkPos
             (Rules.put
                (Rules.put
                   (Rules.put (repeat None 64) 12
                              (Some (Chess.mkPiece Chess.Pawn Chess.White)))
                   60 (Some (Chess.mkPiece Chess.King Chess.White)))
                16 (Some (Chess.mkPiece Chess.King Chess.Black)))
             Chess.White false false false false None 0 40)
          [])
       Chess.White Chess.Black false [] false false None []
       (mkDom [] [] NoOverlay 0) []).

(** The human has clicked e7. *)
Definition e7Selected : State Rules.engine :=
  onSquareClick "e7" None pawnOnE7.

End Scenario.

(** ** What the scripts write to the page *)

Module View.

(** [getUnicodePiece] of [part_000] and of the two-player script:
    [lookup[piece.type][piece.color]]. *)
Definition getUnicodePiece (p : Chess.Piece) : string :=
  match Chess.ptype p, Chess.pcolor p with
  | Chess.Pawn, Chess.White => "♙"
  | Chess.Pawn, Chess.Black => "♟"
  | Chess.Rook, Chess.White => "♖"
  | Chess.Rook, Chess.Black => "♜"
  | Chess.Knight, Chess.White => "♘"
  | Chess.Knight, Chess.Black => "♞"
  | Chess.Bishop, Chess.White => "♗"
  | Chess.Bishop, Chess.Black => "♝"
  | Chess.Queen, Chess.White => "♕"
  | Chess.Queen, Chess.Black => "♛"
  | Chess.King, Chess.White => "♔"
  | Chess.King, Chess.Black => "♚"
  end.

(** *** The move list of [app_ai.js] *)

(** [history[i] || '']: the element is [undefined] outside the array. *)
Definition orEmpty (v : option string) : string :=
  match v with
  | Some s => if Js.truthyStr s then s else ""
  | None => ""
  end.

(** The text of one list item,
    [`${whiteMove}${blackMove ? ' ' + blackMove : ''}`]. *)
Definition itemText (whiteMove blackMove : string) : string :=
  (whiteMove
   ++ (if Js.truthyStr blackMove then " " ++ blackMove else ""))%string.

(** The loop [for (let i = 0; i < history.length; i += 2)] from index
    [i], cut off after [rounds] rounds. *)
Fixpoint listItems (history : list string) (i rounds : nat) : list string :=
  match rounds with
  | 0 => []
  | S rounds' =>
    if i <? List.length history
    then itemText (orEmpty (nth_error history i))
                  (orEmpty (nth_error history (i + 1)))
         :: listItems history (i + 2) rounds'
    else []
  end.

(** [updateMoveList] on a page with a move list: the texts of the [<li>]
    elements it leaves there, given [game.history()]. *)
Definition updateMoveList (history : list string) : list string :=
  listItems history 0 (List.length history).

Section Controller.

Variable E : Chess.Engine.

(** *** The status text *)

Definition newline : ascii := ascii_of_nat 10.

(** [status.replace(/\n/g, '<br>')] *)
Fixpoint brLines (s : string) : string :=
  match s with
  | EmptyString => EmptyString
  | String c s' =>
    if Ascii.eqb c newline then ("<br>" ++ brLines s')%string
    else String c (brLines s')
  end.

(** [updateStatus] of [app_ai.js] and [part_000]: what it assigns to
    [statusEl.innerHTML]. *)
Definition updateStatus (st : Full.State E) : string :=
  let humanColorName :=
    match Full.playerColor st with
    | Chess.White => "White"
    | Chess.Black => "Black"
    end%string in
  brLines (("You are playing " ++ humanColorName ++ "."
            ++ String newline EmptyString)
           ++ Full.statusLine st)%string.

(** *** The classes of a square *)

(** The [checkSquare] of [renderBoard]: when the side to move is in
    check, the first square in board order that holds its king. *)
Definition checkSquare (g : Chess.GameState E) : option string :=
  if Chess.in_check E g
  then
    match find (fun '(r, c) =>
                  match Chess.board E g r c with
                  | Some p =>
                    Chess.type_eqb (Chess.ptype p) Chess.King
                    && Chess.color_eqb (Chess.pcolor p) (Chess.turn E g)
                  | None => false
                  end) Board.cells with
    | Some (r, c) => Some (Board.squareName r c)
    | None => None
    end
  else None.

(** The class list [renderBoard] gives the square element of [row] and
    [col]; the three scripts agree on it. *)
Definition squareClasses (g : Chess.GameState E)
           (selectedSquare : option string) (possibleMoves : list string)
           (row col : nat) : list string :=
  let squareName := Board.squareName row col in
  let piece := Chess.board E g row col in
  let shade :=
    if (row + col) mod 2 =? 0 then "light"%string else "dark"%string in
  ["square"%string; shade]
  ++ (match selectedSquare with
      | Some s =>
        if String.eqb s squareName then ["selected"%string] else []
      | None => []
      end)
  ++ (if Js.includes possibleMoves squareName
      then match piece with
           | Some p =>
             if negb (Chess.color_eqb (Chess.pcolor p) (Chess.turn E g))
             then ["capture"%string] else ["move"%string]
           | None => ["move"%string]
           end
      else [])
  ++ (match checkSquare g with
      | Some s =>
        if Js.truthyStr s && String.eqb s squareName
        then ["check"%string] else []
      | None => []
      end).

(** The classes on the board of [app_ai.js], in display order. *)
Definition boardClasses (st : Full.State E) : list (string * list string) :=
  map (fun '(row, col) =>
         (Board.squareName row col,
          squareClasses (Full.game st) (Full.selectedSquare st)
                        (Full.possibleMoves st) row col))
      (Board.displayCells (Full.flipped st)).

(** *** The threat arrows *)

Inductive ThreatType := CaptureThreat | CheckThreat.

(** [{ from, to, type }] *)
Record Threat := mkThreat {
  tfrom : string;
  tto : string;
  ttype : ThreatType
}.

(** [move.flags.includes('c')] *)
Definition hasFlag (flags : string) (c : ascii) : bool :=
  existsb (Ascii.eqb c) (list_ascii_of_string flags).

(** The body of [moves.forEach] in [updateThreatOverlay]: the game and
    the threats collected so far, before and after one move is tried. *)
Definition tryMove (playerColor : Chess.Color)
           (acc : Chess.GameState E * list Threat) (m : Chess.Move)
  : Chess.GameState E * list Threat :=
  let '(g, threats) := acc in
  let threats :=
    if hasFlag (Chess.flags m) "c"
    then threats ++ [mkThreat (Chess.from m) (Chess.to m) CaptureThreat]
    else threats in
  let g := fst (Chess.move E g (Chess.objOf m)) in
  let threats :=
    if Chess.in_check E g
       && Chess.color_eqb (Chess.turn E g) playerColor
    then threats ++ [mkThreat (Chess.from m) (Chess.to m) CheckThreat]
    else threats in
  (fst (Chess.undo E g), threats).

(** The two loops of [updateThreatOverlay] over the board: the game
    as they leave it, and the array [threats]. *)
Definition collectThreats (st : Full.State E)
  : Chess.GameState E * list Threat :=
  let opponent := Chess.other (Full.playerColor st) in
  let boardState := Chess.board E (Full.game st) in
  fold_left
    (fun acc '(r, c) =>
       match boardState r c with
       | Some p =>
         if Chess.color_eqb (Chess.pcolor p) opponent
         then fold_left (tryMove (Full.playerColor st))
                        (Chess.moves E (fst acc)
                                     (Some (Board.squareName r c)))
                        acc
         else acc
       | None => acc
       end)
    Board.cells (Full.game st, []).

(** [squareCenter(name)] is not [null] *)
Definition hasCenter (d : Full.Dom) (name : string) : bool :=
  match Full.findSquare d name with
  | Some _ => true
  | None => false
  end.

(** The lines in the overlay when [updateThreatOverlay] has run. *)
Definition arrows (st : Full.State E) : list Threat :=
  match Full.overlay (Full.dom st) with
  | Full.NoOverlay => []
  | _ =>
    if negb (Full.showThreats st) then []
    else filter (fun th => hasCenter (Full.dom st) (tfrom th)
                           && hasCenter (Full.dom st) (tto th))
                (snd (collectThreats st))
  end.

End Controller.
End View.

(** ** The course of the AI's turn in [app_ai.js] *)

Module FullStep.
Section Controller.
Import Full.

Variable E : Chess.Engine.

(** The AI is idle with nothing pending, or thinking with its thinking
    timer pending, or animating with its animation timer pending and the
    moving element attached to the board. *)
Definition inStep (st : State E) : Prop :=
  (aiThinking st = false /\ timers st = [])
  \/ (aiThinking st = true /\ timers st = [Think])
  \/ (aiThinking st = true
      /\ exists el m, timers st = [Anim el m] /\ In el (animEls (dom st))).

(** What emptying the board container does to the overlay. *)
Definition detached (o : Overlay) : Overlay :=
  match o with InBoard => NoOverlay | o => o end.

(** An event that does not re-render the board under a moving piece:
    the flip and reset buttons are pressed only while the AI is idle, and
    random numbers are taken from 0 to 1, 1 excluded. *)
Definition calm (st : State E) (e : Event) : Prop :=
  match e with
  | FlipBtn => aiThinking st = false
  | ResetBtn _ => aiThinking st = false
  | Timeout _ r => (0 <= r)%Q /\ (r < 1)%Q
  | _ => True
  end.

(** A sequence of events, each calm in the state it arrives in. *)
Fixpoint calmRun (st : State E) (es : list Event) : Prop :=
  match es with
  | [] => True
  | e :: rest => calm st e /\ calmRun (handle e st) rest
  end.

(** An event that neither takes a move back nor replays one nor starts a
    new game. *)
Definition keepsHistory (e : Event) : Prop :=
  match e with
  | UndoBtn | RedoBtn | ResetBtn _ => False
  | _ => True
  end.

(** The moves of [stack] can be replayed from game [g] one after the
    other, the first one first: the engine accepts each, with its [from],
    [to] and [promotion], as the move it is.  The redo stack is replayed
    from its top, that is in reverse. *)
Fixpoint replayable (g : Chess.GameState E) (stack : list Chess.Move)
  : Prop :=
  match stack with
  | [] => True
  | m :: rest =>
    exists g', Chess.move E g (Chess.redoObjOf m) = (g', Some m)
               /\ replayable g' rest
  end.

(** What the user can do while the AI is busy that leaves the game, the
    timers and the board container alone: a click on a square and the
    undo, redo and threat buttons. *)
Definition quiet (e : Event) : Prop :=
  match e with
  | Click _ _ | UndoBtn | RedoBtn | ThreatBtn => True
  | _ => False
  end.

(** While the AI is thinking nothing is moving yet, and the flip button
    does no harm either. *)
Definition harmless (e : Event) : Prop :=
  match e with
  | FlipBtn => True
  | _ => quiet e
  end.

(** The AI's turn that began in [st] is over in [s], with the move [m]
    played: the engine was given [m] on the game of [st], the history is
    one move longer, selection and redo stack are empty, the AI is not
    busy, and the timer of the turn is gone. *)
Definition turnDone (st : State E) (m : Chess.Move) (s : State E) : Prop :=
  game s = fst (Chess.move E (game st) (Chess.objOf m))
  /\ List.length (Chess.history E (game s))
     = S (List.length (Chess.history E (game st)))
  /\ selection s = (None, [])
  /\ redoStack s = []
  /\ aiThinking s = false
  /\ timers s = timers st.

End Controller.
End FullStep.

(** ** More sessions on the reference engine *)

Module Session.
Import Full.

(** A page with a [#threat-overlay] element next to the board; the human
    plays White and has switched the threat arrows on. *)
Definition arrowsOnHumanTurn : State Rules.engine :=
  run (boot Rules.engine (1 # 4) OutsideBoard) [ThreatBtn].

(** The same page after 1. e4 d5 2. a3 (the AI's random number 11/20
    picks d5, index 11 of 20): Black, the AI, is to move and thinking
    when the human switches the arrows on. *)
Definition arrowsOnAiTurn : State Rules.engine :=
  run (boot Rules.engine (1 # 4) OutsideBoard)
      [Click "e2" None; Click "e4" None; Timeout 0 (11 # 20); Timeout 0 0;
       Click "a2" None; Click "a3" None; ThreatBtn].

(** The human has clicked e2. *)
Definition e2Selected : State Rules.engine :=
  run Scenario.humanWhite [Click "e2" None].

(** 1. e4 Nc6 taken back move by move. *)
Definition twoUndone : State Rules.engine :=
  run Scenario.afterReply [UndoBtn; UndoBtn].

(** The two-player script with the position of [Scenario.pawnOnE7] and
    the pawn on e7 selected. *)
Definition basicE7Selected : Basic.State Rules.engine :=
  Basic.onSquareClick "e7"
    (Basic.mkState Rules.engine (game Scenario.pawnOnE7) None []).

(** [part_000] with the same position, the human playing White, and the
    pawn on e7 selected. *)
Definition aiE7Selected : Ai.State Rules.engine :=
  Ai.onSquareClick "e7"
    (Ai.renderBoard
       (Ai.mkState Rules.engine (game Scenario.pawnOnE7)
                   Chess.White Chess.Black false None []
                   (Ai.mkDom [] [] 0) [])).

(** 1. e4 and the AI's turn with the flip button pressed while its piece
    is moving: the thinking timer, the flip, the animation timer. *)
Definition flipAfterE4 : State Rules.engine :=
  run Scenario.afterE4 [Timeout 0 0; FlipBtn; Timeout 0 0].

(** The number 0.44999999999999996, the largest one below 9/20.  Twenty
    times it is [9 - 2^-50], half way between 9 and the number before 9,
    and the product is 9, the one with the even significand. *)
Definition justBelow45 : Q := 8106479329266892 # 18014398509481984.

(** [part_000] when the load handler has drawn the board and is about to
    call [triggerAiMove]: the AI plays White. *)
Definition aiLoaded : Ai.State Rules.engine :=
  Ai.renderBoard
    (Ai.mkState Rules.engine (Chess.newGame Rules.engine)
                Chess.Black Chess.White false None []
                (Ai.mkDom [] [] 0) []).

End Session.

(** ** The reference engine obeys the laws *)

Module RulesFacts.
Import Chess Rules.

#[local] Arguments moveToSan : simpl never.
#[local] Arguments generateMoves : simpl never.
#[local] Arguments makeMove : simpl never.
#[local] Arguments algebraic : simpl never.
#[local] Arguments inCheckmate : simpl never.
#[local] Arguments inDraw : simpl never.

Lemma square_lt (name : string) (i : nat) :
  square name = Some i -> i < 64.
Proof.
  unfold square.
  destruct name as [|f [|r [|? ?]]]; try discriminate.
  destruct (match r with
            | "8" => Some 0 | "7" => Some 1 | "6" => Some 2 | "5" => Some 3
            | "4" => Some 4 | "3" => Some 5 | "2" => Some 6 | "1" => Some 7
            | _ => None
            end%char) as [row|] eqn:Hr; try discriminate.
  destruct (match f with
            | "a" => Some 0 | "b" => Some 1 | "c" => Some 2 | "d" => Some 3
            | "e" => Some 4 | "f" => Some 5 | "g" => Some 6 | "h" => Some 7
            | _ => None
            end%char) as [col|] eqn:Hc; try discriminate.
  intros [= <-].
  assert (row < 8).
  { destruct r as [[] [] [] [] [] [] [] []]; inversion Hr; lia. }
  assert (col < 8).
  { destruct f as [[] [] [] [] [] [] [] []]; inversion Hc; lia. }
  lia.
Qed.

(** A move generated for one square is among the moves of the position. *)
Lemma generate_one_all (p : Position) (i : nat) (m : Raw) :
  i < 64 ->
  In m (generateMoves p (Some i)) -> In m (generateMoves p None).
Proof.
  intros Hi. unfold generateMoves.
  rewrite !filter_In. intros [Hin Hok]. split; [|exact Hok].
  apply in_app_or in Hin. apply in_or_app.
  destruct Hin as [Hin | Hin].
  - left. apply in_flat_map. exists i. split; [|exact Hin].
    apply in_seq. lia.
  - right. destruct (kingOf (cells p) (side p)) as [k|];
      [destruct (i =? k)|]; simpl in Hin; tauto.
Qed.

Lemma truthy_code (t : PieceType) : Js.truthy (Some (code t)) = true.
Proof. destruct t; reflexivity. Qed.

Lemma code_inj (t u : PieceType) : code t = code u -> t = u.
Proof. destruct t, u; simpl; intros H; try reflexivity; inversion H. Qed.

Ltac fields :=
  unfold objOf, redoObjOf, pretty in *;
  cbn [ofrom oto opromotion from to promotion san Js.truthy
       option_map fst snd pos past
       GameState newGame reset turn get board moves move undo in_check
       in_checkmate in_draw game_over history engine] in *.

Lemma redoObjOf_pretty (p : Position) (m : Raw) :
  redoObjOf (pretty p m) = objOf (pretty p m).
Proof.
  fields. destruct (rpromo m) as [t|]; [|reflexivity].
  destruct t; reflexivity.
Qed.

Lemma matches_self (p : Position) (m : Raw) :
  matches (objOf (pretty p m)) m = true.
Proof.
  unfold matches. fields.
  rewrite !String.eqb_refl.
  destruct (rpromo m); fields; [apply String.eqb_refl | reflexivity].
Qed.

(** A move that matches the fields of [x] matches whatever [x]
    matched. *)
Lemma matches_trans (p : Position) (o : MoveObj) (x y : Raw) :
  matches o x = true ->
  matches (objOf (pretty p x)) y = true ->
  matches o y = true.
Proof.
  unfold matches. fields.
  rewrite !andb_true_iff, !String.eqb_eq.
  intros [[Hf Ht] Hp] [[Hf' Ht'] Hp'].
  repeat split; try congruence.
  destruct (rpromo y) as [t|]; [|reflexivity].
  destruct (rpromo x) as [u|]; fields; [|discriminate].
  apply String.eqb_eq in Hp'. apply code_inj in Hp'. subst u.
  exact Hp.
Qed.

(** Looking a found move up again by its own fields finds it again. *)
Lemma find_again (p : Position) (o : MoveObj) (l : list Raw) (m : Raw) :
  find (matches o) l = Some m ->
  find (matches (objOf (pretty p m))) l = Some m.
Proof.
  induction l as [|x l IH]; cbn [find]; [discriminate|].
  destruct (matches o x) eqn:Hox.
  - intros [= ->]. rewrite matches_self. reflexivity.
  - intros Hfind.
    destruct (matches (objOf (pretty p m)) x) eqn:Hmx; [|auto].
    assert (Hom : matches o m = true).
    { apply find_some in Hfind. tauto. }
    rewrite (matches_trans p o m x Hom Hmx) in Hox. discriminate.
Qed.

Lemma played_chained (g : Game) :
  Played engine g -> chained (pos g) (past g).
Proof.
  induction 1 as [| g _ _ | g o _ IH | g _ IH]; fields.
  - exact I.
  - exact I.
  - unfold doMove.
    destruct (find (matches o) (generateMoves (pos g) None)) as [m|] eqn:Hf;
      fields; [|exact IH].
    cbn [chained]. repeat split; [|exact IH].
    exact (find_again (pos g) o _ Hf).
  - unfold doUndo. destruct g as [p [|[m q] rest]]; fields;
      cbn [chained] in *; tauto.
Qed.

Lemma start_fresh :
  inCheckmate startPosition = false /\ inDraw start = false.
Proof. split; vm_compute; reflexivity. Qed.

Theorem laws : Laws engine.
Proof.
  constructor;
    cbn [GameState newGame reset turn get board moves move undo in_check
         in_checkmate in_draw game_over history engine].
  - (* move_legal *)
    intros g sq m Hin.
    assert (Hraw : exists raw,
               In raw (generateMoves (pos g) None)
               /\ m = pretty (pos g) raw).
    { unfold movesOf in Hin. destruct sq as [name|].
      - destruct (square name) as [i|] eqn:Hsq; [|contradiction].
        apply in_map_iff in Hin. destruct Hin as [raw [<- Hin]].
        exists raw. split; [|reflexivity].
        eapply generate_one_all; [exact (square_lt name Hsq) | exact Hin].
      - apply in_map_iff in Hin. destruct Hin as [raw [<- Hin]].
        exists raw. auto. }
    destruct Hraw as [raw [Hin' ->]].
    unfold doMove.
    destruct (find (matches (objOf (pretty (pos g) raw)))
                   (generateMoves (pos g) None)) as [m'|] eqn:Hf.
    + do 2 eexists. reflexivity.
    + exfalso.
      pose proof (find_none _ _ Hf raw Hin') as Hno.
      rewrite matches_self in Hno. discriminate.
  - (* move_rejected *)
    intros g o g'. unfold doMove.
    destruct (find _ _); intros [= <-]; reflexivity.
  - (* move_history *)
    intros g o g' m. unfold doMove.
    destruct (find _ _) as [raw|]; intros [= <- <-]; reflexivity.
  - (* undo_move *)
    intros g o g' m. unfold doMove.
    destruct (find _ _) as [raw|]; intros [= <- <-].
    unfold doUndo. fields. destruct g; reflexivity.
  - (* undo_none *)
    intros g g'. unfold doUndo.
    destruct (past g) as [|[m p] rest] eqn:Hp; intros [= <-].
    split; reflexivity.
  - (* undo_history *)
    intros g g' m. unfold doUndo.
    destruct (past g) as [|[raw p] rest] eqn:Hp; intros [= <- <-].
    reflexivity.
  - (* redo_undo *)
    intros g g' m Hplayed. apply played_chained in Hplayed.
    unfold doUndo.
    destruct g as [cur [|[raw p] rest]]; cbn [pos past] in *;
      intros [= <- <-].
    cbn [chained] in Hplayed.
    destruct Hplayed as [Hfind [-> _]].
    unfold doMove. cbn [pos past].
    rewrite redoObjOf_pretty, Hfind. reflexivity.
  - (* game_over_iff *)
    reflexivity.
  - (* checkmate_no_moves *)
    intros g sq Hmate. unfold inCheckmate, noMoves in Hmate.
    apply andb_true_iff in Hmate. destruct Hmate as [_ Hnone].
    destruct (generateMoves (pos g) None) as [|x l] eqn:Hall;
      [|discriminate].
    unfold movesOf. destruct sq as [name|]; [|rewrite Hall; reflexivity].
    destruct (square name) as [i|] eqn:Hsq; [|reflexivity].
    destruct (generateMoves (pos g) (Some i)) as [|y l'] eqn:Hone;
      [reflexivity|].
    exfalso.
    assert (Hin : In y (generateMoves (pos g) None)).
    { eapply generate_one_all; [exact (square_lt name Hsq)|].
      rewrite Hone. left. reflexivity. }
    rewrite Hall in Hin. exact Hin.
  - (* reset_fresh *)
    intros _. split; [reflexivity|]. exact start_fresh.
Qed.

(** A game without a legal move is over: it is checkmate or stalemate. *)
Lemma no_moves_game_over (g : Chess.GameState Rules.engine) :
  Chess.moves Rules.engine g None = [] ->
  Chess.game_over Rules.engine g = true.
Proof.
  intros H. cbn [Chess.moves Chess.game_over Rules.engine] in *.
  unfold Rules.movesOf in H. apply map_eq_nil in H.
  unfold Rules.inDraw, Rules.inCheckmate, Rules.inStalemate, Rules.noMoves.
  rewrite H. cbn [List.length Nat.eqb].
  destruct (Rules.inCheck (Rules.pos g)); cbn [negb andb orb];
    [reflexivity|].
  rewrite orb_true_r. reflexivity.
Qed.

End RulesFacts.

(** Reduction of the fields of a controller state through the setters
  and [drawBoard], without computing anything else. *)
Ltac full_state :=
cbn [Full.game Full.playerColor Full.aiColor Full.aiThinking
     Full.redoStack Full.showThreats Full.flipped Full.selectedSquare
     Full.possibleMoves Full.dom Full.timers
     Full.setGame Full.setSides Full.setAiThinking Full.setRedoStack
     Full.setShowThreats Full.setFlipped Full.setSelection Full.setDom
     Full.setTimers Full.drawBoard fst snd] in *.

(** Reachability of a state written as runs from the load handler. *)
Ltac reachable_by_run lemma_run lemma_boot :=
  repeat match goal with
         | |- Full.Reachable (Full.run _ _) => apply lemma_run
         end;
  apply lemma_boot.

Ltac ai_state :=
  cbn [Ai.game Ai.playerColor Ai.aiColor Ai.aiThinking Ai.selectedSquare
       Ai.possibleMoves Ai.dom Ai.timers
       Ai.setGame Ai.setAiThinking Ai.setSelection Ai.setDom Ai.setTimers
       Ai.renderBoard fst snd] in *.

(** ** Facts about [src/app_ai.js] *)

Module FullFacts.
Section WithEngine.
Import Full.

Variable E : Chess.Engine.
Hypothesis L : Chess.Laws E.

Implicit Types st : State E.

Lemma fold_left_fixed {A B : Type} (f : A -> B -> A) (l : list B) (a : A) :
  (forall x, In x l -> f a x = a) -> fold_left f l a = a.
Proof.
  induction l as [|x l IH]; intros H; simpl; [reflexivity|].
  rewrite (H x (or_introl eq_refl)).
  apply IH. intros y Hy. apply H. right. exact Hy.
Qed.

Lemma setGame_same st : setGame (game st) st = st.
Proof. destruct st; reflexivity. Qed.

(** Trying a listed move and taking it back gives the same game. *)
Lemma try_one (g : Chess.GameState E) sq (m : Chess.Move) :
  In m (Chess.moves E g sq) ->
  fst (Chess.undo E (fst (Chess.move E g (Chess.objOf m)))) = g.
Proof.
  intros Hin.
  destruct (Chess.move_legal L g sq m Hin) as [g' [m' Hmove]].
  rewrite Hmove. simpl.
  rewrite (Chess.undo_move L _ _ Hmove). reflexivity.
Qed.

Lemma tryMoves_same (g : Chess.GameState E) sq :
  tryMoves E g (Chess.moves E g sq) = g.
Proof.
  unfold tryMoves. apply fold_left_fixed.
  intros m Hin. exact (try_one g sq m Hin).
Qed.

(** The threat overlay leaves the whole controller state as it was. *)
Lemma updateThreatOverlay_same st : updateThreatOverlay st = st.
Proof.
  unfold updateThreatOverlay.
  destruct (overlay (dom st)); [reflexivity| |];
    (destruct (negb (showThreats st)); [reflexivity|];
     rewrite fold_left_fixed; [apply setGame_same|];
     intros [r c] _;
     destruct (Chess.board E (game st) r c) as [p|]; [|reflexivity];
     destruct (Chess.color_eqb _ _); [apply tryMoves_same | reflexivity]).
Qed.

Lemma renderBoard_draw st : renderBoard st = drawBoard st.
Proof. unfold renderBoard. apply updateThreatOverlay_same. Qed.

(** Without any assumption on the engine, the overlay and the rendering
    touch only the game object and the page. *)
Lemma updateThreatOverlay_shape st :
  exists g, updateThreatOverlay st = setGame g st.
Proof.
  unfold updateThreatOverlay.
  destruct (overlay (dom st));
    [exists (game st); symmetry; apply setGame_same | |];
    (destruct (negb (showThreats st));
     [exists (game st); symmetry; apply setGame_same | eexists; reflexivity]).
Qed.

Lemma renderBoard_shape st :
  exists g d, renderBoard st = setGame g (setDom d st).
Proof.
  unfold renderBoard.
  destruct (updateThreatOverlay_shape (drawBoard st)) as [g Hg].
  rewrite Hg. unfold drawBoard. eauto.
Qed.

End WithEngine.

Section NoAssumption.
Import Full.
Variable E : Chess.Engine.
Implicit Types st : State E.

Lemma color_eqb_eq (a b : Chess.Color) :
  Chess.color_eqb a b = true <-> a = b.
Proof. destruct a, b; simpl; split; congruence. Qed.

Lemma gated_iff st :
  gated st = true <->
  aiThinking st = true \/ Chess.turn E (game st) <> playerColor st.
Proof.
  unfold gated. rewrite orb_true_iff, negb_true_iff.
  split; (intros [H | H]; [left; exact H | right]).
  - intros Heq. apply color_eqb_eq in Heq. congruence.
  - destruct (Chess.color_eqb _ _) eqn:Heq; [|reflexivity].
    apply color_eqb_eq in Heq. contradiction.
Qed.

Lemma selection_renderBoard st :
  selectedSquare (renderBoard st) = selectedSquare st
  /\ possibleMoves (renderBoard st) = possibleMoves st.
Proof.
  destruct (renderBoard_shape st) as [g [d ->]]. split; reflexivity.
Qed.

Lemma reachable_boot r page : Reachable (boot E r page).
Proof. exists r, page, []. reflexivity. Qed.

Lemma reachable_run st es : Reachable st -> Reachable (run st es).
Proof.
  intros [r [page [es0 ->]]]. exists r, page, (es0 ++ es).
  unfold run. rewrite fold_left_app. reflexivity.
Qed.

Lemma selection_updateThreatOverlay st :
  selectedSquare (updateThreatOverlay st) = selectedSquare st
  /\ possibleMoves (updateThreatOverlay st) = possibleMoves st.
Proof.
  destruct (updateThreatOverlay_shape st) as [g ->]. split; reflexivity.
Qed.

End NoAssumption.
End FullFacts.

(** ** Facts about [src/unnamed/part_000] *)

Module AiFacts.
Section NoAssumption.
Import Ai.
Variable E : Chess.Engine.
Implicit Types st : State E.

Lemma ai_gated_iff st :
  gated st = true <->
  aiThinking st = true \/ Chess.turn E (game st) <> playerColor st.
Proof.
  unfold gated. rewrite orb_true_iff, negb_true_iff.
  split; (intros [H | H]; [left; exact H | right]).
  - intros Heq. apply FullFacts.color_eqb_eq in Heq. congruence.
  - destruct (Chess.color_eqb _ _) eqn:Heq; [|reflexivity].
    apply FullFacts.color_eqb_eq in Heq. contradiction.
Qed.

End NoAssumption.
End AiFacts.

(** ** Undo, redo and the reachable states of [src/app_ai.js] *)

Module FullHistory.
Section WithEngine.
Import Full.

Variable E : Chess.Engine.
Hypothesis L : Chess.Laws E.

Implicit Types st : State E.

(** [undo] answers [null] exactly when nothing has been played. *)
Lemma undo_empty (g : Chess.GameState E) :
  Chess.history E g = [] -> Chess.undo E g = (g, None).
Proof.
  intros Hh. destruct (Chess.undo E g) as [g' [m|]] eqn:Hu.
  - apply (Chess.undo_history L) in Hu. rewrite Hh in Hu.
    destruct (Chess.history E g'); discriminate.
  - destruct (Chess.undo_none L _ Hu) as [-> _]. reflexivity.
Qed.

Lemma undo_nonempty (g : Chess.GameState E) :
  Chess.history E g <> [] ->
  exists g' m, Chess.undo E g = (g', Some m).
Proof.
  intros Hh. destruct (Chess.undo E g) as [g' [m|]] eqn:Hu; [eauto|].
  destruct (Chess.undo_none L _ Hu) as [_ Hnil]. contradiction.
Qed.

(** What [undoLastMove] does when the engine takes a move back. *)
Lemma undoLastMove_some st g' m :
  aiThinking st = false ->
  Chess.undo E (game st) = (g', Some m) ->
  undoLastMove st
  = drawBoard
      (setAiThinking false
         (setSelection None []
            (setRedoStack (redoStack st ++ [m]) (setGame g' st)))).
Proof.
  intros Hbusy Hu. unfold undoLastMove. rewrite Hbusy, Hu.
  rewrite (FullFacts.updateThreatOverlay_same L).
  apply (FullFacts.renderBoard_draw L).
Qed.

Lemma undoLastMove_none st :
  aiThinking st = true \/ Chess.history E (game st) = [] ->
  undoLastMove st = st.
Proof.
  intros H. unfold undoLastMove.
  destruct (aiThinking st); [reflexivity|].
  destruct H as [H | H]; [discriminate|].
  rewrite (undo_empty _ H). apply FullFacts.setGame_same.
Qed.

Lemma pop_push (l : list Chess.Move) (m : Chess.Move) :
  pop (l ++ [m]) = Some (m, l).
Proof.
  unfold pop. rewrite rev_app_distr. simpl. rewrite rev_involutive.
  reflexivity.
Qed.

(** What [redoMove] does with a move on the redo stack. *)
Lemma redoMove_some st m rest :
  aiThinking st = false ->
  pop (redoStack st) = Some (m, rest) ->
  redoMove st
  = drawBoard
      (setSelection None []
         (setGame (fst (Chess.move E (game st) (Chess.redoObjOf m)))
                  (setRedoStack rest st))).
Proof.
  intros Hbusy Hpop. unfold redoMove. rewrite Hbusy, Hpop.
  rewrite (FullFacts.updateThreatOverlay_same L).
  apply (FullFacts.renderBoard_draw L).
Qed.

(** *** The game of a reachable state was played through the engine *)

Let played st : Prop := Chess.Played E (game st).

Ltac normal :=
  rewrite ?(FullFacts.updateThreatOverlay_same L),
          ?(FullFacts.renderBoard_draw L).

Lemma played_aiMoveDone m st : played st -> played (aiMoveDone m st).
Proof.
  unfold played, aiMoveDone. normal. simpl.
  intros H. apply Chess.played_move. exact H.
Qed.

Lemma played_triggerAiMove st : played st -> played (triggerAiMove st).
Proof.
  unfold played, triggerAiMove.
  destruct (_ || _); simpl; auto.
Qed.

Lemma played_animateAIMove m st :
  played st -> played (animateAIMove m st).
Proof.
  intros H. unfold animateAIMove.
  destruct (Chess.get E (game st) (Chess.from m));
    [|apply played_aiMoveDone; exact H].
  destruct (findSquare (dom st) (Chess.from m));
    [|apply played_aiMoveDone; exact H].
  destruct (findSquare (dom st) (Chess.to m));
    [exact H | apply played_aiMoveDone; exact H].
Qed.

Lemma played_handle e st : played st -> played (handle e st).
Proof.
  intros H. destruct e as [sq c | r | | | | | k r]; simpl.
  - (* click *)
    unfold onSquareClick.
    destruct (gated st); [exact H|].
    destruct (moveFrom st sq) as [sel|].
    + normal. apply played_triggerAiMove.
      unfold played. simpl. apply Chess.played_move. exact H.
    + destruct (match Chess.get E (game st) sq with
                | Some p => _
                | None => false
                end); normal; exact H.
  - (* reset *)
    unfold resetGame. normal. unfold played. simpl.
    match goal with
    | |- context [match ?c with Chess.White => _ | Chess.Black => _ end] =>
      destruct c
    end; [apply played_triggerAiMove|];
      unfold played; simpl; apply Chess.played_reset; exact H.
  - (* flip *)
    unfold flipBoard. normal. exact H.
  - (* undo *)
    unfold undoLastMove. destruct (aiThinking st); [exact H|].
    pose proof (Chess.played_undo H) as Hu.
    destruct (Chess.undo E (game st)) as [g [m|]]; normal; exact Hu.
  - (* redo *)
    unfold redoMove. destruct (aiThinking st); [exact H|].
    destruct (pop (redoStack st)) as [[m rest]|]; [|exact H].
    normal. unfold played. simpl. apply Chess.played_move. exact H.
  - (* threats *)
    unfold toggleThreats. normal. exact H.
  - (* timers *)
    destruct (takeOut k (timers st)) as [[[|el m] rest]|]; [| |exact H].
    + unfold thinkTimeout. simpl.
      destruct (_ =? 0); [exact H|].
      destruct (nth_error _ _); [|exact H].
      apply played_animateAIMove. exact H.
    + unfold animTimeout. simpl.
      destruct (existsb _ _); [|exact H].
      apply played_aiMoveDone. exact H.
Qed.

Lemma played_run es : forall st, played st -> played (run st es).
Proof.
  induction es as [|e es IH]; intros st H; simpl; [exact H|].
  apply IH. apply played_handle. exact H.
Qed.

Lemma played_boot r page : played (boot E r page).
Proof.
  unfold boot. normal.
  match goal with
  | |- played (match aiColor ?s with _ => _ end) =>
    assert (Hs : played s);
      [unfold played, initThreatOverlay; simpl;
       destruct page; simpl; apply Chess.played_new|];
      destruct (aiColor s); [apply played_triggerAiMove|]; exact Hs
  end.
Qed.

Lemma reachable_played st : Reachable st -> Chess.Played E (game st).
Proof.
  intros [r [page [es ->]]]. apply played_run. apply played_boot.
Qed.

End WithEngine.
End FullHistory.

(** ** Where a selection comes from *)

Module SelectionFacts.

Section FullScript.
Import Full.
Variable E : Chess.Engine.
Implicit Types st : State E.

Lemma sel_renderBoard st : selection (renderBoard st) = selection st.
Proof.
  destruct (FullFacts.renderBoard_shape st) as [g [d ->]]. reflexivity.
Qed.

Lemma sel_updateThreatOverlay st :
  selection (updateThreatOverlay st) = selection st.
Proof.
  destruct (FullFacts.updateThreatOverlay_shape st) as [g ->]. reflexivity.
Qed.

Lemma sel_setRedoStack l st : selection (setRedoStack l st) = selection st.
Proof. reflexivity. Qed.

Lemma sel_triggerAiMove st : selection (triggerAiMove st) = selection st.
Proof. unfold triggerAiMove. destruct (_ || _); reflexivity. Qed.

Lemma sel_aiMoveDone m st : selection (aiMoveDone m st) = (None, []).
Proof.
  unfold aiMoveDone. rewrite sel_updateThreatOverlay, sel_renderBoard.
  reflexivity.
Qed.

Lemma sel_animateAIMove m st :
  selection st = (None, []) -> selection (animateAIMove m st) = (None, []).
Proof.
  intros H. unfold animateAIMove.
  destruct (Chess.get E (game st) (Chess.from m)); [|apply sel_aiMoveDone].
  destruct (findSquare (dom st) (Chess.from m)); [|apply sel_aiMoveDone].
  destruct (findSquare (dom st) (Chess.to m)); [exact H|apply sel_aiMoveDone].
Qed.

Lemma own_piece (g : Chess.GameState E) (sq : string) :
  match Chess.get E g sq with
  | Some p => Chess.color_eqb (Chess.pcolor p) (Chess.turn E g)
  | None => false
  end = true ->
  exists p, Chess.get E g sq = Some p /\ Chess.pcolor p = Chess.turn E g.
Proof.
  destruct (Chess.get E g sq) as [p|]; [|discriminate].
  intros H. apply FullFacts.color_eqb_eq in H. eauto.
Qed.

(** One event either keeps the selection, or clears it, or is a selecting
    click and sets it to the clicked square and its destinations. *)
Lemma full_step e st :
  selection (handle e st) = selection st
  \/ selection (handle e st) = (None, [])
  \/ exists sq c,
      e = Click sq c /\ selects st sq
      /\ selection (handle e st)
         = (Some sq, map Chess.to (Chess.moves E (game st) (Some sq))).
Proof.
  destruct e as [sq c | r | | | | | k r]; cbn [handle].
  - unfold onSquareClick.
    destruct (gated st) eqn:Hg; [left; reflexivity|].
    destruct (moveFrom st sq) as [sel|] eqn:Hm.
    + right. left.
      rewrite sel_triggerAiMove, sel_updateThreatOverlay, sel_renderBoard.
      reflexivity.
    + destruct (match Chess.get E (game st) sq with
                | Some p => _
                | None => false
                end) eqn:Hown.
      * right. right. exists sq, c.
        rewrite sel_renderBoard.
        repeat split; auto using own_piece.
      * right. left. rewrite sel_updateThreatOverlay, sel_renderBoard.
        reflexivity.
  - right. left. unfold resetGame. cbv zeta.
    rewrite sel_setRedoStack.
    destruct (aiColor _);
      rewrite ?sel_triggerAiMove, sel_updateThreatOverlay, sel_renderBoard;
      reflexivity.
  - left. unfold flipBoard. rewrite sel_renderBoard. reflexivity.
  - unfold undoLastMove. destruct (aiThinking st); [left; reflexivity|].
    destruct (Chess.undo E (game st)) as [g [m|]].
    + right. left. rewrite sel_updateThreatOverlay, sel_renderBoard.
      reflexivity.
    + left. reflexivity.
  - unfold redoMove. destruct (aiThinking st); [left; reflexivity|].
    destruct (pop (redoStack st)) as [[m rest]|]; [|left; reflexivity].
    right. left. rewrite sel_updateThreatOverlay, sel_renderBoard.
    reflexivity.
  - left. unfold toggleThreats. rewrite sel_updateThreatOverlay.
    reflexivity.
  - destruct (takeOut k (timers st)) as [[[|el m] rest]|];
      [| |left; reflexivity].
    + unfold thinkTimeout. cbv zeta.
      destruct (_ =? 0); [left; reflexivity|].
      right. left.
      destruct (nth_error _ _) as [m|]; [|reflexivity].
      apply sel_animateAIMove. reflexivity.
    + unfold animTimeout.
      destruct (existsb _ _); [|left; reflexivity].
      right. left. apply sel_aiMoveDone.
Qed.

Lemma sel_boot r page : selection (boot E r page) = (None, []).
Proof.
  unfold boot. cbv zeta.
  match goal with
  | |- context [match ?c with Chess.White => _ | Chess.Black => _ end] =>
    destruct c
  end; rewrite ?sel_triggerAiMove, sel_renderBoard;
    unfold initThreatOverlay; cbn [dom overlay];
    destruct page; reflexivity.
Qed.

(** A selection that is there was made by a selecting click, and is what
    that click made it. *)
Lemma full_trace r page es :
  selection (run (boot E r page) es) <> (None, []) ->
  exists es1 sq c es2,
    es = es1 ++ Click sq c :: es2
    /\ selects (run (boot E r page) es1) sq
    /\ selection (run (boot E r page) es)
       = (Some sq,
          map Chess.to
              (Chess.moves E (game (run (boot E r page) es1)) (Some sq))).
Proof.
  induction es as [|e es IH] using rev_ind; intros Hsel.
  - exfalso. apply Hsel. apply sel_boot.
  - unfold run in *. rewrite fold_left_app in *. cbn [fold_left] in *.
    destruct (full_step e (fold_left (fun st e => handle e st) es
                                     (boot E r page)))
      as [Hkeep | [Hclear | [sq [c [-> [Hs Heq]]]]]].
    + rewrite Hkeep in Hsel. destruct (IH Hsel) as [es1 [sq [c [es2 H]]]].
      destruct H as [-> [Hs Heq]].
      exists es1, sq, c, (es2 ++ [e]).
      rewrite <- app_assoc. split; [reflexivity|].
      split; [exact Hs|]. rewrite Hkeep. exact Heq.
    + contradiction.
    + exists es, sq, c, []. auto.
Qed.

End FullScript.

Section BasicScript.
Import Basic.
Variable E : Chess.Engine.
Implicit Types st : State E.

(** A click either clears the selection or is a selecting click. *)
Lemma basic_step sq st :
  selection (onSquareClick sq st) = (None, [])
  \/ (selects st sq
      /\ selection (onSquareClick sq st)
         = (Some sq, map Chess.to (Chess.moves E (game st) (Some sq)))).
Proof.
  unfold onSquareClick, selects.
  destruct (moveFrom st sq) as [sel|]; [left; reflexivity|].
  destruct (match Chess.get E (game st) sq with
            | Some p => _
            | None => false
            end) eqn:Hown; [|left; reflexivity].
  right. repeat split; auto using own_piece.
Qed.

Lemma basic_trace clicks :
  selection (run (boot E) clicks) <> (None, []) ->
  exists cs sq,
    clicks = cs ++ [sq]
    /\ selects (run (boot E) cs) sq
    /\ selection (run (boot E) clicks)
       = (Some sq,
          map Chess.to (Chess.moves E (game (run (boot E) cs)) (Some sq))).
Proof.
  destruct clicks as [|sq cs _] using rev_ind; intros Hsel.
  - exfalso. apply Hsel. reflexivity.
  - unfold run in *. rewrite fold_left_app in *. cbn [fold_left] in *.
    destruct (basic_step sq (fold_left (fun st sq => onSquareClick sq st)
                                       cs (boot E)))
      as [Hclear | [Hs Heq]]; [contradiction|].
    exists cs, sq. auto.
Qed.

End BasicScript.

Section AiScript.
Import Ai.
Variable E : Chess.Engine.
Implicit Types st : State E.

Lemma ai_sel_triggerAiMove st : selection (triggerAiMove st) = selection st.
Proof. unfold triggerAiMove. destruct (_ || _); reflexivity. Qed.

Lemma ai_sel_animateAIMove m st :
  selection (animateAIMove m st) = selection st
  \/ selection (animateAIMove m st) = (None, []).
Proof.
  unfold animateAIMove.
  destruct (Chess.get E (game st) (Chess.from m)); [|right; reflexivity].
  destruct (_ && _); [left|right]; reflexivity.
Qed.

(** One event either keeps the selection, or clears it, or is a selecting
    click, or is the thinking timer that shows the AI's move. *)
Lemma ai_step e st :
  selection (handle e st) = selection st
  \/ selection (handle e st) = (None, [])
  \/ (exists sq,
         e = Click sq /\ selects st sq
         /\ selection (handle e st)
            = (Some sq, map Chess.to (Chess.moves E (game st) (Some sq))))
  \/ (exists k r m,
         e = Timeout k r /\ picks st k r m
         /\ selection (handle e st) = (Some (Chess.from m), [Chess.to m])).
Proof.
  destruct e as [sq | k r]; cbn [handle].
  - unfold onSquareClick.
    destruct (gated st) eqn:Hg; [left; reflexivity|].
    destruct (moveFrom st sq) as [sel|] eqn:Hm.
    + right. left. rewrite ai_sel_triggerAiMove. reflexivity.
    + destruct (match Chess.get E (game st) sq with
                | Some p => _
                | None => false
                end) eqn:Hown; [|right; left; reflexivity].
      right. right. left. exists sq.
      repeat split; auto using own_piece.
  - destruct (Full.takeOut k (timers st)) as [[[|el m] rest]|] eqn:Htake;
      [| |left; reflexivity].
    + unfold thinkTimeout. cbv zeta.
      destruct (_ =? 0); [left; reflexivity|].
      destruct (nth_error _ _) as [m|] eqn:Hnth; [|left; reflexivity].
      destruct (ai_sel_animateAIMove m
                  (renderBoard
                     (setSelection (Some (Chess.from m)) [Chess.to m]
                                   (setTimers rest st))))
        as [Hkeep | Hclear]; [|right; left; exact Hclear].
      right. right. right. exists k, r, m.
      split; [reflexivity|]. split; [|exact Hkeep].
      split; [exists rest; exact Htake | exact Hnth].
    + unfold animTimeout.
      destruct (existsb _ _); [right|]; left; reflexivity.
Qed.

Lemma ai_sel_boot r : selection (boot E r) = (None, []).
Proof.
  unfold boot. cbv zeta.
  destruct (aiColor _); rewrite ?ai_sel_triggerAiMove; reflexivity.
Qed.

Lemma ai_trace r es :
  selection (run (boot E r) es) <> (None, []) ->
  (exists es1 sq es2,
      es = es1 ++ Click sq :: es2
      /\ selects (run (boot E r) es1) sq
      /\ selection (run (boot E r) es)
         = (Some sq,
            map Chess.to
                (Chess.moves E (game (run (boot E r) es1)) (Some sq))))
  \/ (exists es1 k r' m es2,
         es = es1 ++ Timeout k r' :: es2
         /\ picks (run (boot E r) es1) k r' m
         /\ selection (run (boot E r) es)
            = (Some (Chess.from m), [Chess.to m])).
Proof.
  induction es as [|e es IH] using rev_ind; intros Hsel.
  - exfalso. apply Hsel. apply ai_sel_boot.
  - unfold run in *. rewrite fold_left_app in *. cbn [fold_left] in *.
    destruct (ai_step e (fold_left (fun st e => handle e st) es (boot E r)))
      as [Hkeep | [Hclear | [[sq [-> [Hs Heq]]] | [k [r' [m H]]]]]].
    + rewrite Hkeep in Hsel.
      destruct (IH Hsel) as [[es1 [sq [es2 H]]] | [es1 [k [r' [m [es2 H]]]]]];
        destruct H as [-> [Hs Heq]]; [left | right].
      * exists es1, sq, (es2 ++ [e]).
        rewrite <- app_assoc. split; [reflexivity|].
        split; [exact Hs|]. rewrite Hkeep. exact Heq.
      * exists es1, k, r', m, (es2 ++ [e]).
        rewrite <- app_assoc. split; [reflexivity|].
        split; [exact Hs|]. rewrite Hkeep. exact Heq.
    + contradiction.
    + left. exists es, sq, []. auto.
    + destruct H as [-> [Hp Heq]]. right. exists es, k, r', m, []. auto.
Qed.

End AiScript.

End SelectionFacts.

(** ** The random index *)

Module JsFacts.

Local Open Scope Q_scope.

Lemma pow2_pos (e : Z) : 0 < Js.pow2 e.
Proof. unfold Js.pow2. apply Qpower_0_lt. reflexivity. Qed.

Lemma pow2_add (a b : Z) : Js.pow2 (a + b) == Js.pow2 a * Js.pow2 b.
Proof. unfold Js.pow2. apply Qpower_plus. discriminate. Qed.

Lemma pow2_le (a b : Z) : (a <= b)%Z -> Js.pow2 a <= Js.pow2 b.
Proof.
  intros H. unfold Js.pow2. apply Qpower_le_compat_l; [exact H | discriminate].
Qed.

Lemma pow2_Z (n : Z) : (0 <= n)%Z -> inject_Z (2 ^ n) == Js.pow2 n.
Proof. intros H. unfold Js.pow2. apply (Zpower_Qpower 2 n H). Qed.

(** The exponent brackets the number. *)
Lemma ilog2_spec (x : Q) :
  0 < x -> Js.pow2 (Js.ilog2 x) <= x /\ x < Js.pow2 (Js.ilog2 x + 1).
Proof.
  intros Hx. destruct x as [a b].
  assert (Ha : (0 < a)%Z).
  { unfold Qlt in Hx. simpl in Hx. lia. }
  unfold Js.ilog2. cbn [Qnum Qden].
  set (la := Z.log2 a). set (lb := Z.log2 (Z.pos b)).
  destruct (Z.log2_spec a Ha) as [Ha1 Ha2]. fold la in Ha1, Ha2.
  destruct (Z.log2_spec (Z.pos b) (Pos2Z.is_pos b)) as [Hb1 Hb2].
  fold lb in Hb1, Hb2.
  assert (Hla : (0 <= la)%Z) by apply Z.log2_nonneg.
  assert (Hlb : (0 <= lb)%Z) by apply Z.log2_nonneg.
  assert (Hx' : a # b == inject_Z a / inject_Z (Z.pos b)).
  { rewrite (Qmake_Qdiv a b). reflexivity. }
  assert (HA1 : Js.pow2 la <= inject_Z a).
  { rewrite <- pow2_Z by exact Hla. rewrite <- Zle_Qle. exact Ha1. }
  assert (HA2 : inject_Z a < Js.pow2 (la + 1)).
  { rewrite <- pow2_Z by lia. rewrite <- Zlt_Qlt. exact Ha2. }
  assert (HB1 : Js.pow2 lb <= inject_Z (Z.pos b)).
  { rewrite <- pow2_Z by exact Hlb. rewrite <- Zle_Qle. exact Hb1. }
  assert (HB2 : inject_Z (Z.pos b) < Js.pow2 (lb + 1)).
  { rewrite <- pow2_Z by lia. rewrite <- Zlt_Qlt. exact Hb2. }
  assert (HB0 : 0 < inject_Z (Z.pos b)).
  { rewrite <- (Zlt_Qlt 0). apply Pos2Z.is_pos. }
  (* the quotient lies strictly between the neighbouring powers *)
  assert (Hup : a # b < Js.pow2 (la - lb + 1)).
  { rewrite Hx'. apply Qlt_shift_div_r; [exact HB0|].
    replace (la - lb + 1)%Z with ((la + 1) + - lb)%Z by ring.
    rewrite pow2_add.
    pose proof (pow2_pos (la + 1)) as P1. pose proof (pow2_pos (- lb)) as P2.
    pose proof (pow2_add lb (- lb)) as P3.
    replace (lb + - lb)%Z with 0%Z in P3 by ring.
    change (Js.pow2 0) with 1 in P3.
    pose proof (pow2_pos lb) as P4.
    (* a < 2^(la+1) = 2^(la+1) * 2^-lb * 2^lb <= 2^(la+1) * 2^-lb * b *)
    apply Qlt_le_trans with (Js.pow2 (la + 1)); [exact HA2|].
    rewrite <- (Qmult_1_r (Js.pow2 (la + 1))) at 1.
    rewrite <- Qmult_assoc. apply Qmult_le_l; [exact P1|].
    rewrite P3. rewrite (Qmult_comm (Js.pow2 lb)).
    apply Qmult_le_l; [exact P2 | exact HB1]. }
  assert (Hlow : Js.pow2 (la - lb - 1) < a # b).
  { rewrite Hx'. apply Qlt_shift_div_l; [exact HB0|].
    replace (la - lb - 1)%Z with (la + - (lb + 1))%Z by ring.
    rewrite pow2_add.
    pose proof (pow2_pos la) as P1. pose proof (pow2_pos (- (lb + 1))) as P2.
    pose proof (pow2_add (lb + 1) (- (lb + 1))) as P3.
    replace (lb + 1 + - (lb + 1))%Z with 0%Z in P3 by ring.
    change (Js.pow2 0) with 1 in P3.
    apply Qlt_le_trans with (Js.pow2 la); [|exact HA1].
    rewrite <- (Qmult_1_r (Js.pow2 la)) at 2.
    rewrite <- Qmult_assoc. apply Qmult_lt_l; [exact P1|].
    rewrite P3. rewrite (Qmult_comm (Js.pow2 (lb + 1))).
    apply Qmult_lt_l; [exact P2 | exact HB2]. }
  destruct (Qle_bool (Js.pow2 (la - lb)) (a # b)) eqn:Hb.
  - apply Qle_bool_iff in Hb. split; [exact Hb | exact Hup].
  - split.
    + apply Qlt_le_weak. exact Hlow.
    + replace (la - lb - 1 + 1)%Z with (la - lb)%Z by ring.
      apply Qnot_le_lt. intros Hle. apply Qle_bool_iff in Hle. congruence.
Qed.


Lemma ulp_pos (x : Q) : 0 < Js.ulp x.
Proof. apply pow2_pos. Qed.

(** The distance between neighbours is at most [2^-52] of the number,
    except among the subnormal numbers, where it is [2^-1074]. *)
Lemma ulp_le (x : Q) :
  0 < x -> Js.ulp x <= x * Js.pow2 (-52) + Js.pow2 (-1074).
Proof.
  intros Hx. unfold Js.ulp.
  destruct (ilog2_spec Hx) as [Hlo _].
  pose proof (pow2_pos (-52)) as P52. pose proof (pow2_pos (-1074)) as P1074.
  destruct (Z.max_spec (Js.ilog2 x) (-1022)) as [[_ ->] | [_ ->]].
  - change (-1022 - 52)%Z with (-1074)%Z.
    assert (0 <= x * Js.pow2 (-52)).
    { apply Qmult_le_0_compat; apply Qlt_le_weak; assumption. }
    lra.
  - replace (Js.ilog2 x - 52)%Z with (Js.ilog2 x + -52)%Z by ring.
    rewrite pow2_add.
    assert (Js.pow2 (Js.ilog2 x) * Js.pow2 (-52) <= x * Js.pow2 (-52)).
    { apply Qmult_le_r; assumption. }
    lra.
Qed.

(** Rounding moves a positive number by half that distance at most, and
    not below 0. *)
Lemma nearest_bounds (x : Q) :
  0 < x ->
  0 <= Js.nearest x
  /\ x - Js.ulp x * (1 # 2) <= Js.nearest x <= x + Js.ulp x * (1 # 2).
Proof.
  intros Hx. unfold Js.nearest.
  pose proof (ulp_pos x) as Hq.
  set (q := Js.ulp x) in *.
  set (y := x / q).
  assert (Hxy : x == y * q).
  { unfold y. field. intros H0. rewrite H0 in Hq. discriminate. }
  assert (Hy : 0 <= y).
  { unfold y. apply Qle_shift_div_l; [exact Hq|]. lra. }
  set (k := Qfloor y).
  assert (Hk0 : (0 <= k)%Z).
  { unfold k. rewrite <- (Qfloor_Z 0). apply Qfloor_resp_le. exact Hy. }
  assert (Hk1 : inject_Z k <= y) by apply Qfloor_le.
  assert (Hk2 : y < inject_Z k + 1).
  { pose proof (Qlt_floor y) as H. rewrite inject_Z_plus in H. exact H. }
  assert (Hk0' : 0 <= inject_Z k).
  { rewrite <- (Zle_Qle 0). exact Hk0. }
  assert (Hcase :
            forall up : bool,
              (up = true -> 1 # 2 <= y - inject_Z k) ->
              (up = false -> y - inject_Z k <= 1 # 2) ->
              0 <= inject_Z (if up then k + 1 else k) * q
              /\ x - q * (1 # 2) <= inject_Z (if up then k + 1 else k) * q
                 <= x + q * (1 # 2)).
  { clearbody k y q. intros up Hup Hdown. rewrite Hxy.
    destruct up.
    - specialize (Hup eq_refl). rewrite inject_Z_plus.
      change (inject_Z 1) with 1.
      split; [apply Qmult_le_0_compat; lra|].
      split.
      + apply Qle_trans with (y * q); [lra|].
        apply Qmult_le_r; [exact Hq | lra].
      + setoid_replace (y * q + q * (1 # 2)) with ((y + (1 # 2)) * q) by field.
        apply Qmult_le_r; [exact Hq | lra].
    - specialize (Hdown eq_refl).
      split; [apply Qmult_le_0_compat; lra|].
      split.
      + setoid_replace (y * q - q * (1 # 2)) with ((y - (1 # 2)) * q) by field.
        apply Qmult_le_r; [exact Hq | lra].
      + apply Qle_trans with (y * q); [|lra].
        apply Qmult_le_r; [exact Hq | lra]. }
  apply Hcase.
  - intros Hup.
    destruct (y - inject_Z k ?= 1 # 2) eqn:Hc; try discriminate.
    + apply Qeq_alt in Hc. lra.
    + apply Qgt_alt in Hc. lra.
  - intros Hdown.
    destruct (y - inject_Z k ?= 1 # 2) eqn:Hc; try discriminate.
    + apply Qeq_alt in Hc. lra.
    + apply Qlt_alt in Hc. lra.
Qed.

Lemma round64_bounds (x : Q) :
  0 <= x ->
  0 <= Js.round64 x
  /\ Js.round64 x <= x * (1 + Js.pow2 (-53)) + Js.pow2 (-1075)
  /\ x * (1 - Js.pow2 (-53)) - Js.pow2 (-1075) <= Js.round64 x.
Proof.
  intros Hx. unfold Js.round64.
  pose proof (pow2_pos (-53)) as P53. pose proof (pow2_pos (-1075)) as P1075.
  destruct (x ?= 0) eqn:Hc.
  - apply Qeq_alt in Hc. rewrite Hc. lra.
  - apply Qlt_alt in Hc. lra.
  - apply Qgt_alt in Hc.
    destruct (nearest_bounds Hc) as [H0 [H1 H2]].
    pose proof (ulp_le Hc) as Hu.
    assert (E52 : Js.pow2 (-52) == 2 * Js.pow2 (-53)).
    { change (-52)%Z with (1 + -53)%Z. rewrite pow2_add. reflexivity. }
    assert (E1074 : Js.pow2 (-1074) == 2 * Js.pow2 (-1075)).
    { change (-1074)%Z with (1 + -1075)%Z. rewrite pow2_add. reflexivity. }
    rewrite E52, E1074 in Hu.
    split; [exact H0|]. split; lra.
Qed.

Lemma random_bounds (r : Q) :
  0 <= r -> 0 <= Js.random r <= Js.belowOne.
Proof.
  intros Hr. unfold Js.random.
  destruct (round64_bounds Hr) as [H0 _].
  destruct (Qle_bool (Js.round64 r) Js.belowOne) eqn:Hb.
  - apply Qle_bool_iff in Hb. split; assumption.
  - split; [|apply Qle_refl]. unfold Js.belowOne, Js.pow2. 
    apply Qle_bool_iff. reflexivity.
Qed.

(** The index is inside the array. *)
Lemma floorTimes_lt (r : Q) (n : nat) :
  (0 <= r)%Q -> (r < 1)%Q -> (0 < n)%nat -> (Js.floorTimes r n < n)%nat.
Proof.
  intros Hr _ Hn.
  assert (Hpos : 1 <= inject_Z (Z.of_nat n)).
  { rewrite <- (Zle_Qle 1). lia. }
  unfold Js.floorTimes.
  destruct (random_bounds Hr) as [Hd0 Hd1]. unfold Js.belowOne in Hd1.
  set (d := Js.random r) in *. set (N := inject_Z (Z.of_nat n)) in *.
  set (x := d * N).
  assert (Hx : 0 <= x).
  { unfold x. apply Qmult_le_0_compat; lra. }
  destruct (round64_bounds Hx) as [Hy0 [Hy1 _]].
  set (y := Js.round64 x) in *.
  pose proof (pow2_pos (-53)) as P53.
  set (u := Js.pow2 (-53)) in *.
  assert (Ht : Js.pow2 (-1075) < u * u).
  { unfold u, Js.pow2. reflexivity. }
  set (t := Js.pow2 (-1075)) in *.
  assert (Hu1 : u < 1) by (unfold u, Js.pow2; reflexivity).
  assert (HxN : x <= (1 - u) * N).
  { unfold x. apply Qmult_le_r; lra. }
  assert (HyN : y < N).
  { apply Qle_lt_trans with (x * (1 + u) + t); [exact Hy1|].
    apply Qle_lt_trans with ((1 - u) * N * (1 + u) + t).
    - apply Qplus_le_l. apply Qmult_le_r; lra.
    - setoid_replace ((1 - u) * N * (1 + u) + t)
        with (N - (u * u) * N + t) by ring.
      assert (u * u * 1 <= u * u * N).
      { apply Qmult_le_l; [|exact Hpos].
        apply Qmult_lt_0_compat; exact P53. }
      lra. }
  assert (Hfl : (0 <= Qfloor y)%Z).
  { rewrite <- (Qfloor_Z 0). apply Qfloor_resp_le. exact Hy0. }
  assert (Hlt : (Qfloor y < Z.of_nat n)%Z).
  { rewrite Zlt_Qlt. apply Qle_lt_trans with y; [apply Qfloor_le | exact HyN]. }
  lia.
Qed.


(** A binary64 value is its own rounding: the numbers [m * 2^e] with
    [m < 2^53] and [e >= -1074]. *)
Lemma round64_number (m e : Z) :
  (0 <= m < 2 ^ 53)%Z -> (-1074 <= e)%Z ->
  Js.round64 (inject_Z m * Js.pow2 e) == inject_Z m * Js.pow2 e.
Proof.
  intros [Hm0 Hm1] He.
  pose proof (pow2_pos e) as Pe.
  set (x := inject_Z m * Js.pow2 e).
  unfold Js.round64.
  destruct (x ?= 0) eqn:Hc.
  - apply Qeq_alt in Hc. symmetry. exact Hc.
  - apply Qlt_alt in Hc. exfalso.
    assert (0 <= x).
    { unfold x. apply Qmult_le_0_compat; [|lra].
      rewrite <- (Zle_Qle 0). exact Hm0. }
    lra.
  - apply Qgt_alt in Hc.
    destruct (ilog2_spec Hc) as [Hlo _].
    assert (Hxup : x < Js.pow2 (e + 53)).
    { unfold x. rewrite Z.add_comm, pow2_add.
      apply Qmult_lt_r; [exact Pe|].
      rewrite <- pow2_Z by lia. rewrite <- Zlt_Qlt. exact Hm1. }
    assert (Hexp : (Js.ilog2 x < e + 53)%Z).
    { apply (Qpower_lt_compat_l_inv 2); [|reflexivity].
      apply Qle_lt_trans with x; assumption. }
    unfold Js.nearest, Js.ulp. cbv zeta.
    set (E := (Z.max (Js.ilog2 x) (-1022) - 52)%Z).
    assert (HE : (0 <= e - E)%Z) by (unfold E; lia).
    pose proof (pow2_pos E) as PE.
    assert (Hy : x / Js.pow2 E == inject_Z (m * 2 ^ (e - E))).
    { rewrite inject_Z_mult, pow2_Z by exact HE.
      replace (e - E)%Z with (e + - E)%Z by ring.
      rewrite pow2_add. unfold x.
      pose proof (pow2_add E (- E)) as P3.
      replace (E + - E)%Z with 0%Z in P3 by ring.
      change (Js.pow2 0) with 1 in P3.
      apply Qmult_inj_r with (Js.pow2 E); [lra|].
      unfold Qdiv. rewrite <- !Qmult_assoc.
      rewrite (Qmult_comm (/ Js.pow2 E)), Qmult_inv_r by lra.
      rewrite (Qmult_comm (Js.pow2 (- E))), <- P3. ring. }
    assert (Hk : Qfloor (x / Js.pow2 E) = (m * 2 ^ (e - E))%Z).
    { rewrite Hy. apply Qfloor_Z. }
    assert (Hcmp : (x / Js.pow2 E - inject_Z (Qfloor (x / Js.pow2 E))
                    ?= 1 # 2) = Lt).
    { rewrite <- Qlt_alt, Hk, Hy. lra. }
    rewrite Hcmp, Hk, <- Hy. field. lra.
Qed.

(** A binary64 value below 1 is what [Js.random] makes of it. *)
Lemma random_number (m e : Z) :
  (0 <= m < 2 ^ 53)%Z -> (-1074 <= e)%Z ->
  inject_Z m * Js.pow2 e < 1 ->
  Js.random (inject_Z m * Js.pow2 e) == inject_Z m * Js.pow2 e.
Proof.
  intros Hm He Hlt.
  pose proof (round64_number Hm He) as Hfix.
  pose proof (pow2_pos e) as Pe.
  assert (Hle : inject_Z m * Js.pow2 e <= Js.belowOne).
  { unfold Js.belowOne.
    destruct (Z_le_gt_dec (-53) e) as [Hbig | Hsmall].
    - (* the value is a multiple of 2^-53 *)
      assert (Hz : inject_Z m * Js.pow2 e
                   == inject_Z (m * 2 ^ (e + 53)) * Js.pow2 (-53)).
      { rewrite inject_Z_mult, pow2_Z by lia.
        rewrite <- Qmult_assoc, <- pow2_add.
        replace (e + 53 + -53)%Z with e by ring. reflexivity. }
      rewrite Hz in Hlt |- *.
      assert (Hint : (m * 2 ^ (e + 53) < 2 ^ 53)%Z).
      { rewrite Zlt_Qlt.
        apply Qmult_lt_r with (Js.pow2 (-53)); [apply pow2_pos|].
        apply Qlt_le_trans with 1; [exact Hlt|].
        unfold Js.pow2. apply Qle_bool_iff. reflexivity. }
      assert (Hint' : inject_Z (m * 2 ^ (e + 53)) <= inject_Z (2 ^ 53 - 1)).
      { rewrite <- Zle_Qle. lia. }
      apply Qle_trans with (inject_Z (2 ^ 53 - 1) * Js.pow2 (-53)).
      + apply Qmult_le_r; [apply pow2_pos | exact Hint'].
      + unfold Js.pow2. apply Qle_bool_iff. reflexivity.
    - apply Qle_trans with (1 # 2);
        [|unfold Js.pow2; apply Qle_bool_iff; reflexivity].
      apply Qle_trans with (inject_Z (2 ^ 53) * Js.pow2 e).
      + apply Qmult_le_r; [exact Pe|]. rewrite <- Zle_Qle. lia.
      + rewrite pow2_Z by lia. rewrite <- pow2_add.
        change (1 # 2) with (Js.pow2 (-1)). apply pow2_le. lia. }
  unfold Js.random.
  destruct (Qle_bool (Js.round64 (inject_Z m * Js.pow2 e)) Js.belowOne)
    eqn:Hb; [exact Hfix|].
  exfalso.
  assert (Hb' : Qle_bool (Js.round64 (inject_Z m * Js.pow2 e)) Js.belowOne
                = true).
  { apply Qle_bool_iff. rewrite Hfix. exact Hle. }
  congruence.
Qed.

(** Every element of an array (of fewer than [2^32] elements, as arrays
    are) is picked by some random number: the middle of the stretch
    [Math.floor] maps to its index. *)
Lemma floorTimes_onto (n i : nat) :
  (i < n)%nat -> (Z.of_nat n <= 2 ^ 32)%Z ->
  let r := (inject_Z (2 * Z.of_nat i + 1) / inject_Z (2 * Z.of_nat n)) in
  0 <= r /\ r < 1 /\ Js.floorTimes r n = i.
Proof.
  intros Hi Hn r.
  set (N := inject_Z (Z.of_nat n)).
  set (c := inject_Z (Z.of_nat i)).
  assert (HN1 : 1 <= N) by (unfold N; rewrite <- (Zle_Qle 1); lia).
  assert (HN2 : N <= inject_Z (2 ^ 32))
    by (unfold N; rewrite <- Zle_Qle; exact Hn).
  assert (Hc0 : 0 <= c) by (unfold c; rewrite <- (Zle_Qle 0); lia).
  assert (Hc1 : c + 1 <= N).
  { unfold c, N. rewrite <- (inject_Z_plus _ 1), <- Zle_Qle. lia. }
  assert (Hr : r == (c + (1 # 2)) / N).
  { assert (H1 : inject_Z (2 * Z.of_nat i + 1) == 2 * c + 1).
    { unfold c. rewrite inject_Z_plus, inject_Z_mult. reflexivity. }
    assert (H2 : inject_Z (2 * Z.of_nat n) == 2 * N).
    { unfold N. rewrite inject_Z_mult. reflexivity. }
    unfold r. rewrite H1, H2. field. lra. }
  assert (HrN : r * N == c + (1 # 2)).
  { rewrite Hr. field. lra. }
  assert (Hr0 : 0 <= r).
  { rewrite Hr. apply Qle_shift_div_l; lra. }
  assert (Hr1 : r < 1).
  { rewrite Hr. apply Qlt_shift_div_r; lra. }
  split; [exact Hr0|]. split; [exact Hr1|].
  pose proof (pow2_pos (-53)) as Pu. pose proof (pow2_pos (-1075)) as Pt.
  assert (Hu : Js.pow2 (-53) == 1 # 9007199254740992) by reflexivity.
  assert (Ht : Js.pow2 (-1075) <= 1 # 81129638414606681695789005144064).
  { unfold Js.pow2. apply Qle_bool_iff. reflexivity. }
  (* the random number as a number *)
  destruct (round64_bounds Hr0) as [_ [Hd1 Hd2]].
  destruct (random_bounds Hr0) as [Hd0 _].
  assert (Hd : r * (1 - Js.pow2 (-53)) - Js.pow2 (-1075) <= Js.random r
               /\ Js.random r <= r * (1 + Js.pow2 (-53)) + Js.pow2 (-1075)).
  { unfold Js.random.
    destruct (Qle_bool (Js.round64 r) Js.belowOne) eqn:Hb.
    - split; assumption.
    - unfold Js.belowOne. split.
      + assert (r * (1 - Js.pow2 (-53)) <= 1 * (1 - Js.pow2 (-53))).
        { apply Qmult_le_r; lra. }
        lra.
      + assert (Hnle : ~ Js.round64 r <= Js.belowOne).
        { intros H. apply Qle_bool_iff in H. congruence. }
        apply Qnot_le_lt in Hnle. unfold Js.belowOne in Hnle. lra. }
  unfold Js.floorTimes.
  set (d := Js.random r) in *.
  set (u := Js.pow2 (-53)) in *. set (t := Js.pow2 (-1075)) in *.
  (* the product *)
  assert (Hx1 : (c + (1 # 2)) * (1 - u) - t * N <= d * N).
  { setoid_replace ((c + (1 # 2)) * (1 - u) - t * N)
      with ((r * (1 - u) - t) * N) by (rewrite <- HrN; ring).
    apply Qmult_le_r; lra. }
  assert (Hx2 : d * N <= (c + (1 # 2)) * (1 + u) + t * N).
  { setoid_replace ((c + (1 # 2)) * (1 + u) + t * N)
      with ((r * (1 + u) + t) * N) by (rewrite <- HrN; ring).
    apply Qmult_le_r; lra. }
  assert (Hx0 : 0 <= d * N) by (apply Qmult_le_0_compat; lra).
  destruct (round64_bounds Hx0) as [_ [Hy1 Hy2]].
  fold u t in Hy1, Hy2.
  set (x := d * N) in *. set (y := Js.round64 x) in *.
  assert (HtN : t * N <= t * inject_Z (2 ^ 32)).
  { apply Qmult_le_l; assumption. }
  assert (Hcu : c * u <= inject_Z (2 ^ 32) * u).
  { apply Qmult_le_r; [exact Pu | lra]. }
  assert (Hxu1 : x * u <= ((c + (1 # 2)) * (1 + u) + t * N) * u).
  { apply Qmult_le_r; assumption. }
  assert (Hcuu : c * u * u <= inject_Z (2 ^ 32) * u * u).
  { apply Qmult_le_r; assumption. }
  assert (HtNu : t * N * u <= t * inject_Z (2 ^ 32) * u).
  { apply Qmult_le_r; assumption. }
  assert (Hlo : c <= y).
  { setoid_replace (x * (1 - u)) with (x - x * u) in Hy2 by ring.
    setoid_replace (((c + (1 # 2)) * (1 + u) + t * N) * u)
      with (c * u + c * u * u + (1 # 2) * u + (1 # 2) * u * u + t * N * u)
      in Hxu1 by ring.
    setoid_replace ((c + (1 # 2)) * (1 - u))
      with (c - c * u + (1 # 2) - (1 # 2) * u)
      in Hx1 by ring.
    rewrite Hu in *. change (inject_Z (2 ^ 32)) with (4294967296 # 1) in *.
    set (tN := t * N) in *. clearbody tN y x t. lra. }
  assert (Hhi : y < c + 1).
  { setoid_replace (x * (1 + u)) with (x + x * u) in Hy1 by ring.
    setoid_replace (((c + (1 # 2)) * (1 + u) + t * N) * u)
      with (c * u + c * u * u + (1 # 2) * u + (1 # 2) * u * u + t * N * u)
      in Hxu1 by ring.
    setoid_replace ((c + (1 # 2)) * (1 + u))
      with (c + c * u + (1 # 2) + (1 # 2) * u)
      in Hx2 by ring.
    rewrite Hu in *. change (inject_Z (2 ^ 32)) with (4294967296 # 1) in *.
    set (tN := t * N) in *. clearbody tN y x t. lra. }
  assert (Hfl : Qfloor y = Z.of_nat i).
  { assert (H1 : (Z.of_nat i <= Qfloor y)%Z).
    { rewrite <- (Qfloor_Z (Z.of_nat i)). apply Qfloor_resp_le. exact Hlo. }
    assert (H2 : (Qfloor y < Z.of_nat i + 1)%Z).
    { rewrite Zlt_Qlt, inject_Z_plus.
      apply Qle_lt_trans with y; [apply Qfloor_le | exact Hhi]. }
    lia. }
  change (Z.to_nat (Qfloor y) = i). rewrite Hfl. apply Nat2Z.id.
Qed.

(** Rounding at work.  Half way between two numbers the one with the even
    significand is taken: [1 + 2^-53] becomes 1 and [1 + 3 * 2^-53]
    becomes [1 + 2^-51].  The smallest number above 0 is [2^-1074]; half
    of it becomes 0 and three quarters of it becomes [2^-1074].  With 20
    elements the random numbers 0.44999999999999996, 0.7 (a number a
    little below 7/10), 0 and [1 - 2^-53] give the indices 9, 14, 0 and
    19, where exact products would give 8, 13, 0 and 19. *)
Example rounding :
  Js.round64 (1 + (1 # 9007199254740992)) == 1
  /\ Js.round64 (1 + (3 # 9007199254740992)) == 1 + (1 # 2251799813685248)
  /\ Js.round64 (Js.pow2 (-1074) * (1 # 2)) == 0
  /\ Js.round64 (Js.pow2 (-1074) * (3 # 4)) == Js.pow2 (-1074)
  /\ map (fun r => Js.floorTimes r 20)
         [8106479329266892 # 18014398509481984;
          3152519739159347 # 4503599627370496; 0; Js.belowOne]
     = [9; 14; 0; 19]%nat
  /\ map (fun r => Qfloor (r * 20))
         [8106479329266892 # 18014398509481984;
          3152519739159347 # 4503599627370496; 0; Js.belowOne]
     = [8; 13; 0; 19]%Z.
Proof. repeat split; vm_compute; reflexivity. Qed.

End JsFacts.

(** ** The AI's turn in [src/app_ai.js] *)

Module FullTurn.
Section WithEngine.
Import Full.

Variable E : Chess.Engine.
Hypothesis L : Chess.Laws E.

Implicit Types st : State E.

Lemma takeOut_last {A : Type} (l : list A) (x : A) :
  takeOut (List.length l) (l ++ [x]) = Some (x, l).
Proof.
  induction l as [|y l IH]; [reflexivity|].
  cbn [List.length app takeOut]. rewrite IH. reflexivity.
Qed.

Lemma takeOut_none {A : Type} (l : list A) :
  takeOut (List.length l) l = None.
Proof.
  induction l as [|y l IH]; [reflexivity|].
  cbn [List.length takeOut]. rewrite IH. reflexivity.
Qed.

Lemma setTimers_same st : setTimers (timers st) st = st.
Proof. destruct st; reflexivity. Qed.

(** What the callback of [animateAIMove] leaves. *)
Lemma aiMoveDone_facts m st :
  game (aiMoveDone m st) = fst (Chess.move E (game st) (Chess.objOf m))
  /\ selectedSquare (aiMoveDone m st) = None
  /\ possibleMoves (aiMoveDone m st) = []
  /\ redoStack (aiMoveDone m st) = []
  /\ aiThinking (aiMoveDone m st) = false
  /\ timers (aiMoveDone m st) = timers st.
Proof.
  unfold aiMoveDone.
  rewrite (FullFacts.updateThreatOverlay_same L),
          (FullFacts.renderBoard_draw L).
  repeat split.
Qed.

Lemma triggerAiMove_idle st :
  Chess.turn E (game st) <> aiColor st
  \/ Chess.game_over E (game st) = true ->
  triggerAiMove st = st.
Proof.
  intros H. unfold triggerAiMove.
  destruct H as [H | H].
  - destruct (Chess.color_eqb _ _) eqn:Heq; [|reflexivity].
    apply FullFacts.color_eqb_eq in Heq. contradiction.
  - rewrite H, orb_true_r. reflexivity.
Qed.

Lemma triggerAiMove_starts st :
  Chess.turn E (game st) = aiColor st ->
  Chess.game_over E (game st) = false ->
  triggerAiMove st
  = setTimers (timers st ++ [Think]) (setAiThinking true st).
Proof.
  intros Hturn Hover. unfold triggerAiMove. rewrite Hover, Hturn.
  assert (Hrefl : Chess.color_eqb (aiColor st) (aiColor st) = true)
    by (apply FullFacts.color_eqb_eq; reflexivity).
  rewrite Hrefl. reflexivity.
Qed.

(** The thinking timer queued last fires. *)
Lemma think_fires st r :
  handle (Timeout (List.length (timers st)) r)
         (setTimers (timers st ++ [Think]) (setAiThinking true st))
  = thinkTimeout r (setAiThinking true st).
Proof.
  cbn [handle timers setTimers]. rewrite takeOut_last. reflexivity.
Qed.

(** Once a move is picked, the animation and its timer, fired next, end
    in the callback, on a state with the same game and timers. *)
Lemma animation_completes m st r' :
  exists st0,
    game st0 = game st /\ timers st0 = timers st
    /\ handle (Timeout (List.length (timers st)) r') (animateAIMove m st)
       = aiMoveDone m st0.
Proof.
  assert (Hnow : forall s : State E,
             handle (Timeout (List.length (timers s)) r') (aiMoveDone m s)
             = aiMoveDone m s).
  { intros s. cbn [handle].
    destruct (aiMoveDone_facts m s) as [_ [_ [_ [_ [_ Ht]]]]].
    rewrite Ht, takeOut_none. reflexivity. }
  unfold animateAIMove.
  destruct (Chess.get E (game st) (Chess.from m));
    [|exists st; rewrite Hnow; auto].
  destruct (findSquare (dom st) (Chess.from m));
    [|exists st; rewrite Hnow; auto].
  destruct (findSquare (dom st) (Chess.to m));
    [|exists st; rewrite Hnow; auto].
  cbn [handle timers setTimers setDom]. rewrite takeOut_last.
  unfold animTimeout. cbn [dom animEls setTimers setDom].
  assert (Hin : existsb (Nat.eqb (fresh (dom st)))
                        (animEls (dom st) ++ [fresh (dom st)]) = true).
  { rewrite existsb_app. cbn [existsb]. rewrite Nat.eqb_refl.
    rewrite orb_true_r. reflexivity. }
  rewrite Hin.
  eexists. split; [|split; [|reflexivity]]; reflexivity.
Qed.

(** With the busy flag set and no timer pending, nothing but a reset
    changes the flag, the timers or the game. *)
Lemma stuck_step e st :
  aiThinking st = true -> timers st = [] ->
  (forall r, e <> ResetBtn r) ->
  aiThinking (handle e st) = true
  /\ timers (handle e st) = []
  /\ game (handle e st) = game st.
Proof.
  intros Hbusy Htimers Hreset.
  destruct e as [sq c | r | | | | | k r]; cbn [handle].
  - unfold onSquareClick, gated. rewrite Hbusy. auto.
  - exfalso. apply (Hreset r). reflexivity.
  - unfold flipBoard. rewrite (FullFacts.renderBoard_draw L). auto.
  - unfold undoLastMove. rewrite Hbusy. auto.
  - unfold redoMove. rewrite Hbusy. auto.
  - unfold toggleThreats. rewrite (FullFacts.updateThreatOverlay_same L).
    auto.
  - rewrite Htimers. destruct k; cbn [takeOut]; auto.
Qed.

Lemma stuck_run es : forall st,
  aiThinking st = true -> timers st = [] ->
  (forall r, ~ In (ResetBtn r) es) ->
  aiThinking (run st es) = true /\ game (run st es) = game st.
Proof.
  induction es as [|e es IH]; intros st Hbusy Htimers Hreset; [auto|].
  change (run st (e :: es)) with (run (handle e st) es).
  destruct (@stuck_step e st Hbusy Htimers) as [Hb [Ht Hg]].
  { intros r ->. apply (Hreset r). left. reflexivity. }
  destruct (@IH (handle e st) Hb Ht) as [Hb' Hg'].
  { intros r Hin. apply (Hreset r). right. exact Hin. }
  split; [exact Hb' | congruence].
Qed.

End WithEngine.
End FullTurn.

(** ** Invariants of [src/app_ai.js] *)

Module FullInvariants.

Section Rendering.
Import Full.
Variable E : Chess.Engine.
Implicit Types st : State E.

(** Among the squares just drawn, the one named after a cell is the one
    drawn for that cell. *)
Lemma find_drawn (img : nat -> nat -> bool) (flipped : bool) (row col : nat) :
  In (row, col) Board.cells ->
  find (fun el : string * bool => String.eqb (fst el) (Board.squareName row col))
       (map (fun '(r, c) => (Board.squareName r c, img r c))
            (Board.displayCells flipped))
  = Some (Board.squareName row col, img row col).
Proof.
  intros Hin.
  destruct flipped; vm_compute in Hin;
  repeat (destruct Hin as [Hin | Hin]; [injection Hin as <- <-; vm_compute; reflexivity|]);
  contradiction.
Qed.

Lemma verifyBoard_after_draw st : boardMismatch (drawBoard st) = false.
Proof.
  unfold boardMismatch.
  assert (Hcount : childCount (dom (drawBoard st)) = 64).
  { unfold childCount, drawBoard. cbn [dom setDom squareEls animEls overlay].
    rewrite length_map.
    replace (List.length (Board.displayCells (flipped st))) with 64
      by (destruct (flipped st); reflexivity).
    destruct (overlay (dom st)); reflexivity. }
  rewrite Hcount. cbn [Nat.eqb negb orb].
  destruct (existsb _ Board.cells) eqn:Hex; [|reflexivity].
  apply existsb_exists in Hex. destruct Hex as [[row col] [Hin Hbad]].
  unfold findSquare, drawBoard in Hbad.
  cbn [dom setDom squareEls game] in Hbad.
  rewrite (@find_drawn
             (fun r c => match Chess.board E (game st) r c with
                         | Some _ => true
                         | None => false
                         end) (flipped st) row col Hin) in Hbad.
  cbn [snd] in Hbad.
  destruct (Chess.board E (game st) row col); discriminate Hbad.
Qed.

End Rendering.

Section WithEngine.
Import Full.
Variable E : Chess.Engine.
Hypothesis L : Chess.Laws E.
Implicit Types st : State E.

Ltac normal :=
  rewrite ?(FullFacts.updateThreatOverlay_same L),
          ?(FullFacts.renderBoard_draw L).

(** One event keeps both the selection and the game, or clears the
    selection, or is a selecting click, which keeps the game. *)
Lemma step_cases e st :
  (selection (handle e st) = selection st
   /\ game (handle e st) = game st)
  \/ selection (handle e st) = (None, [])
  \/ exists sq c,
      e = Click sq c
      /\ selection (handle e st)
         = (Some sq, map Chess.to (Chess.moves E (game st) (Some sq)))
      /\ game (handle e st) = game st.
Proof.
  destruct (SelectionFacts.full_step e st)
    as [Hkeep | [Hclear | [sq [c [-> [_ Heq]]]]]];
    [| right; left; exact Hclear |].
  - destruct e as [sq c | r | | | | | k r]; cbn [handle] in *.
    + unfold onSquareClick in *.
      destruct (gated st); [left; auto|].
      destruct (moveFrom st sq) as [sel|].
      * right. left. rewrite Hkeep.
        rewrite SelectionFacts.sel_triggerAiMove in Hkeep.
        revert Hkeep. normal. intros <-. reflexivity.
      * destruct (match Chess.get E (game st) sq with
                  | Some p => _
                  | None => false
                  end); revert Hkeep; normal; intros Hkeep; left; auto.
    + right. left. rewrite Hkeep. revert Hkeep.
      unfold resetGame. cbv zeta. rewrite SelectionFacts.sel_setRedoStack.
      destruct (aiColor _);
        rewrite ?SelectionFacts.sel_triggerAiMove; normal;
        intros <-; reflexivity.
    + left. split; [exact Hkeep|]. unfold flipBoard. normal. reflexivity.
    + unfold undoLastMove in *. destruct (aiThinking st); [left; auto|].
      destruct (Chess.undo E (game st)) as [g [m|]] eqn:Hu.
      * right. left. rewrite Hkeep. revert Hkeep. normal.
        intros <-. reflexivity.
      * left. split; [exact Hkeep|].
        destruct (Chess.undo_none L _ Hu) as [-> _]. reflexivity.
    + unfold redoMove in *. destruct (aiThinking st); [left; auto|].
      destruct (pop (redoStack st)) as [[m rest]|]; [|left; auto].
      right. left. rewrite Hkeep. revert Hkeep. normal.
      intros <-. reflexivity.
    + left. split; [exact Hkeep|]. unfold toggleThreats. normal.
      reflexivity.
    + destruct (takeOut k (timers st)) as [[[|el m] rest]|];
        [| |left; auto].
      * unfold thinkTimeout in *. cbv zeta in *.
        destruct (_ =? 0); [left; auto|].
        right. left.
        destruct (nth_error _ _) as [m|]; [|reflexivity].
        apply SelectionFacts.sel_animateAIMove. reflexivity.
      * unfold animTimeout in *.
        destruct (existsb _ _); [|left; auto].
        right. left. apply SelectionFacts.sel_aiMoveDone.
  - right. right. exists sq, c. split; [reflexivity|].
    split; [exact Heq|].
    cbn [handle] in *. unfold onSquareClick in *.
    destruct (gated st); [reflexivity|].
    destruct (moveFrom st sq) as [sel|].
    + exfalso. revert Heq.
      rewrite SelectionFacts.sel_triggerAiMove. normal. discriminate.
    + destruct (match Chess.get E (game st) sq with
                | Some p => _
                | None => false
                end); normal; reflexivity.
Qed.

Lemma selectionCurrent_handle e st :
  selectionCurrent st -> selectionCurrent (handle e st).
Proof.
  intros Hcur.
  assert (Hsel : forall (s : State E) a l,
             selection s = (a, l) ->
             selectedSquare s = a /\ possibleMoves s = l).
  { intros s a l H. unfold selection in H. injection H as <- <-. auto. }
  unfold selectionCurrent in *.
  destruct (step_cases e st)
    as [[Hkeep Hgame] | [Hclear | [sq [c [_ [Heq Hgame]]]]]].
  - destruct (Hsel _ _ _ Hkeep) as [-> ->]. rewrite Hgame. exact Hcur.
  - destruct (Hsel _ _ _ Hclear) as [-> ->]. reflexivity.
  - destruct (Hsel _ _ _ Heq) as [-> ->]. rewrite Hgame. reflexivity.
Qed.

Lemma selectionCurrent_reachable st : Reachable st -> selectionCurrent st.
Proof.
  intros [r [page [es ->]]].
  induction es as [|e es IH] using rev_ind.
  - cbn [run fold_left]. unfold selectionCurrent.
    pose proof (SelectionFacts.sel_boot E r page) as H.
    unfold selection in H. injection H as -> ->. reflexivity.
  - unfold run in *. rewrite fold_left_app. cbn [fold_left].
    apply selectionCurrent_handle. exact IH.
Qed.

(** The two sides stay the opposite of each other. *)
Lemma sides_triggerAiMove st :
  playerColor (triggerAiMove st) = playerColor st
  /\ aiColor (triggerAiMove st) = aiColor st.
Proof. unfold triggerAiMove. destruct (_ || _); auto. Qed.

Lemma sides_aiMoveDone m st :
  playerColor (aiMoveDone m st) = playerColor st
  /\ aiColor (aiMoveDone m st) = aiColor st.
Proof. unfold aiMoveDone. normal. auto. Qed.

Lemma sides_handle e st :
  aiColor st = Chess.other (playerColor st) ->
  aiColor (handle e st) = Chess.other (playerColor (handle e st)).
Proof.
  intros H. destruct e as [sq c | r | | | | | k r]; cbn [handle].
  - unfold onSquareClick. destruct (gated st); [exact H|].
    destruct (moveFrom st sq) as [sel|].
    + normal.
      match goal with
      | |- aiColor (triggerAiMove ?s) = _ =>
        destruct (sides_triggerAiMove s) as [-> ->]
      end. exact H.
    + destruct (match Chess.get E (game st) sq with
                | Some p => _
                | None => false
                end); normal; exact H.
  - unfold resetGame. cbv zeta. normal.
    match goal with
    | |- context [match aiColor ?s with _ => _ end] =>
      destruct (aiColor s);
        [destruct (sides_triggerAiMove s) as [Hp Ha]|]
    end; full_state; rewrite ?Hp, ?Ha; reflexivity.
  - unfold flipBoard. normal. exact H.
  - unfold undoLastMove. destruct (aiThinking st); [exact H|].
    destruct (Chess.undo E (game st)) as [g [m|]]; normal; exact H.
  - unfold redoMove. destruct (aiThinking st); [exact H|].
    destruct (pop (redoStack st)) as [[m rest]|]; normal; exact H.
  - unfold toggleThreats. normal. exact H.
  - destruct (takeOut k (timers st)) as [[[|el m] rest]|]; [| |exact H].
    + unfold thinkTimeout. cbv zeta.
      destruct (_ =? 0); [exact H|].
      destruct (nth_error _ _) as [m|]; [|exact H].
      unfold animateAIMove.
      destruct (Chess.get E _ (Chess.from m));
        [|rewrite (proj1 (sides_aiMoveDone m _)),
                  (proj2 (sides_aiMoveDone m _)); exact H].
      destruct (findSquare _ (Chess.from m));
        [|rewrite (proj1 (sides_aiMoveDone m _)),
                  (proj2 (sides_aiMoveDone m _)); exact H].
      destruct (findSquare _ (Chess.to m));
        [exact H
        |rewrite (proj1 (sides_aiMoveDone m _)),
                 (proj2 (sides_aiMoveDone m _)); exact H].
    + unfold animTimeout.
      destruct (existsb _ _); [|exact H].
      rewrite (proj1 (sides_aiMoveDone m _)),
              (proj2 (sides_aiMoveDone m _)). exact H.
Qed.

Lemma sides_boot r page :
  aiColor (boot E r page) = Chess.other (playerColor (boot E r page)).
Proof.
  unfold boot. cbv zeta. normal.
  match goal with
  | |- context [match aiColor ?s with _ => _ end] =>
    destruct (aiColor s);
      [destruct (sides_triggerAiMove s) as [-> ->]|]
  end; unfold initThreatOverlay; destruct page; reflexivity.
Qed.

(** In checkmate a click of the human in a reachable state leaves the
    game as it is, and the state stays reachable and in checkmate. *)
Lemma checkmate_click st sq c :
  Reachable st ->
  Chess.in_checkmate E (game st) = true ->
  game (onSquareClick sq c st) = game st.
Proof.
  intros Hreach Hmate.
  pose proof (selectionCurrent_reachable Hreach) as Hcur.
  assert (Hfrom : moveFrom st sq = None).
  { unfold moveFrom, selectionCurrent in *.
    destruct (selectedSquare st) as [sel|]; [|reflexivity].
    rewrite Hcur, (Chess.checkmate_no_moves L _ _ Hmate).
    rewrite andb_false_r. reflexivity. }
  unfold onSquareClick. destruct (gated st); [reflexivity|].
  rewrite Hfrom.
  destruct (match Chess.get E (game st) sq with
            | Some p => _
            | None => false
            end); normal; reflexivity.
Qed.

Lemma sides_reachable st :
  Reachable st -> aiColor st = Chess.other (playerColor st).
Proof.
  intros [r [page [es ->]]].
  induction es as [|e es IH] using rev_ind.
  - apply sides_boot.
  - unfold run in *. rewrite fold_left_app. cbn [fold_left].
    apply sides_handle. exact IH.
Qed.

Lemma checkmate_clicks es : forall st,
  Reachable st ->
  Chess.in_checkmate E (game st) = true ->
  Forall (fun e => exists sq c, e = Click sq c) es ->
  game (run st es) = game st.
Proof.
  induction es as [|e es IH]; intros st Hreach Hmate Hall; [reflexivity|].
  inversion Hall as [|e' es' [sq [c ->]] Hrest]; subst.
  change (run st (Click sq c :: es))
    with (run (handle (Click sq c) st) es).
  assert (Hgame : game (handle (Click sq c) st) = game st)
    by (apply checkmate_click; assumption).
  rewrite IH; [exact Hgame | | | exact Hrest].
  - apply (FullFacts.reachable_run (st := st) [Click sq c]). exact Hreach.
  - rewrite Hgame. exact Hmate.
Qed.

Lemma game_resetGame r st : game (resetGame r st) = Chess.reset E (game st).
Proof.
  unfold resetGame. cbv zeta. normal.
  match goal with
  | |- context [match aiColor ?s with _ => _ end] =>
    destruct (aiColor s)
  end; full_state; [|reflexivity].
  unfold triggerAiMove. destruct (_ || _); reflexivity.
Qed.

End WithEngine.
End FullInvariants.

(** ** The AI's turn in [src/unnamed/part_000] *)

Module AiTurn.
Section NoAssumption.
Import Ai.
Variable E : Chess.Engine.
Implicit Types st : State E.

Lemma idle_aiMoveDone m st :
  timers st = [] ->
  aiThinking (aiMoveDone m st) = false /\ timers (aiMoveDone m st) = [].
Proof. intros H. unfold aiMoveDone. cbn. auto. Qed.

Lemma inStep_triggerAiMove st :
  aiThinking st = false -> timers st = [] -> inStep (triggerAiMove st).
Proof.
  intros Hbusy Htimers. unfold triggerAiMove, inStep.
  destruct (_ || _); [left; auto|].
  right. left. cbn. rewrite Htimers. auto.
Qed.

Lemma inStep_handle e st : inRange e -> inStep st -> inStep (handle e st).
Proof.
  intros Hr Hinv. destruct e as [sq | k r]; cbn [handle].
  - unfold onSquareClick, gated.
    destruct Hinv as [[Hb Ht] | [[Hb Ht] | [Hb Hex]]];
      rewrite Hb; cbn [orb];
      [|right; left; auto | right; right; auto].
    destruct (negb _); [left; auto|].
    destruct (moveFrom st sq) as [sel|].
    + apply inStep_triggerAiMove; [exact Hb | exact Ht].
    + destruct (match Chess.get E (game st) sq with
                | Some p => _
                | None => false
                end); left; cbn; auto.
  - destruct Hr as [Hr0 Hr1].
    destruct Hinv as [[Hb Ht] | [[Hb Ht] | [Hb [el [m [Ht Hel]]]]]];
      rewrite Ht.
    + destruct k; cbn [Full.takeOut]; left; auto.
    + destruct k as [|k]; cbn [Full.takeOut];
        [|destruct k; right; left; auto].
      unfold thinkTimeout. cbv zeta. cbn [game setTimers].
      destruct (List.length (Chess.moves E (game st) None)) as [|n] eqn:Hn;
        [left; cbn; auto|].
      cbn [Nat.eqb].
      assert (Hidx : Js.floorTimes r (S n) < S n)
        by (apply JsFacts.floorTimes_lt; [assumption | assumption | lia]).
      destruct (nth_error _ _) as [m|] eqn:Hnth;
        [|apply nth_error_None in Hnth; lia].
      unfold animateAIMove.
      destruct (Chess.get E _ (Chess.from m));
        [|left; apply idle_aiMoveDone; reflexivity].
      destruct (_ && _); [|left; apply idle_aiMoveDone; reflexivity].
      right. right. cbn. split; [exact Hb|]. eauto.
    + destruct k as [|k]; cbn [Full.takeOut];
        [|destruct k; right; right; eauto].
      unfold animTimeout. cbn [dom setTimers]. rewrite Hel.
      cbn [existsb]. rewrite Nat.eqb_refl. cbn [orb].
      left. apply idle_aiMoveDone. reflexivity.
Qed.

Lemma inStep_boot r : inStep (boot E r).
Proof.
  unfold boot. cbv zeta.
  destruct (aiColor _); [|left; cbn; auto].
  apply inStep_triggerAiMove; reflexivity.
Qed.

Lemma inStep_run es : forall st,
  Forall inRange es -> inStep st -> inStep (run st es).
Proof.
  induction es as [|e es IH]; intros st Hall Hinv; [exact Hinv|].
  inversion Hall; subst.
  change (run st (e :: es)) with (run (handle e st) es).
  apply IH; [assumption|]. apply inStep_handle; assumption.
Qed.

(** From a state in step, the pending timers end the AI's turn. *)
Lemma inStep_finishes st r :
  (0 <= r)%Q -> (r < 1)%Q -> inStep st ->
  aiThinking (run st [Timeout 0 r; Timeout 0 r]) = false.
Proof.
  intros Hr0 Hr1 Hinv.
  assert (Hok : inRange (Timeout 0 r)) by (split; assumption).
  pose proof (inStep_handle (Timeout 0 r) Hok Hinv) as H1.
  assert (Hdone : forall s : State E,
             inStep s ->
             timers s <> [Think] ->
             aiThinking (handle (Timeout 0 r) s) = false).
  { intros s [[Hb Ht] | [[Hb Ht] | [Hb [el [m [Ht Hel]]]]]] Hno.
    - cbn [handle]. rewrite Ht. exact Hb.
    - contradiction.
    - cbn [handle]. rewrite Ht. cbn [Full.takeOut].
      unfold animTimeout. cbn [dom setTimers]. rewrite Hel.
      cbn [existsb]. rewrite Nat.eqb_refl. reflexivity. }
  change (run st [Timeout 0 r; Timeout 0 r])
    with (handle (Timeout 0 r) (handle (Timeout 0 r) st)).
  apply Hdone; [exact H1|].
  (* after one timer the thinking timer is no longer the one pending *)
  destruct Hinv as [[Hb Ht] | [[Hb Ht] | [Hb [el [m [Ht Hel]]]]]];
    cbn [handle]; rewrite Ht; cbn [Full.takeOut].
  - rewrite Ht. discriminate.
  - unfold thinkTimeout. cbv zeta. cbn [game setTimers].
    destruct (_ =? 0); [cbn; discriminate|].
    destruct (nth_error _ _) as [m|]; [|cbn; discriminate].
    unfold animateAIMove.
    destruct (Chess.get E _ (Chess.from m)); [|cbn; discriminate].
    destruct (_ && _); cbn; discriminate.
  - unfold animTimeout. destruct (existsb _ _); cbn; discriminate.
Qed.

Lemma ai_triggerAiMove_idle st :
  Chess.turn E (game st) <> aiColor st
  \/ Chess.game_over E (game st) = true ->
  triggerAiMove st = st.
Proof.
  intros H. unfold triggerAiMove.
  destruct H as [H | H].
  - destruct (Chess.color_eqb _ _) eqn:Heq; [|reflexivity].
    apply FullFacts.color_eqb_eq in Heq. contradiction.
  - rewrite H, orb_true_r. reflexivity.
Qed.

Lemma ai_triggerAiMove_starts st :
  Chess.turn E (game st) = aiColor st ->
  Chess.game_over E (game st) = false ->
  triggerAiMove st
  = setTimers (timers st ++ [Think]) (setAiThinking true st).
Proof.
  intros Hturn Hover. unfold triggerAiMove. rewrite Hover, Hturn.
  assert (Hrefl : Chess.color_eqb (aiColor st) (aiColor st) = true)
    by (apply FullFacts.color_eqb_eq; reflexivity).
  rewrite Hrefl. reflexivity.
Qed.

Lemma ai_think_fires st r :
  handle (Timeout (List.length (timers st)) r)
         (setTimers (timers st ++ [Think]) (setAiThinking true st))
  = thinkTimeout r (setAiThinking true st).
Proof.
  cbn [handle timers setTimers]. rewrite FullTurn.takeOut_last.
  reflexivity.
Qed.

Lemma ai_aiMoveDone_facts m st :
  game (aiMoveDone m st) = fst (Chess.move E (game st) (Chess.objOf m))
  /\ selection (aiMoveDone m st) = (None, [])
  /\ aiThinking (aiMoveDone m st) = false
  /\ timers (aiMoveDone m st) = timers st.
Proof. unfold aiMoveDone. repeat split. Qed.

Lemma ai_animation_completes m st r' :
  exists st0,
    game st0 = game st /\ timers st0 = timers st
    /\ handle (Timeout (List.length (timers st)) r') (animateAIMove m st)
       = aiMoveDone m st0.
Proof.
  assert (Hnow : forall s : State E,
             handle (Timeout (List.length (timers s)) r') (aiMoveDone m s)
             = aiMoveDone m s).
  { intros s. cbn [handle].
    destruct (ai_aiMoveDone_facts m s) as [_ [_ [_ Ht]]].
    rewrite Ht, FullTurn.takeOut_none. reflexivity. }
  unfold animateAIMove.
  destruct (Chess.get E (game st) (Chess.from m));
    [|exists st; rewrite Hnow; auto].
  destruct (_ && _); [|exists st; rewrite Hnow; auto].
  cbn [handle timers setTimers setDom]. rewrite FullTurn.takeOut_last.
  unfold animTimeout. cbn [dom animEls setTimers setDom].
  assert (Hin : existsb (Nat.eqb (fresh (dom st)))
                        (animEls (dom st) ++ [fresh (dom st)]) = true).
  { rewrite existsb_app. cbn [existsb]. rewrite Nat.eqb_refl.
    rewrite orb_true_r. reflexivity. }
  rewrite Hin.
  eexists. split; [|split; [|reflexivity]]; reflexivity.
Qed.

End NoAssumption.
End AiTurn.

(** ** Facts about what is written to the page *)

Module ViewFacts.
Import View.

(** More rounds than entries left add nothing to the list. *)
Lemma listItems_rounds (h : list string) (r1 : nat) : forall r2 i,
  List.length h - i <= r1 -> List.length h - i <= r2 ->
  listItems h i r1 = listItems h i r2.
Proof.
  induction r1 as [|r1 IH]; intros r2 i H1 H2.
  - destruct r2 as [|r2]; [reflexivity|]. cbn [listItems].
    destruct (i <? List.length h) eqn:Hlt; [|reflexivity].
    apply Nat.ltb_lt in Hlt. lia.
  - cbn [listItems]. destruct (i <? List.length h) eqn:Hlt.
    + apply Nat.ltb_lt in Hlt.
      destruct r2 as [|r2]; [lia|]. cbn [listItems].
      apply Nat.ltb_lt in Hlt. rewrite Hlt. f_equal. apply IH; lia.
    + destruct r2 as [|r2]; [reflexivity|]. cbn [listItems].
      rewrite Hlt. reflexivity.
Qed.

Lemma listItems_length (h : list string) (r : nat) : forall i,
  List.length h - i <= r ->
  List.length (listItems h i r) = Nat.div2 (S (List.length h - i)).
Proof.
  induction r as [|r IH]; intros i Hr.
  - replace (List.length h - i) with 0 by lia. reflexivity.
  - cbn [listItems]. destruct (i <? List.length h) eqn:Hlt.
    + apply Nat.ltb_lt in Hlt. cbn [List.length]. rewrite IH by lia.
      destruct (List.length h - i) as [|[|d]] eqn:Hd; [lia | |].
      * replace (List.length h - (i + 2)) with 0 by lia. reflexivity.
      * replace (List.length h - (i + 2)) with d by lia. reflexivity.
    + apply Nat.ltb_ge in Hlt.
      replace (List.length h - i) with 0 by lia. reflexivity.
Qed.

Lemma orEmpty_some (s : string) : s <> ""%string -> orEmpty (Some s) = s.
Proof. intros H. destruct s; [contradiction | reflexivity]. Qed.

Lemma truthy_nonempty (s : string) : s <> ""%string -> Js.truthyStr s = true.
Proof. intros H. destruct s; [contradiction | reflexivity]. Qed.

Lemma skipn_nth {A : Type} (l : list A) : forall i x,
  nth_error l i = Some x -> skipn i l = x :: skipn (S i) l.
Proof.
  induction l as [|a l IH]; intros [|i] x H; try discriminate.
  - inversion H. reflexivity.
  - cbn [nth_error] in H. cbn [skipn]. rewrite (IH _ _ H). reflexivity.
Qed.

Lemma concat_cons (sep x : string) (l : list string) :
  l <> [] ->
  String.concat sep (x :: l) = (x ++ sep ++ String.concat sep l)%string.
Proof. destruct l; [contradiction | reflexivity]. Qed.

Lemma append_assoc (a b c : string) :
  ((a ++ b) ++ c = a ++ b ++ c)%string.
Proof.
  induction a as [|x a IH]; cbn; [reflexivity | rewrite IH; reflexivity].
Qed.

Lemma append_empty (a : string) : (a ++ "" = a)%string.
Proof.
  induction a as [|x a IH]; cbn; [reflexivity | rewrite IH; reflexivity].
Qed.

Lemma listItems_concat (h : list string) (r : nat) : forall i,
  Forall (fun s => s <> ""%string) h ->
  List.length h - i <= r ->
  String.concat " " (listItems h i r) = String.concat " " (skipn i h).
Proof.
  induction r as [|r IH]; intros i Hne Hr.
  - rewrite skipn_all2 by lia. reflexivity.
  - cbn [listItems]. destruct (i <? List.length h) eqn:Hlt.
    + apply Nat.ltb_lt in Hlt.
      destruct (nth_error h i) as [w|] eqn:Hw;
        [|apply nth_error_None in Hw; lia].
      assert (Hwne : w <> ""%string).
      { rewrite Forall_forall in Hne. apply Hne.
        apply (nth_error_In _ _ Hw). }
      rewrite (skipn_nth _ _ Hw), (orEmpty_some Hwne).
      replace (i + 1) with (S i) by lia.
      replace (i + 2) with (S (S i)) in * by lia.
      destruct (nth_error h (S i)) as [b|] eqn:Hb.
      * assert (Hbne : b <> ""%string).
        { rewrite Forall_forall in Hne. apply Hne.
          apply (nth_error_In _ _ Hb). }
        rewrite (skipn_nth _ _ Hb), (orEmpty_some Hbne).
        unfold itemText. rewrite (truthy_nonempty Hbne).
        assert (Hlen : List.length h - S (S i) <= r) by lia.
        pose proof (IH (S (S i)) Hne Hlen) as Hrest.
        rewrite (concat_cons " " w (l := b :: skipn (S (S i)) h))
          by discriminate.
        destruct (Nat.ltb_spec (S (S i)) (List.length h)) as [Hmore | Hlast].
        -- destruct (nth_error h (S (S i))) as [y|] eqn:Hy;
             [|apply nth_error_None in Hy; lia].
           rewrite (skipn_nth _ _ Hy) in *.
           rewrite (concat_cons " " b (l := y :: skipn (S (S (S i))) h))
             by discriminate.
           rewrite <- Hrest.
           destruct r as [|r']; [lia|]. cbn [listItems].
           apply Nat.ltb_lt in Hmore. rewrite Hmore.
           rewrite concat_cons by discriminate.
           rewrite ?append_assoc. reflexivity.
        -- rewrite (skipn_all2 (n := S (S i))) by lia.
           destruct r as [|r']; cbn [listItems String.concat];
             [reflexivity|].
           apply Nat.ltb_ge in Hlast. rewrite Hlast.
           cbn [String.concat]. rewrite ?append_assoc. reflexivity.
      * apply nth_error_None in Hb.
        rewrite (skipn_all2 (n := S i)) by lia.
        cbn [orEmpty]. unfold itemText. cbn [Js.truthyStr String.eqb negb].
        rewrite append_empty.
        destruct r as [|r']; [reflexivity|]. cbn [listItems].
        destruct (S (S i) <? List.length h) eqn:Hlt2;
          [apply Nat.ltb_lt in Hlt2; lia | reflexivity].
    + apply Nat.ltb_ge in Hlt. rewrite skipn_all2 by lia. reflexivity.
Qed.

End ViewFacts.

(** ** Facts about the board and the overlay of [app_ai.js] *)

Module PageFacts.
Section NoAssumption.
Import Full.
Variable E : Chess.Engine.
Implicit Types st : State E.

Lemma displayCells_flipped :
  Board.displayCells true = rev (Board.displayCells false).
Proof. reflexivity. Qed.

Lemma dom_updateThreatOverlay st : dom (updateThreatOverlay st) = dom st.
Proof.
  destruct (FullFacts.updateThreatOverlay_shape st) as [g ->]. reflexivity.
Qed.

Lemma dom_setRedoStack (l : list Chess.Move) st :
  dom (setRedoStack l st) = dom st.
Proof. reflexivity. Qed.

Lemma overlay_renderBoard st :
  overlay (dom (renderBoard st)) = FullStep.detached (overlay (dom st)).
Proof.
  unfold renderBoard. rewrite dom_updateThreatOverlay.
  unfold drawBoard. cbn [dom setDom overlay].
  destruct (overlay (dom st)); reflexivity.
Qed.

Lemma overlay_triggerAiMove st :
  overlay (dom (triggerAiMove st)) = overlay (dom st).
Proof. unfold triggerAiMove. destruct (_ || _); reflexivity. Qed.

Lemma overlay_aiMoveDone m st :
  overlay (dom (aiMoveDone m st)) = FullStep.detached (overlay (dom st)).
Proof.
  unfold aiMoveDone. cbv zeta.
  rewrite dom_updateThreatOverlay, overlay_renderBoard. reflexivity.
Qed.

Lemma overlay_animateAIMove m st :
  overlay (dom st) <> InBoard ->
  overlay (dom (animateAIMove m st)) = overlay (dom st).
Proof.
  intros Hno.
  assert (Hd : FullStep.detached (overlay (dom st)) = overlay (dom st))
    by (destruct (overlay (dom st));
        [reflexivity | contradiction | reflexivity]).
  unfold animateAIMove.
  destruct (Chess.get E (game st) (Chess.from m));
    [|rewrite overlay_aiMoveDone; exact Hd].
  destruct (findSquare (dom st) (Chess.from m));
    [|rewrite overlay_aiMoveDone; exact Hd].
  destruct (findSquare (dom st) (Chess.to m));
    [reflexivity | rewrite overlay_aiMoveDone; exact Hd].
Qed.

Lemma overlay_handle e st :
  overlay (dom st) <> InBoard ->
  overlay (dom (handle e st)) = overlay (dom st).
Proof.
  intros Hno.
  assert (Hd : FullStep.detached (overlay (dom st)) = overlay (dom st))
    by (destruct (overlay (dom st));
        [reflexivity | contradiction | reflexivity]).
  destruct e as [sq c | r | | | | | k r]; cbn [handle].
  - unfold onSquareClick. destruct (gated st); [reflexivity|].
    destruct (moveFrom st sq) as [sel|].
    + cbv zeta. rewrite overlay_triggerAiMove, dom_updateThreatOverlay,
        overlay_renderBoard. exact Hd.
    + destruct (match Chess.get E (game st) sq with
                | Some p => _
                | None => false
                end);
        rewrite ?dom_updateThreatOverlay, overlay_renderBoard; exact Hd.
  - unfold resetGame. cbv zeta.
    rewrite dom_setRedoStack.
    destruct (aiColor _);
      rewrite ?overlay_triggerAiMove, dom_updateThreatOverlay,
        overlay_renderBoard; exact Hd.
  - unfold flipBoard. rewrite overlay_renderBoard. exact Hd.
  - unfold undoLastMove. destruct (aiThinking st); [reflexivity|].
    destruct (Chess.undo E (game st)) as [g [m|]]; [|reflexivity].
    cbv zeta. rewrite dom_updateThreatOverlay, overlay_renderBoard. exact Hd.
  - unfold redoMove. destruct (aiThinking st); [reflexivity|].
    destruct (pop (redoStack st)) as [[m rest]|]; [|reflexivity].
    cbv zeta. rewrite dom_updateThreatOverlay, overlay_renderBoard. exact Hd.
  - unfold toggleThreats. rewrite dom_updateThreatOverlay. reflexivity.
  - destruct (takeOut k (timers st)) as [[[|el m] rest]|]; [| |reflexivity].
    + unfold thinkTimeout. cbv zeta.
      destruct (_ =? 0); [reflexivity|].
      destruct (nth_error _ _) as [m|]; [|reflexivity].
      rewrite overlay_animateAIMove; [reflexivity | exact Hno].
    + unfold animTimeout. destruct (existsb _ _); [|reflexivity].
      rewrite overlay_aiMoveDone. exact Hd.
Qed.

Lemma overlay_boot r page :
  overlay (dom (boot E r page))
  = match page with OutsideBoard => OutsideBoard | _ => NoOverlay end.
Proof.
  unfold boot. cbv zeta.
  destruct (aiColor _);
    rewrite ?overlay_triggerAiMove, overlay_renderBoard;
    destruct page; reflexivity.
Qed.

Lemma overlay_run es : forall st,
  overlay (dom st) <> InBoard ->
  overlay (dom (run st es)) = overlay (dom st).
Proof.
  induction es as [|e es IH]; intros st Hno; [reflexivity|].
  change (run st (e :: es)) with (run (handle e st) es).
  rewrite IH; [apply overlay_handle; exact Hno|].
  rewrite overlay_handle; exact Hno.
Qed.

(** When it is the human's turn and the engine lists moves only for the
    side to move, no move of the opponent is tried. *)
Lemma collectThreats_none st :
  (forall g r c p,
      In (r, c) Board.cells ->
      Chess.board E g r c = Some p ->
      Chess.pcolor p <> Chess.turn E g ->
      Chess.moves E g (Some (Board.squareName r c)) = []) ->
  Chess.turn E (game st) = playerColor st ->
  View.collectThreats st = (game st, []).
Proof.
  intros Hside Hturn. unfold View.collectThreats.
  apply FullFacts.fold_left_fixed.
  intros [r c] Hin. cbn [fst].
  destruct (Chess.board E (game st) r c) as [p|] eqn:Hp; [|reflexivity].
  destruct (Chess.color_eqb _ _) eqn:Hc; [|reflexivity].
  apply FullFacts.color_eqb_eq in Hc.
  rewrite (Hside _ _ _ _ Hin Hp); [reflexivity|].
  rewrite Hc, Hturn. destruct (playerColor st); discriminate.
Qed.

End NoAssumption.

Section WithEngine.
Import Full.
Variable E : Chess.Engine.
Hypothesis L : Chess.Laws E.
Implicit Types st : State E.

Lemma tryMove_game (c : Chess.Color) (g : Chess.GameState E) sq
      (m : Chess.Move) (ths : list View.Threat) :
  In m (Chess.moves E g sq) ->
  fst (View.tryMove E c (g, ths) m) = g.
Proof.
  intros Hin. unfold View.tryMove. cbn [fst].
  exact (FullFacts.try_one L g sq m Hin).
Qed.

Lemma tryMoves_game (c : Chess.Color) (g : Chess.GameState E)
      (ms : list Chess.Move) sq : forall ths,
  (forall m, In m ms -> In m (Chess.moves E g sq)) ->
  fst (fold_left (View.tryMove E c) ms (g, ths)) = g.
Proof.
  induction ms as [|m ms IH]; intros ths Hall; [reflexivity|].
  cbn [fold_left].
  destruct (View.tryMove E c (g, ths) m) as [g1 ths1] eqn:Hstep.
  assert (Hg : g1 = g).
  { change g1 with (fst (g1, ths1)). rewrite <- Hstep.
    apply (@tryMove_game c g sq m ths). apply Hall. left. reflexivity. }
  subst g1. apply IH. intros x Hx. apply Hall. right. exact Hx.
Qed.

(** The loops of the overlay leave the game as they found it. *)
Lemma collectThreats_game st : fst (View.collectThreats st) = game st.
Proof.
  unfold View.collectThreats.
  generalize (@nil View.Threat).
  generalize (Chess.board E (game st)). intros boardState.
  induction Board.cells as [|[r c] cells IH]; intros ths; [reflexivity|].
  cbn [fold_left fst].
  destruct (boardState r c) as [p|]; [|apply IH].
  destruct (Chess.color_eqb _ _); [|apply IH].
  destruct (fold_left (View.tryMove E (playerColor st))
                      (Chess.moves E (game st)
                                   (Some (Board.squareName r c)))
                      (game st, ths)) as [g1 ths1] eqn:Hfold.
  assert (Hg : g1 = game st).
  { change g1 with (fst (g1, ths1)). rewrite <- Hfold.
    apply (@tryMoves_game (playerColor st) (game st) _
             (Some (Board.squareName r c)) ths).
    intros m Hm. exact Hm. }
  subst g1. apply IH.
Qed.

End WithEngine.
End PageFacts.

(** ** The AI's turn in [app_ai.js], step by step *)

Module FullStepFacts.
Section NoAssumption.
Import Full FullStep.
Variable E : Chess.Engine.
Implicit Types st : State E.

Lemma busy_updateThreatOverlay st :
  aiThinking (updateThreatOverlay st) = aiThinking st
  /\ timers (updateThreatOverlay st) = timers st.
Proof.
  destruct (FullFacts.updateThreatOverlay_shape st) as [g ->].
  split; reflexivity.
Qed.

Lemma busy_renderBoard st :
  aiThinking (renderBoard st) = aiThinking st
  /\ timers (renderBoard st) = timers st.
Proof.
  destruct (FullFacts.renderBoard_shape st) as [g [d ->]].
  split; reflexivity.
Qed.

Ltac busy :=
  repeat first
    [ rewrite (proj1 (busy_updateThreatOverlay _))
    | rewrite (proj2 (busy_updateThreatOverlay _))
    | rewrite (proj1 (busy_renderBoard _))
    | rewrite (proj2 (busy_renderBoard _)) ];
  full_state.

Lemma full_idle_aiMoveDone m st :
  timers st = [] ->
  aiThinking (aiMoveDone m st) = false /\ timers (aiMoveDone m st) = [].
Proof.
  intros H. unfold aiMoveDone. cbv zeta. busy. split; [reflexivity | exact H].
Qed.

Lemma full_inStep_triggerAiMove st :
  aiThinking st = false -> timers st = [] -> inStep (triggerAiMove st).
Proof.
  intros Hbusy Htimers. unfold triggerAiMove, inStep.
  destruct (_ || _); [left; auto|].
  right. left. cbn. rewrite Htimers. auto.
Qed.

Lemma idle_inStep st :
  aiThinking st = false -> timers st = [] -> inStep st.
Proof. intros Hb Ht. left. split; assumption. Qed.

Lemma inStep_setRedoStack (l : list Chess.Move) st :
  inStep st -> inStep (setRedoStack l st).
Proof. intros H. exact H. Qed.

Lemma inStep_setGame (g : Chess.GameState E) st :
  inStep st -> inStep (setGame g st).
Proof. intros H. exact H. Qed.

Lemma full_inStep_handle e st : calm st e -> inStep st -> inStep (handle e st).
Proof.
  intros Hcalm Hinv.
  destruct e as [sq c | r | | | | | k r]; cbn [handle].
  - unfold onSquareClick, gated.
    destruct Hinv as [[Hb Ht] | [[Hb Ht] | [Hb Hex]]];
      rewrite Hb; cbn [orb];
      [|right; left; auto | right; right; auto].
    destruct (negb _); [left; auto|].
    destruct (moveFrom st sq) as [sel|].
    + cbv zeta. apply full_inStep_triggerAiMove; busy; assumption.
    + destruct (match Chess.get E (game st) sq with
                | Some p => _
                | None => false
                end); apply idle_inStep; busy; assumption.
  - cbn [calm] in Hcalm.
    destruct Hinv as [[Hb Ht] | [[Hb Ht] | [Hb Hex]]]; try congruence.
    unfold resetGame. cbv zeta.
    apply inStep_setRedoStack.
    destruct (aiColor _).
    + apply full_inStep_triggerAiMove; busy; [reflexivity | assumption].
    + apply idle_inStep; busy; [reflexivity | assumption].
  - cbn [calm] in Hcalm.
    destruct Hinv as [[Hb Ht] | [[Hb Ht] | [Hb Hex]]]; try congruence.
    unfold flipBoard. apply idle_inStep; busy; assumption.
  - unfold undoLastMove.
    destruct Hinv as [[Hb Ht] | [[Hb Ht] | [Hb Hex]]];
      rewrite Hb; [|right; left; auto | right; right; auto].
    destruct (Chess.undo E (game st)) as [g [m|]];
      apply idle_inStep; cbv zeta; busy; try reflexivity; assumption.
  - unfold redoMove.
    destruct Hinv as [[Hb Ht] | [[Hb Ht] | [Hb Hex]]];
      rewrite Hb; [|right; left; auto | right; right; auto].
    destruct (pop (redoStack st)) as [[m rest]|];
      apply idle_inStep; cbv zeta; busy; assumption.
  - unfold toggleThreats.
    destruct (FullFacts.updateThreatOverlay_shape
                (setShowThreats (negb (showThreats st)) st)) as [g ->].
    apply inStep_setGame. exact Hinv.
  - destruct Hcalm as [Hr0 Hr1].
    destruct Hinv as [[Hb Ht] | [[Hb Ht] | [Hb [el [m [Ht Hel]]]]]];
      rewrite Ht.
    + destruct k; cbn [takeOut]; left; auto.
    + destruct k as [|k]; cbn [takeOut];
        [|destruct k; right; left; auto].
      unfold thinkTimeout. cbv zeta. cbn [game setTimers].
      destruct (List.length (Chess.moves E (game st) None)) as [|n] eqn:Hn;
        [left; cbn; auto|].
      cbn [Nat.eqb].
      assert (Hidx : Js.floorTimes r (S n) < S n)
        by (apply JsFacts.floorTimes_lt; [assumption | assumption | lia]).
      destruct (nth_error _ _) as [m|] eqn:Hnth;
        [|apply nth_error_None in Hnth; lia].
      unfold animateAIMove.
      destruct (Chess.get E _ (Chess.from m));
        [|left; apply full_idle_aiMoveDone; reflexivity].
      destruct (findSquare _ (Chess.from m));
        [|left; apply full_idle_aiMoveDone; reflexivity].
      destruct (findSquare _ (Chess.to m));
        [|left; apply full_idle_aiMoveDone; reflexivity].
      right. right. cbn. split; [exact Hb|].
      do 2 eexists. split; [reflexivity|].
      apply in_or_app. right. left. reflexivity.
    + destruct k as [|k]; cbn [takeOut];
        [|destruct k; right; right; eauto].
      unfold animTimeout. cbn [dom setTimers].
      assert (Hex : existsb (Nat.eqb el) (animEls (dom st)) = true).
      { apply existsb_exists. exists el. split; [exact Hel|].
        apply Nat.eqb_refl. }
      rewrite Hex. left. apply full_idle_aiMoveDone. reflexivity.
Qed.

Lemma full_inStep_boot r page : inStep (boot E r page).
Proof.
  unfold boot. cbv zeta.
  destruct (aiColor _).
  - apply full_inStep_triggerAiMove; busy; unfold initThreatOverlay;
      destruct page; reflexivity.
  - apply idle_inStep; busy; unfold initThreatOverlay;
      destruct page; reflexivity.
Qed.

Lemma full_inStep_run es : forall st,
  calmRun st es -> inStep st -> inStep (run st es).
Proof.
  induction es as [|e es IH]; intros st Hcalm Hinv; [exact Hinv|].
  destruct Hcalm as [He Hrest].
  change (run st (e :: es)) with (run (handle e st) es).
  apply IH; [exact Hrest|]. apply full_inStep_handle; assumption.
Qed.

(** From a state in step, the pending timers end the AI's turn. *)
Lemma full_inStep_finishes st r :
  (0 <= r)%Q -> (r < 1)%Q -> inStep st ->
  aiThinking (run st [Timeout 0 r; Timeout 0 r]) = false
  /\ timers (run st [Timeout 0 r; Timeout 0 r]) = [].
Proof.
  intros Hr0 Hr1 Hinv.
  assert (Hok : calm st (Timeout 0 r)) by (split; assumption).
  pose proof (full_inStep_handle (Timeout 0 r) Hok Hinv) as H1.
  assert (Hdone : forall s : State E,
             inStep s ->
             timers s <> [Think] ->
             aiThinking (handle (Timeout 0 r) s) = false
             /\ timers (handle (Timeout 0 r) s) = []).
  { intros s [[Hb Ht] | [[Hb Ht] | [Hb [el [m [Ht Hel]]]]]] Hno.
    - cbn [handle]. rewrite Ht. cbn [takeOut]. split; assumption.
    - contradiction.
    - cbn [handle]. rewrite Ht. cbn [takeOut].
      unfold animTimeout. cbn [dom setTimers].
      assert (Hex : existsb (Nat.eqb el) (animEls (dom s)) = true).
      { apply existsb_exists. exists el. split; [exact Hel|].
        apply Nat.eqb_refl. }
      rewrite Hex. apply full_idle_aiMoveDone. reflexivity. }
  assert (Hnot : forall m (s : State E),
             timers s = [] -> timers (aiMoveDone m s) <> [Think]).
  { intros m s Hs. rewrite (proj2 (full_idle_aiMoveDone m s Hs)).
    discriminate. }
  change (run st [Timeout 0 r; Timeout 0 r])
    with (handle (Timeout 0 r) (handle (Timeout 0 r) st)).
  apply Hdone; [exact H1|].
  destruct Hinv as [[Hb Ht] | [[Hb Ht] | [Hb [el [m [Ht Hel]]]]]];
    cbn [handle]; rewrite Ht; cbn [takeOut].
  - rewrite Ht. discriminate.
  - unfold thinkTimeout. cbv zeta. cbn [game setTimers].
    destruct (_ =? 0); [cbn; discriminate|].
    destruct (nth_error _ _) as [m|]; [|cbn; discriminate].
    unfold animateAIMove.
    destruct (Chess.get E _ (Chess.from m)); [|apply Hnot; reflexivity].
    destruct (findSquare _ (Chess.from m)); [|apply Hnot; reflexivity].
    destruct (findSquare _ (Chess.to m));
      [cbn; discriminate | apply Hnot; reflexivity].
  - unfold animTimeout. destruct (existsb _ _); [|cbn; discriminate].
    apply Hnot. reflexivity.
Qed.

End NoAssumption.
End FullStepFacts.

(** ** Undo, redo and reset in [app_ai.js] *)

Module RedoFacts.
Section WithEngine.
Import Full FullStep.
Variable E : Chess.Engine.
Hypothesis L : Chess.Laws E.
Implicit Types st : State E.

Ltac normal :=
  rewrite ?(FullFacts.updateThreatOverlay_same L),
          ?(FullFacts.renderBoard_draw L).

Lemma run_app st (a b : list Event) : run st (a ++ b) = run (run st a) b.
Proof. unfold run. apply fold_left_app. Qed.

Lemma run_cons st (e : Event) (es : list Event) :
  run st (e :: es) = run (handle e st) es.
Proof. reflexivity. Qed.

Lemma pop_some (l rest : list Chess.Move) (m : Chess.Move) :
  pop l = Some (m, rest) -> l = rest ++ [m].
Proof.
  unfold pop. destruct (rev l) as [|x r] eqn:Hrev; [discriminate|].
  intros H. inversion H; subst.
  rewrite <- (rev_involutive l), Hrev. reflexivity.
Qed.

Lemma redoStack_triggerAiMove st :
  redoStack (triggerAiMove st) = redoStack st
  /\ game (triggerAiMove st) = game st.
Proof. unfold triggerAiMove. destruct (_ || _); split; reflexivity. Qed.

Lemma redoStack_aiMoveDone m st : redoStack (aiMoveDone m st) = [].
Proof. unfold aiMoveDone. normal. reflexivity. Qed.

(** What an event does to the game and the redo stack. *)
Lemma history_cases e st :
  (game (handle e st) = game st /\ redoStack (handle e st) = redoStack st)
  \/ redoStack (handle e st) = []
  \/ (exists g0 m,
         e = UndoBtn
         /\ Chess.undo E (game st) = (g0, Some m)
         /\ game (handle e st) = g0
         /\ redoStack (handle e st) = redoStack st ++ [m])
  \/ (exists m rest,
         e = RedoBtn
         /\ redoStack st = rest ++ [m]
         /\ game (handle e st)
            = fst (Chess.move E (game st) (Chess.redoObjOf m))
         /\ redoStack (handle e st) = rest).
Proof.
  destruct e as [sq c | r | | | | | k r]; cbn [handle].
  - unfold onSquareClick. destruct (gated st); [left; auto|].
    destruct (moveFrom st sq) as [sel|].
    + right. left. cbv zeta.
      rewrite (proj1 (redoStack_triggerAiMove _)). normal. reflexivity.
    + destruct (match Chess.get E (game st) sq with
                | Some p => _
                | None => false
                end); normal; left; split; reflexivity.
  - right. left. reflexivity.
  - left. unfold flipBoard. normal. split; reflexivity.
  - unfold undoLastMove. destruct (aiThinking st); [left; auto|].
    destruct (Chess.undo E (game st)) as [g [m|]] eqn:Hu.
    + right. right. left. exists g, m. normal.
      repeat split; reflexivity.
    + left. destruct (Chess.undo_none L _ Hu) as [-> _].
      split; reflexivity.
  - unfold redoMove. destruct (aiThinking st); [left; auto|].
    destruct (pop (redoStack st)) as [[m rest]|] eqn:Hpop; [|left; auto].
    right. right. right. exists m, rest. normal.
    split; [reflexivity|]. split; [apply pop_some; exact Hpop|].
    split; reflexivity.
  - left. unfold toggleThreats. normal. split; reflexivity.
  - destruct (takeOut k (timers st)) as [[[|el m] rest]|];
      [| |left; auto].
    + unfold thinkTimeout. cbv zeta. full_state.
      destruct (_ =? 0); [left; split; reflexivity|].
      destruct (nth_error _ _) as [m|]; [|left; split; reflexivity].
      unfold animateAIMove. full_state.
      destruct (Chess.get E (game st) (Chess.from m));
        [|right; left; apply redoStack_aiMoveDone].
      destruct (findSquare _ (Chess.from m));
        [|right; left; apply redoStack_aiMoveDone].
      destruct (findSquare _ (Chess.to m));
        [left; split; reflexivity
        |right; left; apply redoStack_aiMoveDone].
    + unfold animTimeout.
      destruct (existsb _ _); [|left; split; reflexivity].
      right. left. apply redoStack_aiMoveDone.
Qed.

(** The redo stack of a reachable state can be replayed. *)
Lemma replayable_handle e st :
  Chess.Played E (game st) ->
  replayable E (game st) (rev (redoStack st)) ->
  replayable E (game (handle e st)) (rev (redoStack (handle e st))).
Proof.
  intros Hplayed Hinv.
  destruct (history_cases e st)
    as [[Hg Hr] | [Hr | [[g0 [m [_ [Hu [Hg Hr]]]]]
                        | [m [rest [_ [Hst [Hg Hr]]]]]]]].
  - rewrite Hg, Hr. exact Hinv.
  - rewrite Hr. exact I.
  - rewrite Hg, Hr, rev_app_distr. cbn [rev app replayable].
    exists (game st). split; [|exact Hinv].
    apply (Chess.redo_undo L Hplayed Hu).
  - rewrite Hg, Hr. rewrite Hst, rev_app_distr in Hinv.
    cbn [rev app replayable] in Hinv.
    destruct Hinv as [g' [Hmove Hrest]]. rewrite Hmove. exact Hrest.
Qed.

Lemma replayable_run es : forall st,
  Chess.Played E (game st) ->
  replayable E (game st) (rev (redoStack st)) ->
  replayable E (game (run st es)) (rev (redoStack (run st es))).
Proof.
  induction es as [|e es IH]; intros st Hp Hinv; [exact Hinv|].
  change (run st (e :: es)) with (run (handle e st) es).
  apply IH.
  - apply (FullHistory.played_handle L). exact Hp.
  - apply replayable_handle; assumption.
Qed.

Lemma redoStack_boot r page : redoStack (boot E r page) = [].
Proof.
  unfold boot. cbv zeta.
  destruct (aiColor _);
    rewrite ?(proj1 (redoStack_triggerAiMove _)); normal;
    unfold initThreatOverlay; destruct page; reflexivity.
Qed.

Lemma replayable_reachable st :
  Reachable st -> replayable E (game st) (rev (redoStack st)).
Proof.
  intros [r [page [es ->]]]. apply replayable_run.
  - apply (FullHistory.played_boot L).
  - rewrite redoStack_boot. exact I.
Qed.

(** Pressing redo as often as the stack is high replays all of it. *)
Lemma redo_all n : forall st,
  replayable E (game st) (rev (redoStack st)) ->
  aiThinking st = false ->
  List.length (redoStack st) = n ->
  redoStack (run st (repeat RedoBtn n)) = []
  /\ Chess.history E (game (run st (repeat RedoBtn n)))
     = Chess.history E (game st) ++ map Chess.san (rev (redoStack st))
  /\ aiThinking (run st (repeat RedoBtn n)) = false.
Proof.
  induction n as [|n IH]; intros st Hinv Hbusy Hlen.
  - cbn [repeat run fold_left].
    destruct (redoStack st); [|discriminate].
    cbn [rev map]. rewrite app_nil_r. auto.
  - destruct (redoStack st) as [|x l] eqn:Hst using rev_ind; [discriminate|].
    clear IHl. rewrite length_app in Hlen. cbn in Hlen.
    rewrite rev_app_distr in *. cbn [rev app replayable] in Hinv.
    destruct Hinv as [g' [Hmove Hrest]].
    cbn [repeat].
    change (run st (RedoBtn :: repeat RedoBtn n))
      with (run (redoMove st) (repeat RedoBtn n)).
    assert (Hpop : pop (redoStack st) = Some (x, l))
      by (rewrite Hst; apply FullHistory.pop_push).
    rewrite (FullHistory.redoMove_some L st Hbusy Hpop).
    rewrite Hmove. cbn [fst].
    match goal with
    | |- redoStack (run ?s _) = [] /\ _ =>
      destruct (IH s) as [H1 [H2 H3]]
    end.
    + full_state. exact Hrest.
    + full_state. exact Hbusy.
    + full_state. lia.
    + split; [exact H1|]. split; [|exact H3].
      rewrite H2. full_state.
      rewrite (Chess.move_history L _ _ Hmove).
      cbn [map app]. rewrite <- app_assoc. reflexivity.
Qed.

(** Undoing [n] moves and redoing [n] moves leads back. *)
Lemma undo_redo_many n : forall st,
  Chess.Played E (game st) ->
  aiThinking st = false ->
  n <= List.length (Chess.history E (game st)) ->
  game (run st (repeat UndoBtn n ++ repeat RedoBtn n)) = game st
  /\ redoStack (run st (repeat UndoBtn n ++ repeat RedoBtn n))
     = redoStack st
  /\ aiThinking (run st (repeat UndoBtn n ++ repeat RedoBtn n)) = false.
Proof.
  induction n as [|n IH]; intros st Hp Hbusy Hlen; [cbn; auto|].
  assert (Hne : Chess.history E (game st) <> [])
    by (destruct (Chess.history E (game st));
        [cbn in Hlen; lia | discriminate]).
  destruct (FullHistory.undo_nonempty L _ Hne) as [g0 [m Hu]].
  replace (repeat UndoBtn (S n) ++ repeat RedoBtn (S n))
    with (UndoBtn :: (repeat UndoBtn n ++ repeat RedoBtn n) ++ [RedoBtn]).
  2:{ cbn [repeat app]. f_equal. rewrite <- app_assoc. f_equal.
      symmetry. apply (repeat_cons n RedoBtn). }
  rewrite run_cons, run_app. cbn [handle].
  change (run ?s [RedoBtn]) with (redoMove s).
  rewrite (FullHistory.undoLastMove_some L st Hbusy Hu).
  match goal with
  | |- game (redoMove (run ?s _)) = _ /\ _ =>
    destruct (IH s) as [H1 [H2 H3]]
  end.
  - full_state. pose proof (Chess.played_undo Hp) as Hp0.
    rewrite Hu in Hp0. exact Hp0.
  - reflexivity.
  - full_state. pose proof (Chess.undo_history L _ Hu) as Hh.
    rewrite Hh, length_app in Hlen. cbn in Hlen. lia.
  - full_state.
    match goal with
    | |- game (redoMove ?s) = _ /\ _ => set (st2 := s) in *
    end.
    assert (Hpop : pop (redoStack st2) = Some (m, redoStack st))
      by (rewrite H2; apply FullHistory.pop_push).
    rewrite (FullHistory.redoMove_some L st2 H3 Hpop).
    full_state. rewrite H1, H3.
    rewrite (Chess.redo_undo L Hp Hu). auto.
Qed.

(** *** Nobody to move *)

Lemma limbo_handle e st :
  keepsHistory e ->
  aiThinking st = false -> timers st = [] ->
  Chess.turn E (game st) <> playerColor st ->
  game (handle e st) = game st
  /\ aiThinking (handle e st) = false
  /\ timers (handle e st) = []
  /\ playerColor (handle e st) = playerColor st.
Proof.
  intros Hkeep Hbusy Htimers Hturn.
  destruct e as [sq c | r | | | | | k r]; cbn [handle];
    try contradiction.
  - assert (Hg : gated st = true)
      by (apply FullFacts.gated_iff; right; exact Hturn).
    unfold onSquareClick. rewrite Hg. auto.
  - unfold flipBoard. normal. full_state. auto.
  - unfold toggleThreats. normal. full_state. auto.
  - rewrite Htimers. destruct k; cbn [takeOut]; auto.
Qed.

Lemma limbo_run es : forall st,
  Forall keepsHistory es ->
  aiThinking st = false -> timers st = [] ->
  Chess.turn E (game st) <> playerColor st ->
  game (run st es) = game st
  /\ aiThinking (run st es) = false
  /\ timers (run st es) = [].
Proof.
  induction es as [|e es IH]; intros st Hall Hbusy Htimers Hturn;
    [cbn; auto|].
  inversion Hall as [|? ? He Hes]; subst.
  destruct (@limbo_handle e st He Hbusy Htimers Hturn) as [Hg [Hb [Ht Hp]]].
  change (run st (e :: es)) with (run (handle e st) es).
  destruct (IH (handle e st) Hes Hb Ht) as [Hg' [Hb' Ht']].
  - rewrite Hg, Hp. exact Hturn.
  - rewrite Hg', Hg. auto.
Qed.

(** *** Reset *)

Lemma resetGame_state r st :
  game (resetGame r st) = Chess.reset E (game st)
  /\ selection (resetGame r st) = (None, [])
  /\ redoStack (resetGame r st) = []
  /\ flipped (resetGame r st) = false
  /\ playerColor (resetGame r st)
     = (if Js.ltHalf r then Chess.White else Chess.Black)
  /\ aiColor (resetGame r st)
     = Chess.other (if Js.ltHalf r then Chess.White else Chess.Black)
  /\ aiThinking (resetGame r st)
     = negb (Js.ltHalf r)
       && Chess.color_eqb (Chess.turn E (Chess.reset E (game st)))
                          Chess.White
  /\ timers (resetGame r st)
     = timers st ++ (if aiThinking (resetGame r st) then [Think] else []).
Proof.
  assert (Hover : Chess.game_over E (Chess.reset E (game st)) = false).
  { rewrite (Chess.game_over_iff L).
    destruct (Chess.reset_fresh L (game st)) as [_ [-> ->]]. reflexivity. }
  unfold resetGame. cbv zeta. normal. full_state.
  destruct (Js.ltHalf r); cbn [Chess.other negb andb].
  - full_state. rewrite app_nil_r. repeat split.
  - unfold triggerAiMove. full_state. rewrite Hover, orb_false_r.
    destruct (Chess.color_eqb _ _); cbn [negb]; full_state;
      rewrite ?app_nil_r; repeat split.
Qed.

(** As [FullTurn.animation_completes], keeping track of the human's
    colour as well. *)
Lemma animation_keeps_sides m st r' :
  exists st0,
    game st0 = game st /\ timers st0 = timers st
    /\ playerColor st0 = playerColor st
    /\ handle (Timeout (List.length (timers st)) r') (animateAIMove m st)
       = aiMoveDone m st0.
Proof.
  assert (Hnow : forall s : State E,
             handle (Timeout (List.length (timers s)) r') (aiMoveDone m s)
             = aiMoveDone m s).
  { intros s. cbn [handle].
    destruct (FullTurn.aiMoveDone_facts L m s) as [_ [_ [_ [_ [_ Ht]]]]].
    rewrite Ht, FullTurn.takeOut_none. reflexivity. }
  unfold animateAIMove.
  destruct (Chess.get E (game st) (Chess.from m));
    [|exists st; rewrite Hnow; auto].
  destruct (findSquare (dom st) (Chess.from m));
    [|exists st; rewrite Hnow; auto].
  destruct (findSquare (dom st) (Chess.to m));
    [|exists st; rewrite Hnow; auto].
  cbn [handle timers setTimers setDom]. rewrite FullTurn.takeOut_last.
  unfold animTimeout. cbn [dom animEls setTimers setDom].
  assert (Hin : existsb (Nat.eqb (fresh (dom st)))
                        (animEls (dom st) ++ [fresh (dom st)]) = true).
  { rewrite existsb_app. cbn [existsb]. rewrite Nat.eqb_refl.
    rewrite orb_true_r. reflexivity. }
  rewrite Hin.
  eexists. split; [|split; [|split; [|reflexivity]]]; reflexivity.
Qed.

(** A pending thinking timer plays a move whoever is to move. *)
Lemma think_timer_plays st r1 r2 m :
  timers st = [Think] ->
  nth_error (Chess.moves E (game st) None)
            (Js.floorTimes r1
               (List.length (Chess.moves E (game st) None))) = Some m ->
  game (run st [Timeout 0 r1; Timeout 0 r2])
  = fst (Chess.move E (game st) (Chess.objOf m))
  /\ playerColor (run st [Timeout 0 r1; Timeout 0 r2]) = playerColor st
  /\ aiThinking (run st [Timeout 0 r1; Timeout 0 r2]) = false
  /\ timers (run st [Timeout 0 r1; Timeout 0 r2]) = [].
Proof.
  intros Ht Hnth.
  change (run st [Timeout 0 r1; Timeout 0 r2])
    with (handle (Timeout 0 r2) (handle (Timeout 0 r1) st)).
  assert (H1 : handle (Timeout 0 r1) st
               = animateAIMove m (setSelection None [] (setTimers [] st))).
  { cbn [handle]. rewrite Ht. cbn [takeOut].
    unfold thinkTimeout. cbv zeta. full_state. rewrite Hnth.
    destruct (List.length (Chess.moves E (game st) None)) eqn:Hz;
      [|reflexivity].
    destruct (Chess.moves E (game st) None); [|discriminate Hz].
    destruct (Js.floorTimes r1 0); discriminate Hnth. }
  rewrite H1.
  destruct (animation_keeps_sides m
              (setSelection None [] (setTimers [] st)) r2)
    as [st0 [Hg0 [Ht0 [Hp0 Heq]]]].
  full_state. cbn [List.length] in Heq. rewrite Heq.
  destruct (FullTurn.aiMoveDone_facts L m st0)
    as [Hgame [_ [_ [_ [Hb Htm]]]]].
  destruct (FullInvariants.sides_aiMoveDone L m st0) as [Hpc _].
  rewrite Hgame, Hb, Htm, Hpc, Hg0, Ht0, Hp0. repeat split.
Qed.

End WithEngine.
End RedoFacts.

(** ** The destinations shown by [part_000] and by the two-player script *)

Module CurrentFacts.

Section BasicScript.
Import Basic.
Variable E : Chess.Engine.
Implicit Types st : State E.

Let current st : Prop :=
  match selectedSquare st with
  | Some sq =>
    possibleMoves st = map Chess.to (Chess.moves E (game st) (Some sq))
  | None => possibleMoves st = []
  end.

Lemma basic_current_click sq st : current (onSquareClick sq st).
Proof.
  unfold onSquareClick.
  destruct (moveFrom st sq) as [sel|]; [reflexivity|].
  destruct (match Chess.get E (game st) sq with
            | Some p => _
            | None => false
            end); reflexivity.
Qed.

Lemma basic_current_run clicks : current (run (boot E) clicks).
Proof.
  destruct clicks as [|c clicks] using rev_ind; [reflexivity|].
  unfold run. rewrite fold_left_app. cbn [fold_left].
  apply basic_current_click.
Qed.

End BasicScript.

Section AiScript.
Import Ai.
Variable E : Chess.Engine.
Implicit Types st : State E.

Let current st : Prop :=
  match selectedSquare st with
  | Some sq =>
    possibleMoves st = map Chess.to (Chess.moves E (game st) (Some sq))
  | None => possibleMoves st = []
  end.

Let animating st : Prop := exists el m, timers st = [Anim el m].

Lemma ai_current_triggerAiMove st :
  current st -> current (triggerAiMove st).
Proof. unfold triggerAiMove. destruct (_ || _); intros H; exact H. Qed.

Lemma ai_current_handle e st :
  inStep st ->
  current st \/ animating st ->
  current (handle e st) \/ animating (handle e st).
Proof.
  intros Hstep Hinv. destruct e as [sq | k r]; cbn [handle].
  - unfold onSquareClick, gated.
    destruct (aiThinking st) eqn:Hb; cbn [orb]; [exact Hinv|].
    destruct (negb _); [exact Hinv|].
    left. destruct (moveFrom st sq) as [sel|].
    + apply ai_current_triggerAiMove. reflexivity.
    + destruct (match Chess.get E (game st) sq with
                | Some p => _
                | None => false
                end); reflexivity.
  - destruct Hstep as [[Hb Ht] | [[Hb Ht] | [Hb [el [m [Ht Hel]]]]]];
      rewrite Ht.
    + destruct k; cbn [Full.takeOut]; exact Hinv.
    + assert (Hcur : current st).
      { destruct Hinv as [H | [el [m H]]]; [exact H|].
        rewrite Ht in H. discriminate. }
      destruct k as [|k]; cbn [Full.takeOut];
        [|destruct k; left; exact Hcur].
      unfold thinkTimeout. cbv zeta. cbn [game setTimers].
      destruct (_ =? 0); [left; exact Hcur|].
      destruct (nth_error _ _) as [m|]; [|left; exact Hcur].
      unfold animateAIMove.
      destruct (Chess.get E _ (Chess.from m)); [|left; reflexivity].
      destruct (_ && _); [|left; reflexivity].
      right. exists (fresh (dom st)), m. reflexivity.
    + destruct k as [|k]; cbn [Full.takeOut];
        [|destruct k; right; exists el, m; exact Ht].
      unfold animTimeout. cbn [dom setTimers]. rewrite Hel.
      cbn [existsb]. rewrite Nat.eqb_refl. left. reflexivity.
Qed.

Lemma ai_current_run es : forall st,
  Forall inRange es ->
  inStep st ->
  current st \/ animating st ->
  current (run st es) \/ animating (run st es).
Proof.
  induction es as [|e es IH]; intros st Hall Hstep Hinv; [exact Hinv|].
  inversion Hall; subst.
  change (run st (e :: es)) with (run (handle e st) es).
  apply IH; [assumption | |].
  - apply AiTurn.inStep_handle; assumption.
  - apply ai_current_handle; assumption.
Qed.

Lemma ai_current_idle r0 es :
  Forall inRange es ->
  aiThinking (run (boot E r0) es) = false ->
  current (run (boot E r0) es).
Proof.
  intros Hall Hidle.
  pose proof (AiTurn.inStep_run Hall (AiTurn.inStep_boot E r0)) as Hstep.
  destruct (@ai_current_run es (boot E r0) Hall (AiTurn.inStep_boot E r0))
    as [H | [el [m H]]].
  - left. unfold boot. cbv zeta.
    destruct (aiColor _); [apply ai_current_triggerAiMove|]; reflexivity.
  - exact H.
  - destruct Hstep as [[Hb Ht] | [[Hb Ht] | [Hb _]]]; congruence.
Qed.

End AiScript.
End CurrentFacts.

(** ** The reference engine lists moves for the side to move only *)

Module RulesSide.
Import Chess Rules.

Lemma square_of_name :
  Forall (fun '(r, c) => square (Board.squareName r c) = Some (r * 8 + c))
         Board.cells.
Proof. repeat constructor. Qed.

Lemma kingOf_color (b : list (option Piece)) (c : Color) (k : nat) :
  kingOf b c = Some k -> isColor c (at_ b k) = true.
Proof.
  unfold kingOf. intros H. apply find_some in H. destruct H as [_ H].
  destruct (at_ b k) as [[t c']|]; [|discriminate].
  destruct t; try discriminate. cbn.
  destruct c, c'; try discriminate; reflexivity.
Qed.

Lemma side_only (g : Game) (r c : nat) (p : Piece) :
  In (r, c) Board.cells ->
  board engine g r c = Some p ->
  pcolor p <> turn engine g ->
  moves engine g (Some (Board.squareName r c)) = [].
Proof.
  intros Hin Hp Hcol.
  pose proof square_of_name as Hsq. rewrite Forall_forall in Hsq.
  specialize (Hsq _ Hin). cbn beta iota in Hsq.
  cbn [moves board turn engine] in *. unfold movesOf. rewrite Hsq.
  assert (Hnot : color_eqb (pcolor p) (side (pos g)) = false).
  { destruct (pcolor p), (side (pos g)); try reflexivity;
      exfalso; apply Hcol; reflexivity. }
  unfold generateMoves, pieceMoves. rewrite Hp, Hnot. cbn [app].
  destruct (kingOf (cells (pos g)) (side (pos g))) as [k|] eqn:Hk;
    [|reflexivity].
  destruct (r * 8 + c =? k) eqn:Heq; [|reflexivity].
  apply Nat.eqb_eq in Heq. subst k.
  apply kingOf_color in Hk. rewrite Hp in Hk. cbn [isColor] in Hk.
  congruence.
Qed.

End RulesSide.

(** ** Facts about the classes of a square *)

Module ClassFacts.
Section NoAssumption.
Import View.
Variable E : Chess.Engine.

Lemma includes_In (l : list string) (s : string) :
  Js.includes l s = true <-> In s l.
Proof.
  unfold Js.includes. rewrite existsb_exists. split.
  - intros [x [Hin Heq]]. apply String.eqb_eq in Heq. subst x. exact Hin.
  - intros Hin. exists s. split; [exact Hin | apply String.eqb_refl].
Qed.

Ltac classes :=
  unfold squareClasses; cbv zeta;
  repeat match goal with
         | |- context [if ?b then _ else _] => destruct b eqn:?
         | |- context [match ?x with Some _ => _ | None => _ end] =>
           destruct x eqn:?
         end;
  cbn [app In].

Lemma classes_selected (g : Chess.GameState E) (sel : option string)
      (dests : list string) (row col : nat) :
  In "selected"%string (squareClasses E g sel dests row col)
  <-> sel = Some (Board.squareName row col).
Proof.
  destruct sel as [s|].
  - destruct (String.eqb s (Board.squareName row col)) eqn:Hs.
    + apply String.eqb_eq in Hs. subst s.
      split; [reflexivity|]. intros _.
      unfold squareClasses. cbv zeta. rewrite String.eqb_refl.
      cbn [app In]. right. right. left. reflexivity.
    + split.
      * unfold squareClasses. cbv zeta. rewrite Hs.
        repeat match goal with
               | |- context [if ?b then _ else _] => destruct b
               | |- context [match ?x with Some _ => _ | None => _ end] =>
                 destruct x
               end; cbn [app In]; intuition discriminate.
      * intros H. inversion H; subst.
        rewrite String.eqb_refl in Hs. discriminate.
  - split; [|discriminate].
    classes; intuition discriminate.
Qed.

Ltac member := cbn [app In]; repeat first [left; reflexivity | right].

Lemma classes_highlight (g : Chess.GameState E) (sel : option string)
      (dests : list string) (row col : nat) :
  (In "move"%string (squareClasses E g sel dests row col)
   \/ In "capture"%string (squareClasses E g sel dests row col))
  <-> In (Board.squareName row col) dests.
Proof.
  rewrite <- (includes_In dests (Board.squareName row col)).
  destruct (Js.includes dests (Board.squareName row col)) eqn:Hinc;
    unfold squareClasses; cbv zeta; rewrite Hinc;
    repeat match goal with
           | |- context [if ?b then _ else _] => destruct b
           | |- context [match ?x with Some _ => _ | None => _ end] =>
             destruct x
           end;
    (split;
     [ intros [H | H]; cbn [app In] in H;
       first [reflexivity | intuition discriminate]
     | intros H; first [discriminate H
                       | left; solve [member]
                       | right; solve [member]] ]).
Qed.

Lemma classes_exclusive (g : Chess.GameState E) (sel : option string)
      (dests : list string) (row col : nat) :
  ~ (In "move"%string (squareClasses E g sel dests row col)
     /\ In "capture"%string (squareClasses E g sel dests row col)).
Proof. classes; intuition discriminate. Qed.

Lemma classes_capture (g : Chess.GameState E) (sel : option string)
      (dests : list string) (row col : nat) :
  In "capture"%string (squareClasses E g sel dests row col) ->
  exists p, Chess.board E g row col = Some p
            /\ Chess.pcolor p <> Chess.turn E g.
Proof.
  unfold squareClasses. cbv zeta.
  destruct (Chess.board E g row col) as [p|] eqn:Hp.
  - destruct (Chess.color_eqb (Chess.pcolor p) (Chess.turn E g)) eqn:Hc.
    + cbn [negb].
      repeat match goal with
             | |- context [if ?b then _ else _] => destruct b
             | |- context [match ?x with Some _ => _ | None => _ end] =>
               destruct x
             end; cbn [app In]; intuition discriminate.
    + intros _. exists p. split; [reflexivity|].
      intros Heq. apply FullFacts.color_eqb_eq in Heq. congruence.
  - repeat match goal with
           | |- context [if ?b then _ else _] => destruct b
           | |- context [match ?x with Some _ => _ | None => _ end] =>
             destruct x
           end; cbn [app In]; intuition discriminate.
Qed.

End NoAssumption.
End ClassFacts.

(** ** The busy flag and the side to move in [app_ai.js] *)

Module BusyFacts.
Section WithEngine.
Import Full.
Variable E : Chess.Engine.
Hypothesis L : Chess.Laws E.
Implicit Types st : State E.

Let onTurn st : Prop :=
  aiThinking st = true -> Chess.turn E (game st) = aiColor st.

Ltac normal :=
  rewrite ?(FullFacts.updateThreatOverlay_same L),
          ?(FullFacts.renderBoard_draw L).

Lemma onTurn_triggerAiMove st :
  aiThinking st = false -> onTurn (triggerAiMove st).
Proof.
  intros Hidle. unfold onTurn, triggerAiMove.
  destruct (Chess.color_eqb _ _) eqn:Hc; cbn [negb orb].
  - apply FullFacts.color_eqb_eq in Hc.
    destruct (Chess.game_over E (game st)); intros _; exact Hc.
  - rewrite Hidle. discriminate.
Qed.

Lemma onTurn_aiMoveDone m st : onTurn (aiMoveDone m st).
Proof.
  unfold onTurn.
  destruct (FullTurn.aiMoveDone_facts L m st) as [_ [_ [_ [_ [Hb _]]]]].
  rewrite Hb. discriminate.
Qed.

Lemma onTurn_handle e st : onTurn st -> onTurn (handle e st).
Proof.
  intros Hinv. destruct e as [sq c | r | | | | | k r]; cbn [handle].
  - unfold onSquareClick, gated.
    destruct (aiThinking st) eqn:Hb; cbn [orb]; [exact Hinv|].
    destruct (negb _); [exact Hinv|].
    destruct (moveFrom st sq) as [sel|].
    + cbv zeta. normal. apply onTurn_triggerAiMove. full_state. exact Hb.
    + destruct (match Chess.get E (game st) sq with
                | Some p => _
                | None => false
                end); normal; unfold onTurn; full_state;
        rewrite Hb; discriminate.
  - destruct (RedoFacts.resetGame_state L r st)
      as [Hg [_ [_ [_ [_ [Ha [Hb _]]]]]]].
    unfold onTurn. rewrite Hg, Ha, Hb.
    destruct (Js.ltHalf r); cbn [negb andb Chess.other];
      [discriminate|].
    intros Hc. apply FullFacts.color_eqb_eq in Hc. exact Hc.
  - unfold flipBoard. normal. exact Hinv.
  - unfold undoLastMove. destruct (aiThinking st) eqn:Hb; [exact Hinv|].
    destruct (Chess.undo E (game st)) as [g [m|]]; normal;
      unfold onTurn; full_state; [|rewrite Hb]; discriminate.
  - unfold redoMove. destruct (aiThinking st) eqn:Hb; [exact Hinv|].
    destruct (pop (redoStack st)) as [[m rest]|]; [|exact Hinv].
    normal. unfold onTurn. full_state. rewrite Hb. discriminate.
  - unfold toggleThreats. normal. exact Hinv.
  - destruct (takeOut k (timers st)) as [[[|el m] rest]|];
      [| |exact Hinv].
    + unfold thinkTimeout. cbv zeta. full_state.
      destruct (_ =? 0); [unfold onTurn; full_state; discriminate|].
      destruct (nth_error _ _) as [m|]; [|exact Hinv].
      unfold animateAIMove. full_state.
      destruct (Chess.get E (game st) (Chess.from m));
        [|apply onTurn_aiMoveDone].
      destruct (findSquare _ (Chess.from m)); [|apply onTurn_aiMoveDone].
      destruct (findSquare _ (Chess.to m)); [|apply onTurn_aiMoveDone].
      exact Hinv.
    + unfold animTimeout.
      destruct (existsb _ _); [apply onTurn_aiMoveDone | exact Hinv].
Qed.

Lemma onTurn_boot r page : onTurn (boot E r page).
Proof.
  unfold boot. cbv zeta. normal.
  destruct (aiColor _).
  - apply onTurn_triggerAiMove. full_state.
    unfold initThreatOverlay. destruct page; reflexivity.
  - unfold onTurn. full_state.
    unfold initThreatOverlay. destruct page; discriminate.
Qed.

Lemma onTurn_reachable st :
  Reachable st ->
  aiThinking st = true -> Chess.turn E (game st) = aiColor st.
Proof.
  intros [r [page [es ->]]].
  assert (H : forall es s, onTurn s -> onTurn (run s es)).
  { clear es. induction es as [|e es IH]; intros s Hs; [exact Hs|].
    change (run s (e :: es)) with (run (handle e s) es).
    apply IH. apply onTurn_handle. exact Hs. }
  apply H. apply onTurn_boot.
Qed.

End WithEngine.

Section Names.

Lemma cells_bound (r c : nat) : In (r, c) Board.cells <-> r < 8 /\ c < 8.
Proof.
  unfold Board.cells. rewrite in_prod_iff, !in_seq. lia.
Qed.

(** The names of the 64 squares are pairwise different. *)
Lemma squareName_inj (r c r' c' : nat) :
  In (r, c) Board.cells -> In (r', c') Board.cells ->
  Board.squareName r c = Board.squareName r' c' ->
  r = r' /\ c = c'.
Proof.
  rewrite !cells_bound. intros [Hr Hc] [Hr' Hc'] H.
  unfold Board.squareName in H. inversion H as [[Hf Hk]]. clear H.
  split.
  - do 8 (destruct r as [|r]; [do 8 (destruct r' as [|r'];
       [first [reflexivity | discriminate Hk]|]); lia|]). lia.
  - do 8 (destruct c as [|c]; [do 8 (destruct c' as [|c'];
       [first [reflexivity | discriminate Hf]|]); lia|]). lia.
Qed.

End Names.
End BusyFacts.

(** ** How the history grows and shrinks *)

Module HistoryFacts.
Section WithEngine.
Import Full.
Variable E : Chess.Engine.
Hypothesis L : Chess.Laws E.
Implicit Types st : State E.

Ltac normal :=
  rewrite ?(FullFacts.updateThreatOverlay_same L),
          ?(FullFacts.renderBoard_draw L).

(** An attempt to move leaves the history or adds one entry. *)
Lemma move_appends (g : Chess.GameState E) (o : Chess.MoveObj) :
  Chess.history E (fst (Chess.move E g o)) = Chess.history E g
  \/ exists san,
      Chess.history E (fst (Chess.move E g o))
      = Chess.history E g ++ [san].
Proof.
  destruct (Chess.move E g o) as [g' [m|]] eqn:Hm; cbn [fst].
  - right. exists (Chess.san m). apply (Chess.move_history L _ _ Hm).
  - left. rewrite (Chess.move_rejected L _ _ Hm). reflexivity.
Qed.

Lemma game_triggerAiMove st : game (triggerAiMove st) = game st.
Proof. unfold triggerAiMove. destruct (_ || _); reflexivity. Qed.

Lemma history_aiMoveDone m st :
  Chess.history E (game (aiMoveDone m st)) = Chess.history E (game st)
  \/ exists san,
      Chess.history E (game (aiMoveDone m st))
      = Chess.history E (game st) ++ [san].
Proof.
  destruct (FullTurn.aiMoveDone_facts L m st) as [-> _].
  apply move_appends.
Qed.

Lemma history_handle e st :
  Chess.history E (game (handle e st)) = Chess.history E (game st)
  \/ (exists san,
         Chess.history E (game (handle e st))
         = Chess.history E (game st) ++ [san])
  \/ (e = UndoBtn
      /\ exists san,
          Chess.history E (game st)
          = Chess.history E (game (handle e st)) ++ [san])
  \/ ((exists r, e = ResetBtn r)
      /\ Chess.history E (game (handle e st)) = []).
Proof.
  destruct e as [sq c | r | | | | | k r]; cbn [handle].
  - unfold onSquareClick. destruct (gated st); [left; reflexivity|].
    destruct (moveFrom st sq) as [sel|].
    + cbv zeta. rewrite game_triggerAiMove. normal. full_state.
      destruct (move_appends (game st)
                  (Chess.mkObj sel sq
                     (promotionFor E (game st) sel sq c))) as [H | H];
        [left | right; left]; exact H.
    + destruct (match Chess.get E (game st) sq with
                | Some p => _
                | None => false
                end); normal; left; reflexivity.
  - right. right. right. split; [exists r; reflexivity|].
    rewrite (FullInvariants.game_resetGame L).
    apply (Chess.reset_fresh L).
  - left. unfold flipBoard. normal. reflexivity.
  - unfold undoLastMove. destruct (aiThinking st); [left; reflexivity|].
    destruct (Chess.undo E (game st)) as [g [m|]] eqn:Hu.
    + right. right. left. split; [reflexivity|].
      exists (Chess.san m). normal. full_state.
      apply (Chess.undo_history L _ Hu).
    + left. destruct (Chess.undo_none L _ Hu) as [-> _]. reflexivity.
  - unfold redoMove. destruct (aiThinking st); [left; reflexivity|].
    destruct (pop (redoStack st)) as [[m rest]|]; [|left; reflexivity].
    normal. full_state.
    destruct (move_appends (game st) (Chess.redoObjOf m)) as [H | H];
      [left | right; left]; exact H.
  - left. unfold toggleThreats. normal. reflexivity.
  - destruct (takeOut k (timers st)) as [[[|el m] rest]|];
      [| |left; reflexivity].
    + unfold thinkTimeout. cbv zeta. full_state.
      destruct (_ =? 0); [left; reflexivity|].
      destruct (nth_error _ _) as [m|]; [|left; reflexivity].
      unfold animateAIMove. full_state.
      assert (Hdone : forall s : State E,
                 game s = game st ->
                 Chess.history E (game (aiMoveDone m s))
                 = Chess.history E (game st)
                 \/ (exists san,
                        Chess.history E (game (aiMoveDone m s))
                        = Chess.history E (game st) ++ [san])).
      { intros s Hs. rewrite <- Hs. apply history_aiMoveDone. }
      destruct (Chess.get E (game st) (Chess.from m)).
      * destruct (findSquare _ (Chess.from m)).
        -- destruct (findSquare _ (Chess.to m)); [left; reflexivity|].
           destruct (Hdone (setSelection None [] (setTimers rest st))
                           eq_refl) as [H | H];
             [left | right; left]; exact H.
        -- destruct (Hdone (setSelection None [] (setTimers rest st))
                           eq_refl) as [H | H];
             [left | right; left]; exact H.
      * destruct (Hdone (setSelection None [] (setTimers rest st))
                        eq_refl) as [H | H];
          [left | right; left]; exact H.
    + unfold animTimeout.
      destruct (existsb _ _); [|left; reflexivity].
      match goal with
      | |- context [aiMoveDone m ?s] =>
        destruct (history_aiMoveDone m s) as [H | H]
      end; [left | right; left]; exact H.
Qed.

End WithEngine.

Section AiScript.
Import Ai.
Variable E : Chess.Engine.
Implicit Types st : State E.

Let onTurn st : Prop :=
  aiColor st = Chess.other (playerColor st)
  /\ (aiThinking st = true -> Chess.turn E (game st) = aiColor st).

Lemma ai_onTurn_triggerAiMove st :
  aiColor st = Chess.other (playerColor st) ->
  aiThinking st = false -> onTurn (triggerAiMove st).
Proof.
  intros Hs Hidle. unfold onTurn, triggerAiMove.
  destruct (Chess.color_eqb _ _) eqn:Hc; cbn [negb orb].
  - apply FullFacts.color_eqb_eq in Hc.
    destruct (Chess.game_over E (game st));
      (split; [exact Hs | intros _; exact Hc]).
  - split; [exact Hs|]. rewrite Hidle. discriminate.
Qed.

Lemma ai_onTurn_handle e st : onTurn st -> onTurn (handle e st).
Proof.
  intros Hst. pose proof Hst as [Hs Hinv].
  destruct e as [sq | k r]; cbn [handle].
  - unfold onSquareClick, gated.
    destruct (aiThinking st) eqn:Hb; cbn [orb]; [exact Hst|].
    destruct (negb _); [exact Hst|].
    destruct (moveFrom st sq) as [sel|].
    + apply ai_onTurn_triggerAiMove; [exact Hs | exact Hb].
    + destruct (match Chess.get E (game st) sq with
                | Some p => _
                | None => false
                end); (split; [exact Hs|]); ai_state; rewrite Hb;
        discriminate.
  - destruct (Full.takeOut k (timers st)) as [[[|el m] rest]|];
      [| |split; assumption].
    + unfold thinkTimeout. cbv zeta. ai_state.
      destruct (_ =? 0); [split; [exact Hs | discriminate]|].
      destruct (nth_error _ _) as [m|]; [|split; assumption].
      unfold animateAIMove. ai_state.
      destruct (Chess.get E (game st) (Chess.from m));
        [|split; [exact Hs | discriminate]].
      destruct (_ && _); [|split; [exact Hs | discriminate]].
      split; assumption.
    + unfold animTimeout.
      destruct (existsb _ _); [|split; assumption].
      split; [exact Hs | discriminate].
Qed.

Lemma ai_onTurn_run es : forall st, onTurn st -> onTurn (run st es).
Proof.
  induction es as [|e es IH]; intros st Hst; [exact Hst|].
  change (run st (e :: es)) with (run (handle e st) es).
  apply IH. apply ai_onTurn_handle. exact Hst.
Qed.

Lemma ai_onTurn_boot r : onTurn (boot E r).
Proof.
  unfold boot. cbv zeta.
  destruct (aiColor _) eqn:Ha.
  - apply ai_onTurn_triggerAiMove; reflexivity.
  - split; [reflexivity | discriminate].
Qed.

Lemma ai_onTurn_reachable r es :
  aiColor (run (boot E r) es) = Chess.other (playerColor (run (boot E r) es))
  /\ (aiThinking (run (boot E r) es) = true ->
      Chess.turn E (game (run (boot E r) es)) = aiColor (run (boot E r) es)).
Proof. apply ai_onTurn_run. apply ai_onTurn_boot. Qed.

End AiScript.
End HistoryFacts.

(** ** What happens between the timers of the AI's turn *)

Module TurnFacts.
Section WithEngine.
Import Full.

Variable E : Chess.Engine.
Hypothesis L : Chess.Laws E.

Implicit Types st s : State E.

Lemma run_snoc s (es : list Event) (e : Event) :
  run s (es ++ [e]) = handle e (run s es).
Proof. unfold run. rewrite fold_left_app. reflexivity. Qed.

Lemma setShowThreats_same s : setShowThreats (showThreats s) s = s.
Proof. destruct s; reflexivity. Qed.

(** While the AI is busy a quiet event changes the threat switch at
    most. *)
Lemma quiet_handle e s :
  aiThinking s = true -> FullStep.quiet e ->
  exists b, handle e s = setShowThreats b s.
Proof.
  intros Hb Hq.
  destruct e as [sq c | r | | | | | k r]; try contradiction; cbn [handle].
  - exists (showThreats s). unfold onSquareClick, gated. rewrite Hb.
    cbn [orb]. symmetry. apply setShowThreats_same.
  - exists (showThreats s). unfold undoLastMove. rewrite Hb.
    symmetry. apply setShowThreats_same.
  - exists (showThreats s). unfold redoMove. rewrite Hb.
    symmetry. apply setShowThreats_same.
  - exists (negb (showThreats s)). unfold toggleThreats.
    apply (FullFacts.updateThreatOverlay_same L).
Qed.

Lemma quiet_run (es : list Event) : forall s,
  aiThinking s = true -> Forall FullStep.quiet es ->
  exists b, run s es = setShowThreats b s.
Proof.
  induction es as [|e es IH]; intros s Hb Hall.
  - exists (showThreats s). symmetry. apply setShowThreats_same.
  - inversion Hall as [|e' es' He Hrest]; subst.
    destruct (@quiet_handle e s Hb He) as [b Hstep].
    change (run s (e :: es)) with (run (handle e s) es).
    rewrite Hstep.
    destruct (IH (setShowThreats b s) Hb Hrest) as [b' Hrun].
    exists b'. rewrite Hrun. reflexivity.
Qed.

(** While the AI is thinking a harmless event keeps the game, the busy
    flag, the redo stack and the timers. *)
Lemma harmless_handle e s :
  aiThinking s = true -> FullStep.harmless e ->
  game (handle e s) = game s
  /\ aiThinking (handle e s) = true
  /\ redoStack (handle e s) = redoStack s
  /\ timers (handle e s) = timers s.
Proof.
  intros Hb Hh.
  destruct e as [sq c | r | | | | | k r]; try contradiction;
    try (destruct (@quiet_handle _ s Hb Hh) as [b ->];
         repeat split; exact Hb).
  cbn [handle]. unfold flipBoard.
  rewrite (FullFacts.renderBoard_draw L). repeat split. exact Hb.
Qed.

Lemma harmless_run (es : list Event) : forall s,
  aiThinking s = true -> Forall FullStep.harmless es ->
  game (run s es) = game s
  /\ aiThinking (run s es) = true
  /\ redoStack (run s es) = redoStack s
  /\ timers (run s es) = timers s.
Proof.
  induction es as [|e es IH]; intros s Hb Hall; [repeat split; exact Hb|].
  inversion Hall as [|e' es' He Hrest]; subst.
  destruct (@harmless_handle e s Hb He) as [Hg [Hb' [Hr Ht]]].
  change (run s (e :: es)) with (run (handle e s) es).
  destruct (IH (handle e s) Hb' Hrest) as [Hg2 [Hb2 [Hr2 Ht2]]].
  repeat split; congruence.
Qed.

(** The thinking timer queued last fires. *)
Lemma think_last (l : list Timer) s r :
  timers s = l ++ [Think] ->
  handle (Timeout (List.length l) r) s = thinkTimeout r (setTimers l s).
Proof.
  intros Ht. cbn [handle]. rewrite Ht, FullTurn.takeOut_last. reflexivity.
Qed.

(** [animateAIMove] either runs its callback at once or leaves the
    animation timer behind, with the moving element on the board. *)
Lemma animate_cases m s :
  (exists s0, game s0 = game s /\ timers s0 = timers s
              /\ animateAIMove m s = aiMoveDone m s0)
  \/ (aiThinking (animateAIMove m s) = aiThinking s
      /\ game (animateAIMove m s) = game s
      /\ selection (animateAIMove m s) = selection s
      /\ exists el,
          timers (animateAIMove m s) = timers s ++ [Anim el m]
          /\ In el (animEls (dom (animateAIMove m s)))).
Proof.
  unfold animateAIMove.
  destruct (Chess.get E (game s) (Chess.from m)); [|left; exists s; auto].
  destruct (findSquare (dom s) (Chess.from m)); [|left; exists s; auto].
  destruct (findSquare (dom s) (Chess.to m)); [|left; exists s; auto].
  right. unfold selection. full_state. repeat split.
  exists (fresh (dom s)). split; [reflexivity|].
  apply in_or_app. right. left. reflexivity.
Qed.

(** The animation timer, fired after quiet events, ends in the
    callback. *)
Lemma anim_after_quiet m el (l : list Timer) s (es : list Event) r' :
  aiThinking s = true -> timers s = l ++ [Anim el m] ->
  In el (animEls (dom s)) -> Forall FullStep.quiet es ->
  exists s0, game s0 = game s /\ timers s0 = l
             /\ handle (Timeout (List.length l) r') (run s es)
                = aiMoveDone m s0.
Proof.
  intros Hb Ht Hel Hall.
  destruct (@quiet_run es s Hb Hall) as [b ->].
  cbn [handle timers setShowThreats]. rewrite Ht, FullTurn.takeOut_last.
  unfold animTimeout. cbn [dom setTimers setShowThreats].
  assert (Hex : existsb (Nat.eqb el) (animEls (dom s)) = true).
  { apply existsb_exists. exists el. split; [exact Hel|].
    apply Nat.eqb_refl. }
  rewrite Hex. eexists. split; [|split; [|reflexivity]]; reflexivity.
Qed.

(** The callback on a state with the game and timers of [st] ends the
    turn that began in [st]. *)
Lemma done_aiMoveDone st m s0 :
  In m (Chess.moves E (game st) None) ->
  game s0 = game st -> timers s0 = timers st ->
  FullStep.turnDone st m (aiMoveDone m s0).
Proof.
  intros Hin Hg Ht.
  destruct (FullTurn.aiMoveDone_facts L m s0)
    as [Hgame [Hsel [Hposs [Hredo [Hbusy Htimers]]]]].
  unfold FullStep.turnDone, selection.
  rewrite Hgame, Hsel, Hposs, Hredo, Hbusy, Htimers, Hg, Ht.
  repeat split.
  destruct (Chess.move_legal L _ _ _ Hin) as [g' [m' Hmove]].
  rewrite Hmove. cbn [fst].
  rewrite (Chess.move_history L _ _ Hmove), length_app. simpl. lia.
Qed.

End WithEngine.
End TurnFacts.

(** ** The properties of the specification *)

(** C1 (turn gating).  While the AI is busy, or while it is not the human's
    turn, a click on any square returns the controller state it was given:
    game, selection, destinations, history and redo stack are all as
    before.  This holds for the click handler of [app_ai.js] and for the
    one of [part_000]. *)
Theorem turn_gating (E : Chess.Engine)
        (st : Full.State E) (st2 : Ai.State E)
        (square : string) (choice : option string) :
  Full.aiThinking st = true
  \/ Chess.turn E (Full.game st) <> Full.playerColor st ->
  Ai.aiThinking st2 = true
  \/ Chess.turn E (Ai.game st2) <> Ai.playerColor st2 ->
  Full.onSquareClick square choice st = st
  /\ Ai.onSquareClick square st2 = st2.
Proof.
  intros H H2.
  apply FullFacts.gated_iff in H. apply AiFacts.ai_gated_iff in H2.
  unfold Full.onSquareClick, Ai.onSquareClick.
  rewrite H, H2. split; reflexivity.
Qed.

Lemma turn_gating_witness :
  Full.onSquareClick "e7" None Scenario.humanBlack = Scenario.humanBlack
  /\ Ai.onSquareClick "e7" (Ai.boot Rules.engine (3 # 4))
     = Ai.boot Rules.engine (3 # 4).
Proof.
  apply turn_gating; left; vm_compute; reflexivity.
Defined.

(** C2 (a new move clears the redo stack).  Whenever an event other than
    the redo button makes the history longer (a click of the human that
    completes a move, or a timer of the AI that commits its move), the
    redo stack is empty afterwards. *)
Theorem new_move_clears_redo (E : Chess.Engine) (L : Chess.Laws E)
        (st : Full.State E) (e : Full.Event) :
  e <> Full.RedoBtn ->
  List.length (Chess.history E (Full.game st))
  < List.length (Chess.history E (Full.game (Full.handle e st))) ->
  Full.redoStack (Full.handle e st) = [].
Proof.
  intros Hredo.
  assert (Htrig : forall s : Full.State E,
             Full.redoStack (Full.triggerAiMove s) = Full.redoStack s).
  { intros s. unfold Full.triggerAiMove. destruct (_ || _); reflexivity. }
  assert (Hdone : forall m (s : Full.State E),
             Full.redoStack (Full.aiMoveDone m s) = []).
  { intros m s. unfold Full.aiMoveDone.
    rewrite (FullFacts.updateThreatOverlay_same L),
            (FullFacts.renderBoard_draw L). reflexivity. }
  destruct e as [sq c | r | | | | | k r]; cbn [Full.handle].
  - unfold Full.onSquareClick.
    destruct (Full.gated st); [lia|].
    destruct (Full.moveFrom st sq) as [sel|].
    + intros _. rewrite Htrig.
      rewrite (FullFacts.updateThreatOverlay_same L),
              (FullFacts.renderBoard_draw L). reflexivity.
    + destruct (match Chess.get E (Full.game st) sq with
                | Some p => _
                | None => false
                end);
        rewrite ?(FullFacts.updateThreatOverlay_same L),
                ?(FullFacts.renderBoard_draw L); full_state; lia.
  - intros _. reflexivity.
  - unfold Full.flipBoard. rewrite (FullFacts.renderBoard_draw L).
    full_state. lia.
  - unfold Full.undoLastMove. destruct (Full.aiThinking st); [lia|].
    destruct (Chess.undo E (Full.game st)) as [g [m|]] eqn:Hu.
    + rewrite (FullFacts.updateThreatOverlay_same L),
              (FullFacts.renderBoard_draw L). full_state.
      rewrite (Chess.undo_history L _ Hu), length_app. full_state. lia.
    + destruct (Chess.undo_none L _ Hu) as [-> _]. full_state. lia.
  - contradiction.
  - unfold Full.toggleThreats.
    rewrite (FullFacts.updateThreatOverlay_same L). full_state. lia.
  - destruct (Full.takeOut k (Full.timers st)) as [[[|el m] rest]|];
      [| |lia].
    + unfold Full.thinkTimeout. full_state.
      destruct (_ =? 0); [full_state; lia|].
      destruct (nth_error _ _) as [m|]; [|full_state; lia].
      unfold Full.animateAIMove. full_state.
      destruct (Chess.get E (Full.game st) (Chess.from m));
        [|intros _; apply Hdone].
      destruct (Full.findSquare _ (Chess.from m));
        [|intros _; apply Hdone].
      destruct (Full.findSquare _ (Chess.to m));
        [full_state; lia | intros _; apply Hdone].
    + unfold Full.animTimeout. full_state.
      destruct (existsb _ _); [intros _; apply Hdone | full_state; lia].
Qed.

Lemma new_move_clears_redo_witness :
  Full.redoStack
    (Full.handle (Full.Click "e4" None)
       (Full.handle (Full.Click "e2" None) Scenario.humanWhite)) = []
  /\ Full.redoStack
       (Full.handle (Full.Timeout 0 0)
          (Full.handle (Full.Timeout 0 0) Scenario.afterE4)) = [].
Proof.
  split; apply (new_move_clears_redo RulesFacts.laws);
    try discriminate; vm_compute; lia.
Defined.

(** C3 (undo/redo round trip).  In a reachable state with something
    played and the AI not busy, [redoMove] right after [undoLastMove]
    gives back the game that was there before the undo, hence a history of
    the same length: the move popped by the undo is handed to the engine
    again with its [from], [to] and [promotion], and the engine plays that
    very move.  The redo stack is as before as well. *)
Theorem undo_redo_round_trip (E : Chess.Engine) (L : Chess.Laws E)
        (st : Full.State E) :
  Full.Reachable st ->
  Full.aiThinking st = false ->
  Chess.history E (Full.game st) <> [] ->
  Full.game (Full.redoMove (Full.undoLastMove st)) = Full.game st
  /\ List.length
       (Chess.history E (Full.game (Full.redoMove (Full.undoLastMove st))))
     = List.length (Chess.history E (Full.game st))
  /\ Full.redoStack (Full.redoMove (Full.undoLastMove st))
     = Full.redoStack st
  /\ exists m,
      Chess.undo E (Full.game st)
      = (Full.game (Full.undoLastMove st), Some m)
      /\ Chess.move E (Full.game (Full.undoLastMove st))
           (Chess.mkObj (Chess.from m) (Chess.to m)
              (if Js.truthy (Chess.promotion m)
               then Chess.promotion m else None))
         = (Full.game (Full.redoMove (Full.undoLastMove st)), Some m).
Proof.
  intros Hreach Hbusy Hhist.
  destruct (FullHistory.undo_nonempty L _ Hhist) as [g' [m Hu]].
  pose proof (Chess.redo_undo L (FullHistory.reachable_played L Hreach) Hu)
    as Hredo.
  rewrite (FullHistory.undoLastMove_some L st Hbusy Hu).
  rewrite (@FullHistory.redoMove_some E L _ m (Full.redoStack st));
    [| reflexivity | full_state; apply FullHistory.pop_push].
  full_state. unfold Chess.redoObjOf in *. rewrite Hredo. full_state.
  repeat split.
  exists m. split; [exact Hu | exact Hredo].
Qed.

Lemma undo_redo_round_trip_witness :
  Full.game (Full.redoMove (Full.undoLastMove Scenario.afterReply))
  = Full.game Scenario.afterReply
  /\ List.length
       (Chess.history Rules.engine
          (Full.game (Full.redoMove (Full.undoLastMove Scenario.afterReply))))
     = List.length
         (Chess.history Rules.engine (Full.game Scenario.afterReply))
  /\ Full.redoStack (Full.redoMove (Full.undoLastMove Scenario.afterReply))
     = Full.redoStack Scenario.afterReply
  /\ exists m,
      Chess.undo Rules.engine (Full.game Scenario.afterReply)
      = (Full.game (Full.undoLastMove Scenario.afterReply), Some m)
      /\ Chess.move Rules.engine
           (Full.game (Full.undoLastMove Scenario.afterReply))
           (Chess.mkObj (Chess.from m) (Chess.to m)
              (if Js.truthy (Chess.promotion m)
               then Chess.promotion m else None))
         = (Full.game (Full.redoMove (Full.undoLastMove Scenario.afterReply)),
            Some m).
Proof.
  apply (undo_redo_round_trip RulesFacts.laws).
  - unfold Scenario.afterReply, Scenario.afterE4, Scenario.humanWhite.
    reachable_by_run FullFacts.reachable_run FullFacts.reachable_boot.
  - vm_compute. reflexivity.
  - vm_compute. discriminate.
Defined.

(** C4 (selection correctness).  When the human may act and clicks a
    square that holds a piece of the side to move and is not one of the
    current destinations, that square becomes the selection and the
    destinations become the [to] squares of the moves the engine lists for
    that square: the same squares, no more and no fewer. *)
Theorem selection_correct (E : Chess.Engine) (st : Full.State E)
        (square : string) (choice : option string) (p : Chess.Piece) :
  Full.aiThinking st = false ->
  Chess.turn E (Full.game st) = Full.playerColor st ->
  Chess.get E (Full.game st) square = Some p ->
  Chess.pcolor p = Chess.turn E (Full.game st) ->
  Js.includes (Full.possibleMoves st) square = false ->
  Full.selectedSquare (Full.onSquareClick square choice st) = Some square
  /\ Full.possibleMoves (Full.onSquareClick square choice st)
     = map Chess.to (Chess.moves E (Full.game st) (Some square))
  /\ forall d,
      In d (Full.possibleMoves (Full.onSquareClick square choice st))
      <-> exists m, In m (Chess.moves E (Full.game st) (Some square))
                    /\ Chess.to m = d.
Proof.
  intros Hbusy Hturn Hget Hown Hnot.
  assert (Hclick :
            Full.onSquareClick square choice st
            = Full.renderBoard
                (Full.setSelection
                   (Some square)
                   (map Chess.to (Chess.moves E (Full.game st) (Some square)))
                   st)).
  { unfold Full.onSquareClick, Full.gated, Full.moveFrom.
    rewrite Hbusy, Hget, Hown, !Hturn, Hnot.
    assert (Hrefl : Chess.color_eqb (Full.playerColor st)
                                    (Full.playerColor st) = true)
      by (apply FullFacts.color_eqb_eq; reflexivity).
    rewrite Hrefl. simpl.
    destruct (Full.selectedSquare st) as [sel|]; [|reflexivity].
    rewrite andb_false_r. reflexivity. }
  rewrite Hclick.
  destruct (FullFacts.selection_renderBoard
              (Full.setSelection
                 (Some square)
                 (map Chess.to (Chess.moves E (Full.game st) (Some square)))
                 st)) as [-> ->].
  simpl. repeat split; try reflexivity.
  - intros Hin. apply in_map_iff in Hin.
    destruct Hin as [m [Hto Hin]]. exists m. split; assumption.
  - intros [m [Hin Hto]]. apply in_map_iff. exists m. split; assumption.
Qed.

Lemma selection_correct_witness :
  Full.selectedSquare (Full.onSquareClick "e2" None Scenario.humanWhite)
  = Some "e2"%string
  /\ Full.possibleMoves (Full.onSquareClick "e2" None Scenario.humanWhite)
     = map Chess.to
           (Chess.moves Rules.engine (Full.game Scenario.humanWhite)
                        (Some "e2"%string))
  /\ forall d,
      In d (Full.possibleMoves
              (Full.onSquareClick "e2" None Scenario.humanWhite))
      <-> exists m,
          In m (Chess.moves Rules.engine (Full.game Scenario.humanWhite)
                            (Some "e2"%string))
          /\ Chess.to m = d.
Proof.
  apply (@selection_correct Rules.engine Scenario.humanWhite
           "e2" None (Chess.mkPiece Chess.Pawn Chess.White));
    vm_compute; reflexivity.
Defined.

(** The first scenario of the specification, run on the reference engine:
    from the starting position with the human playing White, a click on
    e2 selects it with destinations e3 and e4; a click on e4 then plays
    the move, the history is e4, the redo stack is empty and the AI has
    been triggered. *)
Example opening_scenario :
  Full.selection (Full.run Scenario.humanWhite [Full.Click "e2" None])
  = (Some "e2", ["e3"; "e4"])%string
  /\ Chess.history Rules.engine (Full.game Scenario.afterE4)
     = ["e4"%string]
  /\ Full.redoStack Scenario.afterE4 = []
  /\ Full.aiThinking Scenario.afterE4 = true
  /\ Full.timers Scenario.afterE4 = [Full.Think].
Proof. repeat split; vm_compute; reflexivity. Qed.

(** With the threat arrows on, every rendering tries the opponent's moves
    on the game and takes them back; on the reference engine the game is
    what it is without the arrows. *)
Example arrows_leave_the_game :
  Full.showThreats Scenario.arrowsOn = true
  /\ Chess.history Rules.engine (Full.game Scenario.arrowsOn)
     = ["a3"%string]
  /\ Full.aiThinking Scenario.arrowsOn = false.
Proof. repeat split; vm_compute; reflexivity. Qed.

(** C5, the failing input.  After 1. Nf3 Nf6 2. Ng1 Ng8 3. Nf3 Nf6 4. Ng1
    Ng8 the engine reports a draw (threefold repetition) and the status
    line says the game is over; the human may still act, and the clicks
    g1, f3 add a ninth move to the history.  The AI then does not answer. *)
Theorem human_moves_after_draw :
  Chess.in_draw Rules.engine (Full.game Scenario.repetition) = true
  /\ Full.statusLine Scenario.repetition = "Game over: draw."%string
  /\ Chess.history Rules.engine (Full.game Scenario.repetition)
     = ["Nf3"; "Nf6"; "Ng1"; "Ng8"; "Nf3"; "Nf6"; "Ng1"; "Ng8"]%string
  /\ Chess.history Rules.engine
       (Full.game
          (Full.run Scenario.repetition
                    [Full.Click "g1" None; Full.Click "f3" None]))
     = ["Nf3"; "Nf6"; "Ng1"; "Ng8"; "Nf3"; "Nf6"; "Ng1"; "Ng8";
        "Nf3"]%string
  /\ Full.timers
       (Full.run Scenario.repetition
                 [Full.Click "g1" None; Full.Click "f3" None]) = [].
Proof. repeat split; vm_compute; reflexivity. Qed.

(** C6 (promotion).  When the human completes a move from a square that
    holds a pawn to a square on the far rank of that pawn (rank 8 for
    White, rank 1 for Black), the engine is given that move with the
    chosen promotion: the lower-cased answer to the prompt when that is
    one of q, r, b, n, and queen when the prompt was cancelled or the
    answer is empty or anything else.  The answer "n" gives a knight, and
    so does "N": an answer in capitals is lower-cased to its code, where
    lower-casing changes the letters A to Z and nothing else. *)
Theorem promotion_handling (E : Chess.Engine) (L : Chess.Laws E)
        (st : Full.State E) (sel square : string)
        (choice : option string) (c : Chess.Color) :
  Full.gated st = false ->
  Full.moveFrom st square = Some sel ->
  Chess.get E (Full.game st) sel = Some (Chess.mkPiece Chess.Pawn c) ->
  Js.charAt square 1
  = Some (match c with Chess.White => "8" | Chess.Black => "1" end)%char ->
  Full.game (Full.onSquareClick square choice st)
  = fst (Chess.move E (Full.game st)
           (Chess.mkObj sel square (Some (Full.promotionChoice choice))))
  /\ (forall s,
         choice = Some s ->
         In (Js.toLowerCase s) ["q"; "r"; "b"; "n"]%string ->
         Full.promotionChoice choice = Js.toLowerCase s)
  /\ (choice = None
      \/ choice = Some ""%string
      \/ (exists s, choice = Some s
                    /\ ~ In (Js.toLowerCase s) ["q"; "r"; "b"; "n"]%string) ->
      Full.promotionChoice choice = "q"%string)
  /\ Full.promotionChoice (Some "n"%string) = "n"%string
  /\ map (fun s => Full.promotionChoice (Some s))
         ["q"; "r"; "b"; "n"; "Q"; "R"; "B"; "N"]%string
     = ["q"; "r"; "b"; "n"; "q"; "r"; "b"; "n"]%string
  /\ map (fun s => Full.promotionChoice (Some s))
         ["k"; "K"; "p"; "P"; "knight"; "Knight"; "nn"; "N "; "8"; " "]%string
     = repeat "q"%string 10
  /\ Js.toLowerCase "@AMZ[`amz{ 09=+-"%string = "@amz[`amz{ 09=+-"%string.
Proof.
  intros Hgate Hfrom Hget Hrank.
  split; [|split; [|split; [|repeat split]]].
  - unfold Full.onSquareClick. rewrite Hgate, Hfrom.
    assert (Hpromo : Full.promotionFor E (Full.game st) sel square choice
                     = Some (Full.promotionChoice choice)).
    { unfold Full.promotionFor, Full.promotes. rewrite Hget, Hrank.
      destruct c; reflexivity. }
    rewrite Hpromo.
    rewrite (FullFacts.updateThreatOverlay_same L),
            (FullFacts.renderBoard_draw L).
    unfold Full.triggerAiMove. destruct (_ || _); reflexivity.
  - intros s -> Hin. unfold Full.promotionChoice.
    assert (Hinc : Js.includes ["q"; "r"; "b"; "n"]%string
                               (Js.toLowerCase s) = true).
    { unfold Js.includes. apply existsb_exists.
      exists (Js.toLowerCase s). split; [exact Hin | apply String.eqb_refl]. }
    rewrite Hinc.
    destruct s as [|a s']; [simpl in Hin; intuition discriminate|].
    reflexivity.
  - intros [-> | [-> | [s [-> Hnot]]]]; try reflexivity.
    unfold Full.promotionChoice.
    destruct (Js.includes _ (Js.toLowerCase s)) eqn:Hinc.
    + exfalso. apply Hnot. unfold Js.includes in Hinc.
      apply existsb_exists in Hinc. destruct Hinc as [x [Hin Heq]].
      apply String.eqb_eq in Heq. subst x. exact Hin.
    + rewrite andb_false_r. reflexivity.
Qed.

Lemma promotion_handling_witness :
  Full.game (Full.onSquareClick "e8" (Some "N"%string) Scenario.e7Selected)
  = fst (Chess.move Rules.engine (Full.game Scenario.e7Selected)
           (Chess.mkObj "e7" "e8" (Some "n"%string)))
  /\ Full.promotionChoice (Some "N"%string) = Js.toLowerCase "N"
  /\ Full.promotionChoice (Some "N"%string) = "n"%string
  /\ Full.game (Full.onSquareClick "e8" (Some "x"%string) Scenario.e7Selected)
     = fst (Chess.move Rules.engine (Full.game Scenario.e7Selected)
              (Chess.mkObj "e7" "e8" (Some "q"%string))).
Proof.
  destruct (@promotion_handling Rules.engine RulesFacts.laws
              Scenario.e7Selected "e7" "e8" (Some "N"%string) Chess.White)
    as [Hgame [Hlower _]];
    try (vm_compute; reflexivity).
  destruct (@promotion_handling Rules.engine RulesFacts.laws
              Scenario.e7Selected "e7" "e8" (Some "x"%string) Chess.White)
    as [Hgame' [_ [Hqueen _]]];
    try (vm_compute; reflexivity).
  split; [exact Hgame|].
  assert (Hn : Full.promotionChoice (Some "N"%string) = Js.toLowerCase "N").
  { apply Hlower; [reflexivity|]. vm_compute. tauto. }
  split; [exact Hn|]. split; [rewrite Hn; reflexivity|].
  assert (Hq : Full.promotionChoice (Some "x"%string) = "q"%string).
  { apply Hqueen. right. right. exists "x"%string.
    split; [reflexivity|]. vm_compute. intuition discriminate. }
  rewrite Hgame', Hq. reflexivity.
Defined.

(** The promotion scenario of the specification, run on the reference
    engine: after the clicks on e7 and e8 with the answer "n" there is a
    white knight on e8 and the move is recorded as e8=N; the answer "N"
    gives the same, the answer "R" a rook, and a cancelled prompt or the
    answer "x" a queen. *)
Example promotion_scenario :
  Chess.get Rules.engine
    (Full.game (Full.onSquareClick "e8" (Some "n"%string)
                                   Scenario.e7Selected)) "e8"
  = Some (Chess.mkPiece Chess.Knight Chess.White)
  /\ Chess.history Rules.engine
       (Full.game (Full.onSquareClick "e8" (Some "n"%string)
                                      Scenario.e7Selected))
     = ["e8=N"%string]
  /\ Chess.history Rules.engine
       (Full.game (Full.onSquareClick "e8" (Some "N"%string)
                                      Scenario.e7Selected))
     = ["e8=N"%string]
  /\ Chess.history Rules.engine
       (Full.game (Full.onSquareClick "e8" (Some "R"%string)
                                      Scenario.e7Selected))
     = ["e8=R"%string]
  /\ Chess.history Rules.engine
       (Full.game (Full.onSquareClick "e8" None Scenario.e7Selected))
     = ["e8=Q"%string]
  /\ Chess.history Rules.engine
       (Full.game (Full.onSquareClick "e8" (Some "x"%string)
                                      Scenario.e7Selected))
     = ["e8=Q"%string].
Proof. repeat split; vm_compute; reflexivity. Qed.

(** C7 (where a selection comes from), as amended.  In [app_ai.js] and in
    the two-player script a selection is there only because the human
    clicked a square holding a piece of the side to move (in [app_ai.js]:
    while allowed to act), and it is that square with its destinations.
    In [part_000] the same holds, except that the thinking timer of the AI
    also sets the selection, to the source and destination of the move it
    picked. *)
Theorem selection_origin (E : Chess.Engine)
        (r : Q) (page : Full.Overlay) (es : list Full.Event)
        (clicks : list string)
        (r2 : Q) (es2 : list Ai.Event) :
  Full.selection (Full.run (Full.boot E r page) es) <> (None, []) ->
  Basic.selection (Basic.run (Basic.boot E) clicks) <> (None, []) ->
  Ai.selection (Ai.run (Ai.boot E r2) es2) <> (None, []) ->
  (exists before sq c after,
      es = before ++ Full.Click sq c :: after
      /\ Full.selects (Full.run (Full.boot E r page) before) sq
      /\ Full.selection (Full.run (Full.boot E r page) es)
         = (Some sq,
            map Chess.to
                (Chess.moves E
                   (Full.game (Full.run (Full.boot E r page) before))
                   (Some sq))))
  /\ (exists before sq,
         clicks = before ++ [sq]
         /\ Basic.selects (Basic.run (Basic.boot E) before) sq
         /\ Basic.selection (Basic.run (Basic.boot E) clicks)
            = (Some sq,
               map Chess.to
                   (Chess.moves E
                      (Basic.game (Basic.run (Basic.boot E) before))
                      (Some sq))))
  /\ ((exists before sq after,
          es2 = before ++ Ai.Click sq :: after
          /\ Ai.selects (Ai.run (Ai.boot E r2) before) sq
          /\ Ai.selection (Ai.run (Ai.boot E r2) es2)
             = (Some sq,
                map Chess.to
                    (Chess.moves E
                       (Ai.game (Ai.run (Ai.boot E r2) before))
                       (Some sq))))
      \/ (exists before k r' m after,
             es2 = before ++ Ai.Timeout k r' :: after
             /\ Ai.picks (Ai.run (Ai.boot E r2) before) k r' m
             /\ Ai.selection (Ai.run (Ai.boot E r2) es2)
                = (Some (Chess.from m), [Chess.to m]))).
Proof.
  intros Hfull Hbasic Hai.
  split; [|split].
  - apply SelectionFacts.full_trace. exact Hfull.
  - apply SelectionFacts.basic_trace. exact Hbasic.
  - apply SelectionFacts.ai_trace. exact Hai.
Qed.

Lemma selection_origin_witness :
  (exists before sq c after,
      [Full.Click "e2" None] = before ++ Full.Click sq c :: after
      /\ Full.selects
           (Full.run (Full.boot Rules.engine (1 # 4) Full.NoOverlay) before)
           sq
      /\ Full.selection
           (Full.run (Full.boot Rules.engine (1 # 4) Full.NoOverlay)
                     [Full.Click "e2" None])
         = (Some sq,
            map Chess.to
                (Chess.moves Rules.engine
                   (Full.game
                      (Full.run
                         (Full.boot Rules.engine (1 # 4) Full.NoOverlay)
                         before))
                   (Some sq))))
  /\ (exists before sq,
         ["e2"%string] = before ++ [sq]
         /\ Basic.selects (Basic.run (Basic.boot Rules.engine) before) sq
         /\ Basic.selection
              (Basic.run (Basic.boot Rules.engine) ["e2"%string])
            = (Some sq,
               map Chess.to
                   (Chess.moves Rules.engine
                      (Basic.game
                         (Basic.run (Basic.boot Rules.engine) before))
                      (Some sq))))
  /\ ((exists before sq after,
          [Ai.Timeout 0 0] = before ++ Ai.Click sq :: after
          /\ Ai.selects (Ai.run (Ai.boot Rules.engine (3 # 4)) before) sq
          /\ Ai.selection
               (Ai.run (Ai.boot Rules.engine (3 # 4)) [Ai.Timeout 0 0])
             = (Some sq,
                map Chess.to
                    (Chess.moves Rules.engine
                       (Ai.game
                          (Ai.run (Ai.boot Rules.engine (3 # 4)) before))
                       (Some sq))))
      \/ (exists before k r' m after,
             [Ai.Timeout 0 0] = before ++ Ai.Timeout k r' :: after
             /\ Ai.picks (Ai.run (Ai.boot Rules.engine (3 # 4)) before)
                         k r' m
             /\ Ai.selection
                  (Ai.run (Ai.boot Rules.engine (3 # 4)) [Ai.Timeout 0 0])
                = (Some (Chess.from m), [Chess.to m]))).
Proof.
  apply (@selection_origin Rules.engine (1 # 4) Full.NoOverlay
           [Full.Click "e2" None] ["e2"%string] (3 # 4) [Ai.Timeout 0 0]);
    vm_compute; discriminate.
Defined.

(** C7 as stated fails in [part_000]: when the AI plays White, the page
    has just loaded and the thinking timer fires (random number 0), the
    selection is a2 with destination a3, although there has been no
    click at all. *)
Lemma selection_without_click :
  Ai.selection (Ai.run (Ai.boot Rules.engine (3 # 4)) [Ai.Timeout 0 0])
  = (Some "a2"%string, ["a3"%string])
  /\ forall sq, ~ In (Ai.Click sq) [Ai.Timeout 0 0].
Proof.
  split; [vm_compute; reflexivity|].
  intros sq [H | []]. discriminate H.
Qed.

(** C8 (the automated turn).  [triggerAiMove] returns the state it was
    given when it is not the AI's turn or the game is over.  Otherwise it
    sets the busy flag and queues the thinking timer, and as long as the
    user only clicks squares or presses the undo, redo, threat or flip
    button ([es1]) the AI stays busy with the same game and redo stack.
    When the thinking timer then fires and there is no legal move, only
    the busy flag changes (back to false).  When there are [n] legal
    moves, the callback takes the move [m] at index
    [Math.floor(Math.random() * n)], which is inside the list for every
    random number [r]; either its callback has run by then and the turn
    is over, or the piece is moving: the AI is still busy, the selection
    is cleared, the animation timer holds [m], and after any clicks and
    presses of the undo, redo and threat buttons ([es2]) that timer ends
    the turn: the engine has been given exactly [m] (the history is one
    move longer), the selection and the redo stack are empty and the busy
    flag is false.  [r'] is the random number offered to the second
    timer, which does not use it.  In a list of at most [2^32] moves,
    longer than any array, every move is the one picked for some random
    number.  How likely a move is depends on how [Math.random()] draws
    its numbers, which the script does not say.

    Then comes the failing input.  After 1. e4 the thinking timer fires,
    the user presses the flip button while the piece is moving, and the
    animation timer fires: no move has been played, no timer is pending
    and the AI is still busy.  Without the flip the same timers make the
    AI answer Nc6.

    The index is the one JavaScript computes: for the random number
    0.44999999999999996 and 20 legal moves it is 9, the rounded product,
    although the exact product is below 9.

    Last, the case of no legal move is there for an engine that can be
    without a legal move in a game that is not over.  The reference
    engine cannot: without a legal move it is checkmate or stalemate. *)
Theorem automated_turn (E : Chess.Engine) (L : Chess.Laws E)
        (st : Full.State E) (r r' : Q) (es1 es2 : list Full.Event) :
  (0 <= r)%Q -> (r < 1)%Q ->
  Forall FullStep.harmless es1 -> Forall FullStep.quiet es2 ->
  (Chess.turn E (Full.game st) <> Full.aiColor st
   \/ Chess.game_over E (Full.game st) = true ->
   Full.triggerAiMove st = st)
  /\ (Chess.turn E (Full.game st) = Full.aiColor st ->
      Chess.game_over E (Full.game st) = false ->
      Full.aiThinking (Full.triggerAiMove st) = true
      /\ Full.aiThinking (Full.run (Full.triggerAiMove st) es1) = true
      /\ Full.game (Full.run (Full.triggerAiMove st) es1) = Full.game st
      /\ Full.redoStack (Full.run (Full.triggerAiMove st) es1)
         = Full.redoStack st
      /\ (Chess.moves E (Full.game st) None = [] ->
          Full.run (Full.triggerAiMove st)
                   (es1 ++ [Full.Timeout (List.length (Full.timers st)) r])
          = Full.setAiThinking false
              (Full.setTimers (Full.timers st)
                 (Full.run (Full.triggerAiMove st) es1)))
      /\ (Chess.moves E (Full.game st) None <> [] ->
          exists m,
            nth_error (Chess.moves E (Full.game st) None)
                      (Js.floorTimes r
                         (List.length (Chess.moves E (Full.game st) None)))
            = Some m
            /\ (Full.aiThinking
                  (Full.run (Full.triggerAiMove st)
                     (es1 ++ [Full.Timeout (List.length (Full.timers st)) r]))
                = false ->
                FullStep.turnDone st m
                  (Full.run (Full.triggerAiMove st)
                     (es1
                      ++ [Full.Timeout (List.length (Full.timers st)) r])))
            /\ (Full.aiThinking
                  (Full.run (Full.triggerAiMove st)
                     (es1 ++ [Full.Timeout (List.length (Full.timers st)) r]))
                = true ->
                Full.game
                  (Full.run (Full.triggerAiMove st)
                     (es1 ++ [Full.Timeout (List.length (Full.timers st)) r]))
                = Full.game st
                /\ Full.selection
                     (Full.run (Full.triggerAiMove st)
                        (es1
                         ++ [Full.Timeout (List.length (Full.timers st)) r]))
                   = (None, [])
                /\ (exists el,
                       Full.timers
                         (Full.run (Full.triggerAiMove st)
                            (es1
                             ++ [Full.Timeout (List.length (Full.timers st))
                                              r]))
                       = Full.timers st ++ [Full.Anim el m])
                /\ FullStep.turnDone st m
                     (Full.run
                        (Full.run (Full.triggerAiMove st)
                           (es1
                            ++ [Full.Timeout (List.length (Full.timers st))
                                             r]))
                        (es2
                         ++ [Full.Timeout (List.length (Full.timers st))
                                          r'])))
            /\ FullStep.turnDone st m
                 (Full.run (Full.triggerAiMove st)
                    [Full.Timeout (List.length (Full.timers st)) r;
                     Full.Timeout (List.length (Full.timers st)) r']))
      /\ ((Z.of_nat (List.length (Chess.moves E (Full.game st) None))
           <= 2 ^ 32)%Z ->
          forall i m,
            nth_error (Chess.moves E (Full.game st) None) i = Some m ->
            exists r0,
              (0 <= r0)%Q /\ (r0 < 1)%Q
              /\ Js.floorTimes r0
                   (List.length (Chess.moves E (Full.game st) None)) = i))
  /\ (Full.aiThinking Session.flipAfterE4 = true
      /\ Full.timers Session.flipAfterE4 = []
      /\ Chess.history Rules.engine (Full.game Session.flipAfterE4)
         = ["e4"%string]
      /\ Full.aiThinking Scenario.afterReply = false
      /\ Chess.history Rules.engine (Full.game Scenario.afterReply)
         = ["e4"; "Nc6"]%string)
  /\ (Js.floorTimes Session.justBelow45 20 = 9
      /\ Qfloor (Session.justBelow45 * 20)%Q = 8%Z)
  /\ (forall g,
         Chess.moves Rules.engine g None = [] ->
         Chess.game_over Rules.engine g = true).
Proof.
  intros Hr0 Hr1 Hes1 Hes2.
  split; [apply FullTurn.triggerAiMove_idle|].
  split;
    [|split; [repeat split; vm_compute; reflexivity|];
      split; [split; reflexivity | exact RulesFacts.no_moves_game_over]].
  intros Hturn Hover.
  rewrite (FullTurn.triggerAiMove_starts st Hturn Hover).
  set (s0 := Full.setTimers (Full.timers st ++ [Full.Think])
                            (Full.setAiThinking true st)).
  assert (Hb0 : Full.aiThinking s0 = true) by reflexivity.
  destruct (@TurnFacts.harmless_run E L es1 s0 Hb0 Hes1)
    as [Hg1 [Hb1 [Hredo1 Ht1]]].
  change (Full.game s0) with (Full.game st) in Hg1.
  change (Full.redoStack s0) with (Full.redoStack st) in Hredo1.
  change (Full.timers s0) with (Full.timers st ++ [Full.Think]) in Ht1.
  set (s1 := Full.run s0 es1) in *.
  assert (Hthink :
            Full.run s0 (es1 ++ [Full.Timeout (List.length (Full.timers st)) r])
            = Full.thinkTimeout r (Full.setTimers (Full.timers st) s1)).
  { rewrite TurnFacts.run_snoc. apply TurnFacts.think_last. exact Ht1. }
  split; [reflexivity|]. split; [exact Hb1|]. split; [exact Hg1|].
  split; [exact Hredo1|]. split; [|split].
  - intros Hnil. rewrite Hthink.
    unfold Full.thinkTimeout. full_state. rewrite Hg1, Hnil.
    destruct s1; reflexivity.
  - intros Hne.
    remember (Chess.moves E (Full.game st) None) as ms eqn:Hms.
    assert (Hn : 0 < List.length ms).
    { destruct ms; [contradiction | simpl; lia]. }
    pose proof (JsFacts.floorTimes_lt Hr0 Hr1 Hn) as Hidx.
    destruct (nth_error ms (Js.floorTimes r (List.length ms))) as [m|] eqn:Hnth;
      [|apply nth_error_None in Hnth; lia].
    assert (Hin : In m (Chess.moves E (Full.game st) None)).
    { rewrite <- Hms. exact (nth_error_In _ _ Hnth). }
    exists m. split; [reflexivity|].
    assert (Hz : (List.length ms =? 0) = false)
      by (apply Nat.eqb_neq; lia).
    split; [|split].
    + (* the callback has run at once *)
      rewrite Hthink. unfold Full.thinkTimeout. full_state.
      rewrite Hg1, <- Hms, Hnth, Hz.
      destruct (@TurnFacts.animate_cases E m
                  (Full.setSelection None []
                     (Full.setTimers (Full.timers st) s1)))
        as [[s2 [Hg2 [Ht2 Heq]]] | [Hbusy _]].
      * intros _. rewrite Heq.
        apply (@TurnFacts.done_aiMoveDone E L st m s2 Hin).
        -- rewrite Hg2. exact Hg1.
        -- exact Ht2.
      * full_state. rewrite Hbusy, Hb1. discriminate.
    + (* the piece is moving *)
      rewrite Hthink. unfold Full.thinkTimeout. full_state.
      rewrite Hg1, <- Hms, Hnth, Hz.
      destruct (@TurnFacts.animate_cases E m
                  (Full.setSelection None []
                     (Full.setTimers (Full.timers st) s1)))
        as [[s2 [Hg2 [Ht2 Heq]]]
            | [Hbusy [Hgame [Hsel [el [Htim Hel]]]]]].
      * rewrite Heq.
        destruct (FullTurn.aiMoveDone_facts L m s2)
          as [_ [_ [_ [_ [Hidle _]]]]].
        rewrite Hidle. discriminate.
      * intros Hstill. full_state. split; [rewrite Hgame; exact Hg1|].
        split; [rewrite Hsel; reflexivity|].
        split; [exists el; exact Htim|].
        rewrite TurnFacts.run_snoc.
        destruct (@TurnFacts.anim_after_quiet E L m el (Full.timers st) _ es2
                     r' Hstill Htim Hel Hes2) as [s3 [Hg3 [Ht3 Heq3]]].
        rewrite Heq3.
        apply (@TurnFacts.done_aiMoveDone E L st m s3 Hin).
        -- rewrite Hg3, Hgame. exact Hg1.
        -- exact Ht3.
    + (* the two timers one after the other *)
      unfold Full.run. cbn [fold_left]. fold s0.
      unfold s0 at 1. rewrite FullTurn.think_fires.
      unfold Full.thinkTimeout. full_state. rewrite <- Hms, Hnth, Hz.
      destruct (FullTurn.animation_completes L m
                  (Full.setSelection None [] (Full.setAiThinking true st)) r')
        as [s2 [Hg2 [Ht2 Heq]]].
      full_state. rewrite Heq.
      apply (@TurnFacts.done_aiMoveDone E L st m s2 Hin); assumption.
  - intros Hlen i m Hnth.
    assert (Hi : i < List.length (Chess.moves E (Full.game st) None)).
    { apply nth_error_Some. rewrite Hnth. discriminate. }
    destruct (JsFacts.floorTimes_onto Hi Hlen) as [H0 [H1 H2]].
    eexists. split; [exact H0|]. split; [exact H1 | exact H2].
Qed.

Lemma automated_turn_witness :
  Full.triggerAiMove Scenario.afterReply = Scenario.afterReply
  /\ Full.aiThinking (Full.triggerAiMove Scenario.replyUndone) = true
  /\ Full.redoStack Scenario.replyUndone <> []
  /\ Qfloor (Session.justBelow45 * 20)%Q = 8%Z
  /\ (exists m,
         nth_error
           (Chess.moves Rules.engine (Full.game Scenario.replyUndone) None)
           (Js.floorTimes Session.justBelow45
              (List.length
                 (Chess.moves Rules.engine (Full.game Scenario.replyUndone)
                              None)))
         = Some m
         /\ Chess.san m = "c5"%string
         /\ FullStep.turnDone Scenario.replyUndone m
              (Full.run
                 (Full.run (Full.triggerAiMove Scenario.replyUndone)
                    ([Full.Click "e7" None; Full.FlipBtn; Full.ThreatBtn;
                      Full.UndoBtn]
                     ++ [Full.Timeout
                           (List.length (Full.timers Scenario.replyUndone))
                           Session.justBelow45]))
                 ([Full.Click "e2" None; Full.RedoBtn; Full.ThreatBtn]
                  ++ [Full.Timeout
                        (List.length (Full.timers Scenario.replyUndone))
                        0])))
  /\ exists r0,
      (0 <= r0)%Q /\ (r0 < 1)%Q
      /\ Js.floorTimes r0
           (List.length
              (Chess.moves Rules.engine (Full.game Scenario.replyUndone)
                           None))
         = 13.
Proof.
  assert (Hr0 : (0 <= Session.justBelow45)%Q) by (vm_compute; discriminate).
  assert (Hr1 : (Session.justBelow45 < 1)%Q) by reflexivity.
  assert (Hes1 : Forall (A := Full.Event) FullStep.harmless
                   [Full.Click "e7" None; Full.FlipBtn; Full.ThreatBtn;
                    Full.UndoBtn])
    by (repeat constructor).
  assert (Hes2 : Forall (A := Full.Event) FullStep.quiet
                   [Full.Click "e2" None; Full.RedoBtn; Full.ThreatBtn])
    by (repeat constructor).
  assert (Hturn : Chess.turn Rules.engine (Full.game Scenario.replyUndone)
                  = Full.aiColor Scenario.replyUndone)
    by (vm_compute; reflexivity).
  assert (Hover : Chess.game_over Rules.engine
                    (Full.game Scenario.replyUndone) = false)
    by (vm_compute; reflexivity).
  assert (Hmoves : Chess.moves Rules.engine
                     (Full.game Scenario.replyUndone) None <> [])
    by (vm_compute; discriminate).
  assert (Hlen : (Z.of_nat
                    (List.length
                       (Chess.moves Rules.engine
                          (Full.game Scenario.replyUndone) None))
                  <= 2 ^ 32)%Z)
    by (vm_compute; discriminate).
  destruct (automated_turn RulesFacts.laws Scenario.afterReply 0
              Hr0 Hr1 Hes1 Hes2) as [Hidle _].
  destruct (automated_turn RulesFacts.laws Scenario.replyUndone 0
              Hr0 Hr1 Hes1 Hes2) as [_ [Hmain _]].
  destruct (Hmain Hturn Hover) as [Hbusy [_ [_ [_ [_ [Hmove Honto]]]]]].
  split; [apply Hidle; left; vm_compute; discriminate|].
  split; [exact Hbusy|].
  split; [vm_compute; discriminate|].
  split; [reflexivity|].
  split.
  - destruct (Hmove Hmoves) as [m [Hnth [_ [Hanim _]]]].
    exists m. split; [exact Hnth|].
    split.
    + revert Hnth. vm_compute. intros Heq. injection Heq as <-. reflexivity.
    + apply Hanim. vm_compute. reflexivity.
  - assert (Hsome : exists m,
               nth_error
                 (Chess.moves Rules.engine (Full.game Scenario.replyUndone)
                              None) 13 = Some m)
      by (vm_compute; eexists; reflexivity).
    destruct Hsome as [m Hm]. exact (Honto Hlen 13 m Hm).
Defined.


(** C9 (undo).  [undoLastMove] returns the state it was given when the AI
    is busy or nothing has been played.  Otherwise the engine takes back
    exactly the last move of the history, that move is pushed on the redo
    stack, the selection is cleared, the AI stays not busy, and the
    history is one move shorter. *)
Theorem undo_semantics (E : Chess.Engine) (L : Chess.Laws E)
        (st : Full.State E) :
  (Full.aiThinking st = true \/ Chess.history E (Full.game st) = [] ->
   Full.undoLastMove st = st)
  /\ (Full.aiThinking st = false ->
      Chess.history E (Full.game st) <> [] ->
      exists m,
        Chess.undo E (Full.game st)
        = (Full.game (Full.undoLastMove st), Some m)
        /\ Chess.history E (Full.game st)
           = Chess.history E (Full.game (Full.undoLastMove st))
               ++ [Chess.san m]
        /\ S (List.length
                (Chess.history E (Full.game (Full.undoLastMove st))))
           = List.length (Chess.history E (Full.game st))
        /\ Full.redoStack (Full.undoLastMove st) = Full.redoStack st ++ [m]
        /\ Full.selectedSquare (Full.undoLastMove st) = None
        /\ Full.possibleMoves (Full.undoLastMove st) = []
        /\ Full.aiThinking (Full.undoLastMove st) = false).
Proof.
  split.
  - apply (FullHistory.undoLastMove_none L).
  - intros Hbusy Hhist.
    destruct (FullHistory.undo_nonempty L _ Hhist) as [g' [m Hu]].
    exists m.
    rewrite (FullHistory.undoLastMove_some L st Hbusy Hu). simpl.
    pose proof (Chess.undo_history L _ Hu) as Hh.
    repeat split; try assumption.
    rewrite Hh, length_app. simpl. lia.
Qed.

Lemma undo_semantics_witness :
  Full.undoLastMove Scenario.afterE4 = Scenario.afterE4
  /\ exists m,
      Chess.undo Rules.engine (Full.game Scenario.afterReply)
      = (Full.game (Full.undoLastMove Scenario.afterReply), Some m)
      /\ Chess.history Rules.engine (Full.game Scenario.afterReply)
         = Chess.history Rules.engine
             (Full.game (Full.undoLastMove Scenario.afterReply))
           ++ [Chess.san m]
      /\ S (List.length
              (Chess.history Rules.engine
                 (Full.game (Full.undoLastMove Scenario.afterReply))))
         = List.length
             (Chess.history Rules.engine (Full.game Scenario.afterReply))
      /\ Full.redoStack (Full.undoLastMove Scenario.afterReply)
         = Full.redoStack Scenario.afterReply ++ [m]
      /\ Full.selectedSquare (Full.undoLastMove Scenario.afterReply) = None
      /\ Full.possibleMoves (Full.undoLastMove Scenario.afterReply) = []
      /\ Full.aiThinking (Full.undoLastMove Scenario.afterReply) = false.
Proof.
  split.
  - apply (undo_semantics RulesFacts.laws Scenario.afterE4).
    left. vm_compute. reflexivity.
  - apply (undo_semantics RulesFacts.laws Scenario.afterReply).
    + vm_compute. reflexivity.
    + vm_compute. discriminate.
Defined.

(** C10, the failing input.  The flip button re-renders the board while
    the AI's piece is moving, which detaches the moving element; the
    animation timer then stops at [removeChild] and never reaches the
    callback.  The move is not played, no timer is pending, and the busy
    flag stays true whatever happens next, short of a reset.  Without the
    flip the move a3 is played and the flag is cleared. *)
Theorem flip_during_animation :
  Full.aiThinking Scenario.flipWhileMoving = true
  /\ Full.timers Scenario.flipWhileMoving = []
  /\ Chess.history Rules.engine (Full.game Scenario.flipWhileMoving) = []
  /\ (forall es,
         (forall r, ~ In (Full.ResetBtn r) es) ->
         Full.aiThinking (Full.run Scenario.flipWhileMoving es) = true
         /\ Chess.history Rules.engine
              (Full.game (Full.run Scenario.flipWhileMoving es)) = [])
  /\ Full.aiThinking Scenario.noFlip = false
  /\ Chess.history Rules.engine (Full.game Scenario.noFlip)
     = ["a3"%string].
Proof.
  assert (Hbusy : Full.aiThinking Scenario.flipWhileMoving = true)
    by (vm_compute; reflexivity).
  assert (Htimers : Full.timers Scenario.flipWhileMoving = [])
    by (vm_compute; reflexivity).
  assert (Hhist : Chess.history Rules.engine
                    (Full.game Scenario.flipWhileMoving) = [])
    by (vm_compute; reflexivity).
  split; [exact Hbusy|]. split; [exact Htimers|]. split; [exact Hhist|].
  split; [|split; vm_compute; reflexivity].
  intros es Hreset.
  destruct (FullTurn.stuck_run RulesFacts.laws es _ Hbusy Htimers Hreset)
    as [Hb Hg].
  split; [exact Hb|]. rewrite Hg. exact Hhist.
Qed.

(** ** Further properties of the controller *)

(** X1.  [verifyBoard], called at the end of [renderBoard], never finds a
    mismatch on the squares that were just drawn, so its re-render is not
    taken and [renderBoard] ends. *)
Theorem verifyBoard_finds_nothing (E : Chess.Engine) (st : Full.State E) :
  Full.boardMismatch (Full.drawBoard st) = false.
Proof. apply FullInvariants.verifyBoard_after_draw. Qed.

(** X2.  In every reachable state of [app_ai.js] the destination set is
    the list of [to] squares that the engine gives, in the present game,
    for the selected square, and it is empty when no square is selected:
    whatever changes the game clears the selection. *)
Theorem destinations_are_current (E : Chess.Engine) (L : Chess.Laws E)
        (st : Full.State E) :
  Full.Reachable st ->
  match Full.selectedSquare st with
  | Some sq =>
    Full.possibleMoves st
    = map Chess.to (Chess.moves E (Full.game st) (Some sq))
  | None => Full.possibleMoves st = []
  end.
Proof. apply (FullInvariants.selectionCurrent_reachable L). Qed.

Lemma destinations_are_current_witness :
  match Full.selectedSquare
          (Full.run Scenario.afterReply [Full.Click "d2" None]) with
  | Some sq =>
    Full.possibleMoves (Full.run Scenario.afterReply [Full.Click "d2" None])
    = map Chess.to
          (Chess.moves Rules.engine
             (Full.game
                (Full.run Scenario.afterReply [Full.Click "d2" None]))
             (Some sq))
  | None =>
    Full.possibleMoves (Full.run Scenario.afterReply [Full.Click "d2" None])
    = []
  end.
Proof.
  apply (destinations_are_current RulesFacts.laws).
  unfold Scenario.afterReply, Scenario.afterE4, Scenario.humanWhite.
  reachable_by_run FullFacts.reachable_run FullFacts.reachable_boot.
Defined.

(** X3 (side assignment).  In every reachable state of [app_ai.js] the AI
    plays the colour the human does not play. *)
Theorem sides_are_complementary (E : Chess.Engine) (L : Chess.Laws E)
        (st : Full.State E) :
  Full.Reachable st ->
  Full.aiColor st = Chess.other (Full.playerColor st)
  /\ Full.aiColor st <> Full.playerColor st.
Proof.
  intros Hreach.
  pose proof (FullInvariants.sides_reachable L Hreach) as H.
  split; [exact H|]. rewrite H.
  destruct (Full.playerColor st); discriminate.
Qed.

Lemma sides_are_complementary_witness :
  Full.aiColor (Full.resetGame (7 # 8) Scenario.afterReply)
  = Chess.other (Full.playerColor (Full.resetGame (7 # 8) Scenario.afterReply))
  /\ Full.aiColor (Full.resetGame (7 # 8) Scenario.afterReply)
     <> Full.playerColor (Full.resetGame (7 # 8) Scenario.afterReply).
Proof.
  apply (sides_are_complementary RulesFacts.laws).
  unfold Scenario.afterReply, Scenario.afterE4, Scenario.humanWhite.
  apply (FullFacts.reachable_run (st := Full.run _ _) [Full.ResetBtn (7 # 8)]).
  reachable_by_run FullFacts.reachable_run FullFacts.reachable_boot.
Defined.

(** X4 (checkmate is final).  In a reachable state of [app_ai.js] in which
    the engine reports checkmate, no sequence of clicks changes the game,
    [triggerAiMove] does nothing, and [resetGame] gives a game with an
    empty history that is neither checkmate nor a draw. *)
Theorem checkmate_is_final (E : Chess.Engine) (L : Chess.Laws E)
        (st : Full.State E) (es : list Full.Event) (r : Q) :
  Full.Reachable st ->
  Chess.in_checkmate E (Full.game st) = true ->
  Forall (fun e => exists sq c, e = Full.Click sq c) es ->
  Full.game (Full.run st es) = Full.game st
  /\ Full.triggerAiMove st = st
  /\ Chess.history E (Full.game (Full.resetGame r st)) = []
  /\ Chess.in_checkmate E (Full.game (Full.resetGame r st)) = false
  /\ Chess.in_draw E (Full.game (Full.resetGame r st)) = false.
Proof.
  intros Hreach Hmate Hclicks.
  split; [apply (FullInvariants.checkmate_clicks L); assumption|].
  split.
  - apply FullTurn.triggerAiMove_idle. right.
    rewrite (Chess.game_over_iff L), Hmate. reflexivity.
  - rewrite (FullInvariants.game_resetGame L).
    apply (Chess.reset_fresh L).
Qed.

Lemma checkmate_is_final_witness :
  Full.game
    (Full.run Scenario.foolsMate
              [Full.Click "e1" None; Full.Click "f2" None])
  = Full.game Scenario.foolsMate
  /\ Full.triggerAiMove Scenario.foolsMate = Scenario.foolsMate
  /\ Chess.history Rules.engine
       (Full.game (Full.resetGame (1 # 4) Scenario.foolsMate)) = []
  /\ Chess.in_checkmate Rules.engine
       (Full.game (Full.resetGame (1 # 4) Scenario.foolsMate)) = false
  /\ Chess.in_draw Rules.engine
       (Full.game (Full.resetGame (1 # 4) Scenario.foolsMate)) = false.
Proof.
  apply (checkmate_is_final RulesFacts.laws).
  - unfold Scenario.foolsMate, Scenario.humanWhite.
    reachable_by_run FullFacts.reachable_run FullFacts.reachable_boot.
  - vm_compute. reflexivity.
  - repeat constructor; eauto.
Defined.

(** X5 (the AI's turn ends in [part_000]).  With random numbers from 0 to
    below 1, in every reachable state of [part_000] the AI is idle with no
    timer pending, or thinking with exactly its thinking timer pending, or
    animating with exactly its animation timer pending and the moving
    element still attached; and firing what is pending (at most two
    timers) leaves the busy flag false. *)
Theorem ai_turn_ends (E : Chess.Engine) (r0 r : Q) (es : list Ai.Event) :
  Forall Ai.inRange es ->
  (0 <= r)%Q -> (r < 1)%Q ->
  Ai.inStep (Ai.run (Ai.boot E r0) es)
  /\ Ai.aiThinking
       (Ai.run (Ai.run (Ai.boot E r0) es) [Ai.Timeout 0 r; Ai.Timeout 0 r])
     = false.
Proof.
  intros Hes Hr0 Hr1.
  assert (Hinv : Ai.inStep (Ai.run (Ai.boot E r0) es))
    by (apply AiTurn.inStep_run; [exact Hes | apply AiTurn.inStep_boot]).
  split; [exact Hinv|].
  apply AiTurn.inStep_finishes; assumption.
Qed.

Lemma ai_turn_ends_witness :
  Ai.inStep
    (Ai.run (Ai.boot Rules.engine (3 # 4)) [Ai.Timeout 0 (1 # 2)])
  /\ Ai.aiThinking
       (Ai.run
          (Ai.run (Ai.boot Rules.engine (3 # 4)) [Ai.Timeout 0 (1 # 2)])
          [Ai.Timeout 0 0; Ai.Timeout 0 0])
     = false.
Proof.
  apply ai_turn_ends.
  - repeat constructor; discriminate.
  - apply Qle_refl.
  - reflexivity.
Defined.

(** X6 (the automated turn in [part_000]).  [triggerAiMove] does nothing
    when it is not the AI's turn or the game is over; otherwise it sets
    the busy flag, and its timers either find no legal move and clear the
    flag, or hand the move at index [Math.floor(Math.random() * n)] to the
    engine, clear the selection and clear the flag.  [r] is the random
    number the thinking timer draws, [r'] the one offered to the
    animation timer, which does not use it. *)
Theorem ai_automated_turn (E : Chess.Engine) (L : Chess.Laws E)
        (st : Ai.State E) (r r' : Q) :
  (0 <= r)%Q -> (r < 1)%Q ->
  (Chess.turn E (Ai.game st) <> Ai.aiColor st
   \/ Chess.game_over E (Ai.game st) = true ->
   Ai.triggerAiMove st = st)
  /\ (Chess.turn E (Ai.game st) = Ai.aiColor st ->
      Chess.game_over E (Ai.game st) = false ->
      Ai.aiThinking (Ai.triggerAiMove st) = true
      /\ (Chess.moves E (Ai.game st) None = [] ->
          Ai.handle (Ai.Timeout (List.length (Ai.timers st)) r)
                    (Ai.triggerAiMove st)
          = Ai.setAiThinking false st)
      /\ (Chess.moves E (Ai.game st) None <> [] ->
          exists m,
            nth_error (Chess.moves E (Ai.game st) None)
                      (Js.floorTimes r
                         (List.length (Chess.moves E (Ai.game st) None)))
            = Some m
            /\ Ai.game
                 (Ai.run (Ai.triggerAiMove st)
                    [Ai.Timeout (List.length (Ai.timers st)) r;
                     Ai.Timeout (List.length (Ai.timers st)) r'])
               = fst (Chess.move E (Ai.game st) (Chess.objOf m))
            /\ List.length
                 (Chess.history E
                    (Ai.game
                       (Ai.run (Ai.triggerAiMove st)
                          [Ai.Timeout (List.length (Ai.timers st)) r;
                           Ai.Timeout (List.length (Ai.timers st)) r'])))
               = S (List.length (Chess.history E (Ai.game st)))
            /\ Ai.selection
                 (Ai.run (Ai.triggerAiMove st)
                    [Ai.Timeout (List.length (Ai.timers st)) r;
                     Ai.Timeout (List.length (Ai.timers st)) r'])
               = (None, [])
            /\ Ai.aiThinking
                 (Ai.run (Ai.triggerAiMove st)
                    [Ai.Timeout (List.length (Ai.timers st)) r;
                     Ai.Timeout (List.length (Ai.timers st)) r'])
               = false)).
Proof.
  intros Hr0 Hr1. split; [apply AiTurn.ai_triggerAiMove_idle|].
  intros Hturn Hover.
  rewrite (AiTurn.ai_triggerAiMove_starts st Hturn Hover).
  split; [reflexivity|]. split.
  - intros Hnil. rewrite AiTurn.ai_think_fires.
    unfold Ai.thinkTimeout. ai_state. rewrite Hnil. reflexivity.
  - intros Hne.
    remember (Chess.moves E (Ai.game st) None) as ms eqn:Hms.
    assert (Hn : 0 < List.length ms).
    { destruct ms; [contradiction | simpl; lia]. }
    pose proof (JsFacts.floorTimes_lt Hr0 Hr1 Hn) as Hidx.
    destruct (nth_error ms (Js.floorTimes r (List.length ms))) as [m|] eqn:Hnth;
      [|apply nth_error_None in Hnth; lia].
    exists m. split; [reflexivity|].
    unfold Ai.run. cbn [fold_left]. rewrite AiTurn.ai_think_fires.
    unfold Ai.thinkTimeout. ai_state. rewrite <- Hms, Hnth.
    destruct (List.length ms =? 0) eqn:Hz;
      [apply Nat.eqb_eq in Hz; lia|].
    cbv zeta.
    destruct (AiTurn.ai_animation_completes m
                (Ai.renderBoard
                   (Ai.setSelection (Some (Chess.from m)) [Chess.to m]
                                    (Ai.setAiThinking true st))) r')
      as [st0 [Hg [Ht Heq]]].
    ai_state. rewrite Heq.
    destruct (AiTurn.ai_aiMoveDone_facts m st0) as [Hgame [Hsel [Hbusy _]]].
    rewrite Hgame, Hsel, Hbusy, Hg.
    repeat split.
    apply nth_error_In in Hnth. rewrite Hms in Hnth.
    destruct (Chess.move_legal L _ _ _ Hnth) as [g' [m' Hmove]].
    rewrite Hmove. cbn [fst].
    rewrite (Chess.move_history L _ _ Hmove), length_app. simpl. lia.
Qed.

Lemma ai_automated_turn_witness :
  Ai.triggerAiMove
    (Ai.run (Ai.boot Rules.engine (3 # 4)) [Ai.Timeout 0 0; Ai.Timeout 0 0])
  = Ai.run (Ai.boot Rules.engine (3 # 4)) [Ai.Timeout 0 0; Ai.Timeout 0 0]
  /\ Ai.triggerAiMove Session.aiLoaded = Ai.boot Rules.engine (3 # 4)
  /\ Ai.aiThinking (Ai.triggerAiMove Session.aiLoaded) = true
  /\ Qfloor (Session.justBelow45 * 20)%Q = 8%Z
  /\ exists m,
      nth_error (Chess.moves Rules.engine (Ai.game Session.aiLoaded) None)
                (Js.floorTimes Session.justBelow45
                   (List.length
                      (Chess.moves Rules.engine (Ai.game Session.aiLoaded)
                                   None)))
      = Some m
      /\ Chess.san m = "e4"%string
      /\ Ai.game
           (Ai.run (Ai.triggerAiMove Session.aiLoaded)
              [Ai.Timeout (List.length (Ai.timers Session.aiLoaded))
                          Session.justBelow45;
               Ai.Timeout (List.length (Ai.timers Session.aiLoaded)) 0])
         = fst (Chess.move Rules.engine (Ai.game Session.aiLoaded)
                           (Chess.objOf m))
      /\ List.length
           (Chess.history Rules.engine
              (Ai.game
                 (Ai.run (Ai.triggerAiMove Session.aiLoaded)
                    [Ai.Timeout (List.length (Ai.timers Session.aiLoaded))
                                Session.justBelow45;
                     Ai.Timeout (List.length (Ai.timers Session.aiLoaded))
                                0])))
         = S (List.length
                (Chess.history Rules.engine (Ai.game Session.aiLoaded)))
      /\ Ai.selection
           (Ai.run (Ai.triggerAiMove Session.aiLoaded)
              [Ai.Timeout (List.length (Ai.timers Session.aiLoaded))
                          Session.justBelow45;
               Ai.Timeout (List.length (Ai.timers Session.aiLoaded)) 0])
         = (None, [])
      /\ Ai.aiThinking
           (Ai.run (Ai.triggerAiMove Session.aiLoaded)
              [Ai.Timeout (List.length (Ai.timers Session.aiLoaded))
                          Session.justBelow45;
               Ai.Timeout (List.length (Ai.timers Session.aiLoaded)) 0])
         = false.
Proof.
  assert (Hr0 : (0 <= Session.justBelow45)%Q) by (vm_compute; discriminate).
  assert (Hr1 : (Session.justBelow45 < 1)%Q) by reflexivity.
  assert (Hturn : Chess.turn Rules.engine (Ai.game Session.aiLoaded)
                  = Ai.aiColor Session.aiLoaded)
    by (vm_compute; reflexivity).
  assert (Hover : Chess.game_over Rules.engine (Ai.game Session.aiLoaded)
                  = false)
    by (vm_compute; reflexivity).
  assert (Hmoves : Chess.moves Rules.engine (Ai.game Session.aiLoaded) None
                   <> [])
    by (vm_compute; discriminate).
  destruct (ai_automated_turn RulesFacts.laws
              (Ai.run (Ai.boot Rules.engine (3 # 4))
                      [Ai.Timeout 0 0; Ai.Timeout 0 0]) 0 Hr0 Hr1)
    as [Hidle _].
  destruct (ai_automated_turn RulesFacts.laws Session.aiLoaded 0 Hr0 Hr1)
    as [_ Hmain].
  destruct (Hmain Hturn Hover) as [Hbusy [_ Hmove]].
  split; [apply Hidle; left; vm_compute; discriminate|].
  split; [reflexivity|]. split; [exact Hbusy|]. split; [reflexivity|].
  destruct (Hmove Hmoves) as [m [Hnth Hrest]].
  exists m. split; [exact Hnth|]. split; [|exact Hrest].
  revert Hnth. vm_compute. intros Heq. injection Heq as <-. reflexivity.
Defined.

(** X7 (the move list, its length).  [updateMoveList] leaves one list item
    for every two entries of the history, rounded up: none for an empty
    history, and a last item for White alone when the number of moves is
    odd.  Its loop is over after at most as many rounds as the history has
    entries; letting it run longer adds nothing. *)
Theorem move_list_length (history : list string) (more : nat) :
  List.length (View.updateMoveList history)
  = (List.length history + 1) / 2
  /\ View.listItems history 0 (List.length history + more)
     = View.updateMoveList history.
Proof.
  split.
  - unfold View.updateMoveList.
    rewrite ViewFacts.listItems_length by lia.
    rewrite Nat.sub_0_r, Nat.add_1_r. apply Nat.div2_div.
  - apply ViewFacts.listItems_rounds; lia.
Qed.

(** X8 (the move list, its text).  When no entry of the history is the
    empty string, the list items read one after the other, with a space
    between them, are the entries of the history in their order with a
    space between them: every move is shown once, White's before Black's
    answer in the same item. *)
Theorem move_list_reads_as_history (history : list string) :
  Forall (fun san => san <> ""%string) history ->
  String.concat " " (View.updateMoveList history)
  = String.concat " " history.
Proof.
  intros Hne. unfold View.updateMoveList.
  rewrite ViewFacts.listItems_concat; [reflexivity | exact Hne | lia].
Qed.

Lemma move_list_reads_as_history_witness :
  String.concat " " (View.updateMoveList ["e4"; "e5"; "Nf3"]%string)
  = String.concat " " ["e4"; "e5"; "Nf3"]%string.
Proof.
  apply move_list_reads_as_history.
  repeat constructor; discriminate.
Defined.

(** X9 (the status text).  [updateStatus] writes the line naming the
    human's colour, a line break, and the line on the state of the game.
    That second line begins with "Game over: " exactly when the engine's
    [game_over] holds, the test by which [triggerAiMove] refuses to move;
    otherwise it names the side to move. *)
Theorem status_announces_game_over (E : Chess.Engine) (L : Chess.Laws E)
        (st : Full.State E) :
  View.updateStatus st
  = ("You are playing "
     ++ (match Full.playerColor st with
         | Chess.White => "White"
         | Chess.Black => "Black"
         end)
     ++ ".<br>" ++ Full.statusLine st)%string
  /\ String.prefix "Game over: " (Full.statusLine st)
     = Chess.game_over E (Full.game st)
  /\ String.prefix
       (match Chess.turn E (Full.game st) with
        | Chess.White => "White to move."
        | Chess.Black => "Black to move."
        end) (Full.statusLine st)
     = negb (Chess.game_over E (Full.game st)).
Proof.
  rewrite (Chess.game_over_iff L).
  unfold View.updateStatus, Full.statusLine.
  destruct (Full.playerColor st), (Chess.turn E (Full.game st)),
    (Chess.in_checkmate E (Full.game st)), (Chess.in_draw E (Full.game st)),
    (Chess.in_check E (Full.game st)); repeat split; reflexivity.
Qed.

Lemma status_announces_game_over_witness :
  View.updateStatus Scenario.foolsMate
  = ("You are playing "
     ++ (match Full.playerColor Scenario.foolsMate with
         | Chess.White => "White"
         | Chess.Black => "Black"
         end)
     ++ ".<br>" ++ Full.statusLine Scenario.foolsMate)%string
  /\ String.prefix "Game over: " (Full.statusLine Scenario.foolsMate)
     = Chess.game_over Rules.engine (Full.game Scenario.foolsMate)
  /\ String.prefix
       (match Chess.turn Rules.engine (Full.game Scenario.foolsMate) with
        | Chess.White => "White to move."
        | Chess.Black => "Black to move."
        end) (Full.statusLine Scenario.foolsMate)
     = negb (Chess.game_over Rules.engine (Full.game Scenario.foolsMate)).
Proof.
  exact (status_announces_game_over RulesFacts.laws Scenario.foolsMate).
Defined.

(** X10 (flipping the board, the squares).  [flipBoard] draws the same 64
    square elements as a plain [renderBoard], each with the same name and
    the same piece image, in the reverse order: the board is turned by
    half a turn. *)
Theorem flip_reverses_squares (E : Chess.Engine) (st : Full.State E) :
  Full.squareEls (Full.dom (Full.flipBoard st))
  = rev (Full.squareEls (Full.dom (Full.renderBoard st)))
  /\ List.length (Full.squareEls (Full.dom (Full.flipBoard st))) = 64.
Proof.
  unfold Full.flipBoard, Full.renderBoard.
  rewrite !PageFacts.dom_updateThreatOverlay.
  unfold Full.drawBoard. full_state. cbn [Full.squareEls].
  split.
  - rewrite <- map_rev. f_equal.
    destruct (Full.flipped st); reflexivity.
  - rewrite length_map. destruct (Full.flipped st); reflexivity.
Qed.

(** X11 (flipping the board, the state).  [flipBoard] changes neither the
    game nor the selection, the redo stack, the busy flag or the pending
    timers, and flipping twice gives what one [renderBoard] gives. *)
Theorem flip_twice_is_render (E : Chess.Engine) (L : Chess.Laws E)
        (st : Full.State E) :
  Full.flipBoard (Full.flipBoard st) = Full.renderBoard st
  /\ Full.game (Full.flipBoard st) = Full.game st
  /\ Full.selection (Full.flipBoard st) = Full.selection st
  /\ Full.redoStack (Full.flipBoard st) = Full.redoStack st
  /\ Full.aiThinking (Full.flipBoard st) = Full.aiThinking st
  /\ Full.timers (Full.flipBoard st) = Full.timers st
  /\ Full.flipped (Full.flipBoard st) = negb (Full.flipped st).
Proof.
  unfold Full.flipBoard.
  rewrite !(FullFacts.renderBoard_draw L).
  split; [|repeat split].
  unfold Full.drawBoard. full_state.
  rewrite negb_involutive.
  destruct st as [g p a b rs sh fl sel pm [sq an ov fr] ts]. full_state.
  cbn [Full.overlay Full.fresh]. destruct ov; reflexivity.
Qed.

Lemma flip_twice_is_render_witness :
  Full.flipBoard (Full.flipBoard Session.e2Selected)
  = Full.renderBoard Session.e2Selected
  /\ Full.game (Full.flipBoard Session.e2Selected)
     = Full.game Session.e2Selected
  /\ Full.selection (Full.flipBoard Session.e2Selected)
     = Full.selection Session.e2Selected
  /\ Full.redoStack (Full.flipBoard Session.e2Selected)
     = Full.redoStack Session.e2Selected
  /\ Full.aiThinking (Full.flipBoard Session.e2Selected)
     = Full.aiThinking Session.e2Selected
  /\ Full.timers (Full.flipBoard Session.e2Selected)
     = Full.timers Session.e2Selected
  /\ Full.flipped (Full.flipBoard Session.e2Selected)
     = negb (Full.flipped Session.e2Selected).
Proof.
  exact (flip_twice_is_render RulesFacts.laws Session.e2Selected).
Defined.

(** X12 (the threat overlay leaves the game alone).  Every move that
    [updateThreatOverlay] tries on the game object it takes back, so the
    controller state after it is the state before it; switching the
    arrows on and off again with [toggleThreats] gives back the state,
    and one press inverts [showThreats]. *)
Theorem threat_probe_restores_game (E : Chess.Engine) (L : Chess.Laws E)
        (st : Full.State E) :
  Full.updateThreatOverlay st = st
  /\ fst (View.collectThreats st) = Full.game st
  /\ Full.toggleThreats (Full.toggleThreats st) = st
  /\ Full.showThreats (Full.toggleThreats st) = negb (Full.showThreats st).
Proof.
  split; [apply (FullFacts.updateThreatOverlay_same L)|].
  split; [apply (PageFacts.collectThreats_game L)|].
  unfold Full.toggleThreats.
  rewrite !(FullFacts.updateThreatOverlay_same L). full_state.
  split; [|reflexivity].
  rewrite negb_involutive. destruct st; reflexivity.
Qed.

Lemma threat_probe_restores_game_witness :
  Full.updateThreatOverlay Session.arrowsOnAiTurn = Session.arrowsOnAiTurn
  /\ fst (View.collectThreats Session.arrowsOnAiTurn)
     = Full.game Session.arrowsOnAiTurn
  /\ Full.toggleThreats (Full.toggleThreats Session.arrowsOnAiTurn)
     = Session.arrowsOnAiTurn
  /\ Full.showThreats (Full.toggleThreats Session.arrowsOnAiTurn)
     = negb (Full.showThreats Session.arrowsOnAiTurn).
Proof.
  exact (threat_probe_restores_game RulesFacts.laws Session.arrowsOnAiTurn).
Defined.

(** X13 (the overlay that [initThreatOverlay] creates is lost).  The
    overlay element survives only when the page itself has one outside
    the board container.  An overlay inside the container, which is where
    [initThreatOverlay] puts the one it creates, is removed by the first
    [renderBoard] when it empties the container; from then on, in every
    state the page can reach, [updateThreatOverlay] finds no overlay,
    draws no arrow and tries no move, whatever [showThreats] says. *)
Theorem overlay_is_lost (E : Chess.Engine) (r : Q) (page : Full.Overlay)
        (es : list Full.Event) :
  match page with
  | Full.OutsideBoard =>
    Full.overlay (Full.dom (Full.run (Full.boot E r page) es))
    = Full.OutsideBoard
  | _ =>
    Full.overlay (Full.dom (Full.run (Full.boot E r page) es))
    = Full.NoOverlay
    /\ View.arrows (Full.run (Full.boot E r page) es) = []
    /\ Full.updateThreatOverlay (Full.run (Full.boot E r page) es)
       = Full.run (Full.boot E r page) es
  end.
Proof.
  assert (Hov : Full.overlay (Full.dom (Full.run (Full.boot E r page) es))
                = match page with
                  | Full.OutsideBoard => Full.OutsideBoard
                  | _ => Full.NoOverlay
                  end).
  { rewrite PageFacts.overlay_run; rewrite PageFacts.overlay_boot;
      destruct page; try reflexivity; discriminate. }
  destruct page; [| |exact Hov];
    (split; [exact Hov|];
     unfold View.arrows, Full.updateThreatOverlay; rewrite Hov;
     split; reflexivity).
Qed.

(** X14 (no arrows while the human is to move).  chess.js lists moves
    only for pieces of the side to move.  With an engine that does so,
    [updateThreatOverlay] called while it is the human's turn collects no
    threat and draws no arrow, and leaves the game untouched: the
    opponent's pieces, the only ones it asks about, have no move then. *)
Theorem no_arrows_on_human_turn (E : Chess.Engine) (st : Full.State E) :
  (forall g row col p,
      In (row, col) Board.cells ->
      Chess.board E g row col = Some p ->
      Chess.pcolor p <> Chess.turn E g ->
      Chess.moves E g (Some (Board.squareName row col)) = []) ->
  Chess.turn E (Full.game st) = Full.playerColor st ->
  View.collectThreats st = (Full.game st, [])
  /\ View.arrows st = []
  /\ Full.updateThreatOverlay st = st.
Proof.
  intros Hside Hturn.
  pose proof (PageFacts.collectThreats_none st Hside Hturn) as Hnone.
  split; [exact Hnone|]. split.
  - unfold View.arrows. rewrite Hnone.
    destruct (Full.overlay (Full.dom st)); [reflexivity| |];
      destruct (negb (Full.showThreats st)); reflexivity.
  - unfold Full.updateThreatOverlay.
    destruct (Full.overlay (Full.dom st)); [reflexivity| |];
      (destruct (negb (Full.showThreats st)); [reflexivity|];
       rewrite FullFacts.fold_left_fixed; [apply FullFacts.setGame_same|];
       intros [row col] Hin;
       destruct (Chess.board E (Full.game st) row col) as [p|] eqn:Hp;
         [|reflexivity];
       destruct (Chess.color_eqb _ _) eqn:Hc; [|reflexivity];
       apply FullFacts.color_eqb_eq in Hc;
       rewrite (Hside _ _ _ _ Hin Hp); [reflexivity|];
       rewrite Hc, Hturn; destruct (Full.playerColor st); discriminate).
Qed.

Lemma no_arrows_on_human_turn_witness :
  View.collectThreats Session.arrowsOnHumanTurn
  = (Full.game Session.arrowsOnHumanTurn, [])
  /\ View.arrows Session.arrowsOnHumanTurn = []
  /\ Full.updateThreatOverlay Session.arrowsOnHumanTurn
     = Session.arrowsOnHumanTurn.
Proof.
  apply (@no_arrows_on_human_turn Rules.engine Session.arrowsOnHumanTurn).
  - exact RulesSide.side_only.
  - vm_compute. reflexivity.
Defined.

(** While the AI is to move the arrows are there: after 1. e4 d5 2. a3,
    with the overlay next to the board and the arrows switched on, the one
    arrow is the capture d5 to e4, and the game is as it was played. *)
Example arrows_on_ai_turn :
  View.arrows Session.arrowsOnAiTurn
  = [View.mkThreat "d5" "e4" View.CaptureThreat]
  /\ Chess.history Rules.engine (Full.game Session.arrowsOnAiTurn)
     = ["e4"; "d5"; "a3"]%string.
Proof. split; vm_compute; reflexivity. Qed.

(** X15 (the AI's turn ends in [app_ai.js] when nothing re-renders the
    board under the moving piece).  As long as the flip and reset
    buttons are pressed only while the AI is idle, and random numbers
    are from 0 to below 1, every state the page reaches has the AI idle
    with no timer pending, or thinking with exactly its thinking timer
    pending, or animating with exactly its animation timer pending and
    the moving element attached; firing what is pending (at most two
    timers) leaves the busy flag false and nothing pending. *)
Theorem full_turn_ends_when_calm (E : Chess.Engine) (r0 : Q)
        (page : Full.Overlay) (es : list Full.Event) (r : Q) :
  FullStep.calmRun (Full.boot E r0 page) es ->
  (0 <= r)%Q -> (r < 1)%Q ->
  FullStep.inStep (Full.run (Full.boot E r0 page) es)
  /\ Full.aiThinking
       (Full.run (Full.run (Full.boot E r0 page) es)
                 [Full.Timeout 0 r; Full.Timeout 0 r]) = false
  /\ Full.timers
       (Full.run (Full.run (Full.boot E r0 page) es)
                 [Full.Timeout 0 r; Full.Timeout 0 r]) = [].
Proof.
  intros Hcalm Hr0 Hr1.
  assert (Hinv : FullStep.inStep (Full.run (Full.boot E r0 page) es))
    by (apply FullStepFacts.full_inStep_run;
        [exact Hcalm | apply FullStepFacts.full_inStep_boot]).
  split; [exact Hinv|].
  apply FullStepFacts.full_inStep_finishes; assumption.
Qed.

Lemma full_turn_ends_when_calm_witness :
  FullStep.inStep
    (Full.run (Full.boot Rules.engine (3 # 4) Full.NoOverlay)
              [Full.Timeout 0 (1 # 2); Full.ThreatBtn; Full.Timeout 0 0;
               Full.FlipBtn])
  /\ Full.aiThinking
       (Full.run
          (Full.run (Full.boot Rules.engine (3 # 4) Full.NoOverlay)
                    [Full.Timeout 0 (1 # 2); Full.ThreatBtn;
                     Full.Timeout 0 0; Full.FlipBtn])
          [Full.Timeout 0 0; Full.Timeout 0 0]) = false
  /\ Full.timers
       (Full.run
          (Full.run (Full.boot Rules.engine (3 # 4) Full.NoOverlay)
                    [Full.Timeout 0 (1 # 2); Full.ThreatBtn;
                     Full.Timeout 0 0; Full.FlipBtn])
          [Full.Timeout 0 0; Full.Timeout 0 0]) = [].
Proof.
  apply full_turn_ends_when_calm.
  - cbn [FullStep.calmRun FullStep.calm].
    repeat split; try discriminate; vm_compute; reflexivity.
  - apply Qle_refl.
  - reflexivity.
Defined.

(** X16 (what [resetGame] leaves).  After [resetGame] the game is the
    engine's fresh game with an empty history, nothing is selected, the
    redo stack is empty, the board is not flipped, the human plays White
    when the random number is below one half and Black otherwise, and the
    AI plays the other colour.  The AI is set thinking exactly when it
    plays White and White is to move.  Timers that were pending are not
    cancelled: they are all still pending, followed by the new thinking
    timer if the AI was set thinking. *)
Theorem reset_contract (E : Chess.Engine) (L : Chess.Laws E)
        (st : Full.State E) (r : Q) :
  Full.game (Full.resetGame r st) = Chess.reset E (Full.game st)
  /\ Chess.history E (Full.game (Full.resetGame r st)) = []
  /\ Full.selection (Full.resetGame r st) = (None, [])
  /\ Full.redoStack (Full.resetGame r st) = []
  /\ Full.flipped (Full.resetGame r st) = false
  /\ Full.playerColor (Full.resetGame r st)
     = (if Js.ltHalf r then Chess.White else Chess.Black)
  /\ Full.aiColor (Full.resetGame r st)
     = Chess.other (Full.playerColor (Full.resetGame r st))
  /\ Full.aiThinking (Full.resetGame r st)
     = negb (Js.ltHalf r)
       && Chess.color_eqb (Chess.turn E (Chess.reset E (Full.game st)))
                          Chess.White
  /\ Full.timers (Full.resetGame r st)
     = Full.timers st
       ++ (if Full.aiThinking (Full.resetGame r st)
           then [Full.Think] else []).
Proof.
  destruct (RedoFacts.resetGame_state L r st)
    as [Hg [Hsel [Hredo [Hflip [Hp [Ha [Hbusy Ht]]]]]]].
  split; [exact Hg|].
  split; [rewrite Hg; apply (Chess.reset_fresh L)|].
  split; [exact Hsel|]. split; [exact Hredo|]. split; [exact Hflip|].
  split; [exact Hp|]. split; [rewrite Ha, Hp; reflexivity|].
  split; [exact Hbusy | exact Ht].
Qed.

Lemma reset_contract_witness :
  Full.game (Full.resetGame (1 # 4) Scenario.humanBlack)
  = Chess.reset Rules.engine (Full.game Scenario.humanBlack)
  /\ Chess.history Rules.engine
       (Full.game (Full.resetGame (1 # 4) Scenario.humanBlack)) = []
  /\ Full.selection (Full.resetGame (1 # 4) Scenario.humanBlack)
     = (None, [])
  /\ Full.redoStack (Full.resetGame (1 # 4) Scenario.humanBlack) = []
  /\ Full.flipped (Full.resetGame (1 # 4) Scenario.humanBlack) = false
  /\ Full.playerColor (Full.resetGame (1 # 4) Scenario.humanBlack)
     = (if Js.ltHalf (1 # 4) then Chess.White else Chess.Black)
  /\ Full.aiColor (Full.resetGame (1 # 4) Scenario.humanBlack)
     = Chess.other
         (Full.playerColor (Full.resetGame (1 # 4) Scenario.humanBlack))
  /\ Full.aiThinking (Full.resetGame (1 # 4) Scenario.humanBlack)
     = negb (Js.ltHalf (1 # 4))
       && Chess.color_eqb
            (Chess.turn Rules.engine
               (Chess.reset Rules.engine (Full.game Scenario.humanBlack)))
            Chess.White
  /\ Full.timers (Full.resetGame (1 # 4) Scenario.humanBlack)
     = Full.timers Scenario.humanBlack
       ++ (if Full.aiThinking (Full.resetGame (1 # 4) Scenario.humanBlack)
           then [Full.Think] else []).
Proof.
  exact (reset_contract RulesFacts.laws Scenario.humanBlack (1 # 4)).
Defined.

(** X17 (many undos, as many redos).  In a reachable state with the AI
    not busy, pressing undo [n] times and then redo [n] times, for any
    [n] up to the number of moves played, gives back the game and the
    redo stack that were there, and the AI is still not busy. *)
Theorem undo_redo_many_round_trip (E : Chess.Engine) (L : Chess.Laws E)
        (st : Full.State E) (n : nat) :
  Full.Reachable st ->
  Full.aiThinking st = false ->
  n <= List.length (Chess.history E (Full.game st)) ->
  Full.game
    (Full.run st (repeat Full.UndoBtn n ++ repeat Full.RedoBtn n))
  = Full.game st
  /\ Full.redoStack
       (Full.run st (repeat Full.UndoBtn n ++ repeat Full.RedoBtn n))
     = Full.redoStack st
  /\ Full.aiThinking
       (Full.run st (repeat Full.UndoBtn n ++ repeat Full.RedoBtn n))
     = false.
Proof.
  intros Hreach Hbusy Hlen.
  apply (RedoFacts.undo_redo_many L);
    [apply (FullHistory.reachable_played L Hreach) | exact Hbusy | exact Hlen].
Qed.

Lemma undo_redo_many_round_trip_witness :
  Full.game
    (Full.run Scenario.afterReply
              (repeat Full.UndoBtn 2 ++ repeat Full.RedoBtn 2))
  = Full.game Scenario.afterReply
  /\ Full.redoStack
       (Full.run Scenario.afterReply
                 (repeat Full.UndoBtn 2 ++ repeat Full.RedoBtn 2))
     = Full.redoStack Scenario.afterReply
  /\ Full.aiThinking
       (Full.run Scenario.afterReply
                 (repeat Full.UndoBtn 2 ++ repeat Full.RedoBtn 2))
     = false.
Proof.
  apply (undo_redo_many_round_trip RulesFacts.laws).
  - unfold Scenario.afterReply, Scenario.afterE4, Scenario.humanWhite.
    reachable_by_run FullFacts.reachable_run FullFacts.reachable_boot.
  - vm_compute. reflexivity.
  - vm_compute. lia.
Defined.

(** X18 (the redo stack can always be replayed).  In a reachable state
    with the AI not busy, pressing redo once for every move on the redo
    stack empties the stack, and each press is accepted by the engine:
    the history grows by the notations of the stacked moves, the one
    undone last coming first. *)
Theorem redo_stack_replays (E : Chess.Engine) (L : Chess.Laws E)
        (st : Full.State E) :
  Full.Reachable st ->
  Full.aiThinking st = false ->
  Full.redoStack
    (Full.run st (repeat Full.RedoBtn (List.length (Full.redoStack st))))
  = []
  /\ Chess.history E
       (Full.game
          (Full.run st
             (repeat Full.RedoBtn (List.length (Full.redoStack st)))))
     = Chess.history E (Full.game st)
       ++ map Chess.san (rev (Full.redoStack st)).
Proof.
  intros Hreach Hbusy.
  destruct (@RedoFacts.redo_all E L (List.length (Full.redoStack st)) st)
    as [H1 [H2 _]];
    [apply (RedoFacts.replayable_reachable L Hreach)
    | exact Hbusy | reflexivity |].
  split; [exact H1 | exact H2].
Qed.

Lemma redo_stack_replays_witness :
  Full.redoStack
    (Full.run Session.twoUndone
       (repeat Full.RedoBtn (List.length (Full.redoStack Session.twoUndone))))
  = []
  /\ Chess.history Rules.engine
       (Full.game
          (Full.run Session.twoUndone
             (repeat Full.RedoBtn
                     (List.length (Full.redoStack Session.twoUndone)))))
     = Chess.history Rules.engine (Full.game Session.twoUndone)
       ++ map Chess.san (rev (Full.redoStack Session.twoUndone)).
Proof.
  apply (redo_stack_replays RulesFacts.laws).
  - unfold Session.twoUndone, Scenario.afterReply, Scenario.afterE4,
      Scenario.humanWhite.
    reachable_by_run FullFacts.reachable_run FullFacts.reachable_boot.
  - vm_compute. reflexivity.
Defined.

(** The session of X18 on the reference engine: after 1. e4 Nc6 and two
    undos the history is empty and the stack holds Nc6 below e4; two
    redos give the history e4, Nc6 again. *)
Example two_undone_two_redone :
  Chess.history Rules.engine (Full.game Session.twoUndone) = []
  /\ map Chess.san (Full.redoStack Session.twoUndone)
     = ["Nc6"; "e4"]%string
  /\ Chess.history Rules.engine
       (Full.game
          (Full.run Session.twoUndone [Full.RedoBtn; Full.RedoBtn]))
     = ["e4"; "Nc6"]%string.
Proof. repeat split; vm_compute; reflexivity. Qed.

(** X19 (current destinations in the other two scripts).  In the
    two-player script, after any sequence of clicks, the destinations are
    the [to] squares the engine lists in the present game for the selected
    square, and there are none when nothing is selected.  In [part_000]
    the same holds whenever the AI is not busy (while it is, the
    selection may be the highlight of the AI's own move); random numbers
    are from 0 to below 1. *)
Theorem destinations_current_elsewhere (E : Chess.Engine)
        (clicks : list string) (r0 : Q) (es : list Ai.Event) :
  Forall Ai.inRange es ->
  Ai.aiThinking (Ai.run (Ai.boot E r0) es) = false ->
  match Basic.selectedSquare (Basic.run (Basic.boot E) clicks) with
  | Some sq =>
    Basic.possibleMoves (Basic.run (Basic.boot E) clicks)
    = map Chess.to
          (Chess.moves E (Basic.game (Basic.run (Basic.boot E) clicks))
                       (Some sq))
  | None => Basic.possibleMoves (Basic.run (Basic.boot E) clicks) = []
  end
  /\ match Ai.selectedSquare (Ai.run (Ai.boot E r0) es) with
     | Some sq =>
       Ai.possibleMoves (Ai.run (Ai.boot E r0) es)
       = map Chess.to
             (Chess.moves E (Ai.game (Ai.run (Ai.boot E r0) es)) (Some sq))
     | None => Ai.possibleMoves (Ai.run (Ai.boot E r0) es) = []
     end.
Proof.
  intros Hall Hidle. split.
  - apply CurrentFacts.basic_current_run.
  - apply CurrentFacts.ai_current_idle; assumption.
Qed.

Lemma destinations_current_elsewhere_witness :
  match Basic.selectedSquare
          (Basic.run (Basic.boot Rules.engine) ["e2"; "e4"; "g8"]%string) with
  | Some sq =>
    Basic.possibleMoves
      (Basic.run (Basic.boot Rules.engine) ["e2"; "e4"; "g8"]%string)
    = map Chess.to
          (Chess.moves Rules.engine
             (Basic.game
                (Basic.run (Basic.boot Rules.engine)
                           ["e2"; "e4"; "g8"]%string))
             (Some sq))
  | None =>
    Basic.possibleMoves
      (Basic.run (Basic.boot Rules.engine) ["e2"; "e4"; "g8"]%string) = []
  end
  /\ match Ai.selectedSquare
             (Ai.run (Ai.boot Rules.engine (1 # 4)) [Ai.Click "e2"]) with
     | Some sq =>
       Ai.possibleMoves
         (Ai.run (Ai.boot Rules.engine (1 # 4)) [Ai.Click "e2"])
       = map Chess.to
             (Chess.moves Rules.engine
                (Ai.game
                   (Ai.run (Ai.boot Rules.engine (1 # 4)) [Ai.Click "e2"]))
                (Some sq))
     | None =>
       Ai.possibleMoves
         (Ai.run (Ai.boot Rules.engine (1 # 4)) [Ai.Click "e2"]) = []
     end.
Proof.
  apply (@destinations_current_elsewhere Rules.engine
           ["e2"; "e4"; "g8"]%string (1 # 4) [Ai.Click "e2"]).
  - repeat constructor.
  - vm_compute. reflexivity.
Defined.

(** X20 (what is highlighted).  On the board that [renderBoard] draws in
    a reachable state of [app_ai.js], a square has the class [selected]
    exactly when it is the selected square, and it has one of the classes
    [move] and [capture], never both, exactly when it is the [to] square
    of a move the engine lists in the present game for the selected
    square; [capture] is given only to a square that holds a piece of the
    side not to move. *)
Theorem highlights_are_destinations (E : Chess.Engine) (L : Chess.Laws E)
        (st : Full.State E) (row col : nat) :
  Full.Reachable st ->
  (In "selected"%string
      (View.squareClasses E (Full.game st) (Full.selectedSquare st)
                          (Full.possibleMoves st) row col)
   <-> Full.selectedSquare st = Some (Board.squareName row col))
  /\ (In "move"%string
         (View.squareClasses E (Full.game st) (Full.selectedSquare st)
                             (Full.possibleMoves st) row col)
      \/ In "capture"%string
            (View.squareClasses E (Full.game st) (Full.selectedSquare st)
                                (Full.possibleMoves st) row col)
      <-> exists sel m,
          Full.selectedSquare st = Some sel
          /\ In m (Chess.moves E (Full.game st) (Some sel))
          /\ Chess.to m = Board.squareName row col)
  /\ ~ (In "move"%string
           (View.squareClasses E (Full.game st) (Full.selectedSquare st)
                               (Full.possibleMoves st) row col)
        /\ In "capture"%string
              (View.squareClasses E (Full.game st) (Full.selectedSquare st)
                                  (Full.possibleMoves st) row col))
  /\ (In "capture"%string
         (View.squareClasses E (Full.game st) (Full.selectedSquare st)
                             (Full.possibleMoves st) row col) ->
      exists p, Chess.board E (Full.game st) row col = Some p
                /\ Chess.pcolor p <> Chess.turn E (Full.game st)).
Proof.
  intros Hreach.
  pose proof (FullInvariants.selectionCurrent_reachable L Hreach) as Hcur.
  unfold Full.selectionCurrent in Hcur.
  split; [apply ClassFacts.classes_selected|].
  split; [|split;
           [apply ClassFacts.classes_exclusive
           |apply ClassFacts.classes_capture]].
  rewrite ClassFacts.classes_highlight.
  destruct (Full.selectedSquare st) as [sel|].
  - rewrite Hcur, in_map_iff. split.
    + intros [m [Hto Hin]]. exists sel, m. auto.
    + intros [sel' [m [Hsel [Hin Hto]]]]. inversion Hsel; subst sel'.
      exists m. auto.
  - rewrite Hcur. split; [intros []|].
    intros [sel [m [Hsel _]]]. discriminate.
Qed.

Lemma highlights_are_destinations_witness :
  (In "selected"%string
      (View.squareClasses Rules.engine (Full.game Session.e2Selected)
         (Full.selectedSquare Session.e2Selected)
         (Full.possibleMoves Session.e2Selected) 4 4)
   <-> Full.selectedSquare Session.e2Selected
       = Some (Board.squareName 4 4))
  /\ (In "move"%string
         (View.squareClasses Rules.engine (Full.game Session.e2Selected)
            (Full.selectedSquare Session.e2Selected)
            (Full.possibleMoves Session.e2Selected) 4 4)
      \/ In "capture"%string
            (View.squareClasses Rules.engine (Full.game Session.e2Selected)
               (Full.selectedSquare Session.e2Selected)
               (Full.possibleMoves Session.e2Selected) 4 4)
      <-> exists sel m,
          Full.selectedSquare Session.e2Selected = Some sel
          /\ In m (Chess.moves Rules.engine (Full.game Session.e2Selected)
                               (Some sel))
          /\ Chess.to m = Board.squareName 4 4)
  /\ ~ (In "move"%string
           (View.squareClasses Rules.engine (Full.game Session.e2Selected)
              (Full.selectedSquare Session.e2Selected)
              (Full.possibleMoves Session.e2Selected) 4 4)
        /\ In "capture"%string
              (View.squareClasses Rules.engine (Full.game Session.e2Selected)
                 (Full.selectedSquare Session.e2Selected)
                 (Full.possibleMoves Session.e2Selected) 4 4))
  /\ (In "capture"%string
         (View.squareClasses Rules.engine (Full.game Session.e2Selected)
            (Full.selectedSquare Session.e2Selected)
            (Full.possibleMoves Session.e2Selected) 4 4) ->
      exists p,
        Chess.board Rules.engine (Full.game Session.e2Selected) 4 4 = Some p
        /\ Chess.pcolor p
           <> Chess.turn Rules.engine (Full.game Session.e2Selected)).
Proof.
  apply (@highlights_are_destinations Rules.engine RulesFacts.laws
           Session.e2Selected 4 4).
  unfold Session.e2Selected, Scenario.humanWhite.
  reachable_by_run FullFacts.reachable_run FullFacts.reachable_boot.
Defined.

(** The board of X20's session: with e2 selected, e2 is drawn as
    [selected], e3 and e4 as [move], and d4 as neither. *)
Example e2_selected_classes :
  View.squareClasses Rules.engine (Full.game Session.e2Selected)
    (Full.selectedSquare Session.e2Selected)
    (Full.possibleMoves Session.e2Selected) 6 4
  = ["square"; "light"; "selected"]%string
  /\ View.squareClasses Rules.engine (Full.game Session.e2Selected)
       (Full.selectedSquare Session.e2Selected)
       (Full.possibleMoves Session.e2Selected) 5 4
     = ["square"; "dark"; "move"]%string
  /\ View.squareClasses Rules.engine (Full.game Session.e2Selected)
       (Full.selectedSquare Session.e2Selected)
       (Full.possibleMoves Session.e2Selected) 4 4
     = ["square"; "light"; "move"]%string
  /\ View.squareClasses Rules.engine (Full.game Session.e2Selected)
       (Full.selectedSquare Session.e2Selected)
       (Full.possibleMoves Session.e2Selected) 4 3
     = ["square"; "dark"]%string.
Proof. repeat split; vm_compute; reflexivity. Qed.

(** X21 (piece glyphs).  [getUnicodePiece] gives every piece a glyph of
    its own: two pieces are drawn alike only if they are of the same type
    and colour. *)
Theorem glyphs_are_distinct (p q : Chess.Piece) :
  View.getUnicodePiece p = View.getUnicodePiece q -> p = q.
Proof.
  destruct p as [[] []], q as [[] []]; intros H;
    first [reflexivity | discriminate H].
Qed.

Lemma glyphs_are_distinct_witness :
  Chess.mkPiece Chess.Knight Chess.Black
  = Chess.mkPiece Chess.Knight Chess.Black.
Proof.
  apply glyphs_are_distinct. reflexivity.
Defined.

(** X22 (nobody to move).  When the side to move is not the human's, the
    AI is not busy and no timer is pending (as after the human has taken
    back the AI's last move), the game stands still: clicks on the board,
    the flip and threat buttons and timers change neither the game nor
    the busy flag, and no timer becomes pending.  Only undo, redo and
    reset lead on. *)
Theorem nobody_moves_after_undo (E : Chess.Engine) (L : Chess.Laws E)
        (st : Full.State E) (es : list Full.Event) :
  Full.aiThinking st = false ->
  Full.timers st = [] ->
  Chess.turn E (Full.game st) <> Full.playerColor st ->
  Forall FullStep.keepsHistory es ->
  Full.game (Full.run st es) = Full.game st
  /\ Full.aiThinking (Full.run st es) = false
  /\ Full.timers (Full.run st es) = [].
Proof.
  intros Hbusy Htimers Hturn Hall.
  apply (RedoFacts.limbo_run L); assumption.
Qed.

Lemma nobody_moves_after_undo_witness :
  Full.game
    (Full.run Scenario.replyUndone
       [Full.Click "e7" None; Full.Click "d2" None; Full.FlipBtn;
        Full.ThreatBtn; Full.Timeout 0 0])
  = Full.game Scenario.replyUndone
  /\ Full.aiThinking
       (Full.run Scenario.replyUndone
          [Full.Click "e7" None; Full.Click "d2" None; Full.FlipBtn;
           Full.ThreatBtn; Full.Timeout 0 0]) = false
  /\ Full.timers
       (Full.run Scenario.replyUndone
          [Full.Click "e7" None; Full.Click "d2" None; Full.FlipBtn;
           Full.ThreatBtn; Full.Timeout 0 0]) = [].
Proof.
  apply (nobody_moves_after_undo RulesFacts.laws).
  - vm_compute. reflexivity.
  - vm_compute. reflexivity.
  - vm_compute. discriminate.
  - repeat constructor.
Defined.

(** X23 (a move the engine rejects).  The click handlers of the
    two-player script and of [part_000] hand the engine only [from] and
    [to].  When the engine answers [null], as chess.js does for a pawn
    reaching the last rank without a promotion piece, the click is
    swallowed: the game is as before, the selection is cleared, and in
    [part_000] the AI is not set thinking and no timer is queued. *)
Theorem rejected_move_is_swallowed (E : Chess.Engine) (L : Chess.Laws E)
        (st : Basic.State E) (st2 : Ai.State E)
        (sel square sel2 square2 : string) :
  Basic.moveFrom st square = Some sel ->
  snd (Chess.move E (Basic.game st) (Chess.mkObj sel square None)) = None ->
  Ai.gated st2 = false ->
  Ai.aiColor st2 = Chess.other (Ai.playerColor st2) ->
  Ai.moveFrom st2 square2 = Some sel2 ->
  snd (Chess.move E (Ai.game st2) (Chess.mkObj sel2 square2 None)) = None ->
  Basic.game (Basic.onSquareClick square st) = Basic.game st
  /\ Basic.selection (Basic.onSquareClick square st) = (None, [])
  /\ Ai.game (Ai.onSquareClick square2 st2) = Ai.game st2
  /\ Ai.selection (Ai.onSquareClick square2 st2) = (None, [])
  /\ Ai.aiThinking (Ai.onSquareClick square2 st2) = false
  /\ Ai.timers (Ai.onSquareClick square2 st2) = Ai.timers st2.
Proof.
  intros Hfrom Hrej Hgate Hsides Hfrom2 Hrej2.
  assert (Hsame : forall g o, snd (Chess.move E g o) = None ->
                              fst (Chess.move E g o) = g).
  { intros g o H. destruct (Chess.move E g o) as [g' [m|]] eqn:Hm;
      [discriminate|]. apply (Chess.move_rejected L _ _ Hm). }
  split; [|split].
  - unfold Basic.onSquareClick. rewrite Hfrom. cbn [Basic.game].
    apply Hsame. exact Hrej.
  - unfold Basic.onSquareClick. rewrite Hfrom. reflexivity.
  - unfold Ai.onSquareClick. rewrite Hgate, Hfrom2. cbv zeta.
    rewrite (Hsame _ _ Hrej2).
    unfold Ai.gated in Hgate. apply orb_false_iff in Hgate.
    destruct Hgate as [Hbusy Hturn]. apply negb_false_iff in Hturn.
    apply FullFacts.color_eqb_eq in Hturn.
    assert (Hidle : forall s : Ai.State E,
               Ai.game s = Ai.game st2 -> Ai.aiColor s = Ai.aiColor st2 ->
               Ai.triggerAiMove s = s).
    { intros s Hg Ha. apply AiTurn.ai_triggerAiMove_idle. left.
      rewrite Hg, Ha, Hsides, Hturn.
      destruct (Ai.playerColor st2); discriminate. }
    rewrite Hidle; [|ai_state; reflexivity | ai_state; reflexivity].
    ai_state. rewrite Hbusy. repeat split.
Qed.

Lemma rejected_move_is_swallowed_witness :
  Basic.game (Basic.onSquareClick "e8" Session.basicE7Selected)
  = Basic.game Session.basicE7Selected
  /\ Basic.selection (Basic.onSquareClick "e8" Session.basicE7Selected)
     = (None, [])
  /\ Ai.game (Ai.onSquareClick "e8" Session.aiE7Selected)
     = Ai.game Session.aiE7Selected
  /\ Ai.selection (Ai.onSquareClick "e8" Session.aiE7Selected) = (None, [])
  /\ Ai.aiThinking (Ai.onSquareClick "e8" Session.aiE7Selected) = false
  /\ Ai.timers (Ai.onSquareClick "e8" Session.aiE7Selected)
     = Ai.timers Session.aiE7Selected.
Proof.
  apply (@rejected_move_is_swallowed Rules.engine RulesFacts.laws
           Session.basicE7Selected Session.aiE7Selected
           "e7" "e8" "e7" "e8");
    vm_compute; reflexivity.
Defined.

(** X24 (a reset while the AI is thinking).  [resetGame] does not cancel
    the thinking timer.  When the reset makes the human White while that
    timer is pending, the busy flag is cleared and it is the human's
    turn, yet the timer still fires: with a random number from 0 to below
    1 its callback picks a legal move of White and, after the animation,
    plays it.  The first move of the new game is then the AI's choice for
    the human's colour. *)
Theorem stale_timer_after_reset (E : Chess.Engine) (L : Chess.Laws E)
        (st : Full.State E) (r r1 r2 : Q) :
  Full.timers st = [Full.Think] ->
  Js.ltHalf r = true ->
  Chess.turn E (Chess.reset E (Full.game st)) = Chess.White ->
  Chess.moves E (Chess.reset E (Full.game st)) None <> [] ->
  (0 <= r1)%Q -> (r1 < 1)%Q ->
  Full.playerColor (Full.resetGame r st) = Chess.White
  /\ Chess.turn E (Full.game (Full.resetGame r st))
     = Full.playerColor (Full.resetGame r st)
  /\ Full.aiThinking (Full.resetGame r st) = false
  /\ Full.timers (Full.resetGame r st) = [Full.Think]
  /\ exists m,
      nth_error (Chess.moves E (Chess.reset E (Full.game st)) None)
                (Js.floorTimes r1
                   (List.length
                      (Chess.moves E (Chess.reset E (Full.game st)) None)))
      = Some m
      /\ Full.game
           (Full.run (Full.resetGame r st)
                     [Full.Timeout 0 r1; Full.Timeout 0 r2])
         = fst (Chess.move E (Chess.reset E (Full.game st)) (Chess.objOf m))
      /\ List.length
           (Chess.history E
              (Full.game
                 (Full.run (Full.resetGame r st)
                           [Full.Timeout 0 r1; Full.Timeout 0 r2]))) = 1
      /\ Full.playerColor
           (Full.run (Full.resetGame r st)
                     [Full.Timeout 0 r1; Full.Timeout 0 r2]) = Chess.White
      /\ Full.aiThinking
           (Full.run (Full.resetGame r st)
                     [Full.Timeout 0 r1; Full.Timeout 0 r2]) = false
      /\ Full.timers
           (Full.run (Full.resetGame r st)
                     [Full.Timeout 0 r1; Full.Timeout 0 r2]) = [].
Proof.
  intros Htimers Hhalf Hturn Hmoves Hr0 Hr1.
  destruct (RedoFacts.resetGame_state L r st)
    as [Hg [_ [_ [_ [Hp [_ [Hbusy Ht]]]]]]].
  rewrite Hhalf in Hp, Hbusy. cbn [negb andb] in Hbusy.
  rewrite Hbusy, Htimers in Ht. cbn [app] in Ht.
  split; [exact Hp|]. split; [rewrite Hg, Hp; exact Hturn|].
  split; [exact Hbusy|]. split; [exact Ht|].
  remember (Chess.moves E (Chess.reset E (Full.game st)) None) as ms eqn:Hms.
  assert (Hn : 0 < List.length ms)
    by (destruct ms; [contradiction | cbn; lia]).
  pose proof (JsFacts.floorTimes_lt Hr0 Hr1 Hn) as Hidx.
  destruct (nth_error ms (Js.floorTimes r1 (List.length ms))) as [m|] eqn:Hnth;
    [|apply nth_error_None in Hnth; lia].
  exists m. split; [reflexivity|].
  assert (Hnth1 : nth_error
                    (Chess.moves E (Full.game (Full.resetGame r st)) None)
                    (Js.floorTimes r1
                       (List.length
                          (Chess.moves E (Full.game (Full.resetGame r st))
                                       None))) = Some m)
    by (rewrite Hg, <- Hms; exact Hnth).
  destruct (RedoFacts.think_timer_plays L (Full.resetGame r st) r1 r2
              Ht Hnth1) as [Hgame [Hpc [Hb Htm]]].
  rewrite Hgame, Hpc, Hb, Htm, Hg.
  assert (Hin : In m (Chess.moves E (Chess.reset E (Full.game st)) None))
    by (rewrite <- Hms; apply (nth_error_In _ _ Hnth)).
  destruct (Chess.move_legal L _ _ _ Hin) as [g' [m' Hmove]].
  rewrite Hmove. cbn [fst].
  rewrite (Chess.move_history L _ _ Hmove).
  destruct (Chess.reset_fresh L (Full.game st)) as [-> _].
  split; [reflexivity|]. split; [reflexivity|]. split; [exact Hp|].
  split; reflexivity.
Qed.

Lemma stale_timer_after_reset_witness :
  Full.playerColor (Full.resetGame (1 # 4) Scenario.humanBlack)
  = Chess.White
  /\ Chess.turn Rules.engine
       (Full.game (Full.resetGame (1 # 4) Scenario.humanBlack))
     = Full.playerColor (Full.resetGame (1 # 4) Scenario.humanBlack)
  /\ Full.aiThinking (Full.resetGame (1 # 4) Scenario.humanBlack) = false
  /\ Full.timers (Full.resetGame (1 # 4) Scenario.humanBlack)
     = [Full.Think]
  /\ exists m,
      nth_error
        (Chess.moves Rules.engine
           (Chess.reset Rules.engine (Full.game Scenario.humanBlack)) None)
        (Js.floorTimes 0
           (List.length
              (Chess.moves Rules.engine
                 (Chess.reset Rules.engine (Full.game Scenario.humanBlack))
                 None)))
      = Some m
      /\ Full.game
           (Full.run (Full.resetGame (1 # 4) Scenario.humanBlack)
                     [Full.Timeout 0 0; Full.Timeout 0 0])
         = fst (Chess.move Rules.engine
                  (Chess.reset Rules.engine (Full.game Scenario.humanBlack))
                  (Chess.objOf m))
      /\ List.length
           (Chess.history Rules.engine
              (Full.game
                 (Full.run (Full.resetGame (1 # 4) Scenario.humanBlack)
                           [Full.Timeout 0 0; Full.Timeout 0 0]))) = 1
      /\ Full.playerColor
           (Full.run (Full.resetGame (1 # 4) Scenario.humanBlack)
                     [Full.Timeout 0 0; Full.Timeout 0 0]) = Chess.White
      /\ Full.aiThinking
           (Full.run (Full.resetGame (1 # 4) Scenario.humanBlack)
                     [Full.Timeout 0 0; Full.Timeout 0 0]) = false
      /\ Full.timers
           (Full.run (Full.resetGame (1 # 4) Scenario.humanBlack)
                     [Full.Timeout 0 0; Full.Timeout 0 0]) = [].
Proof.
  apply (@stale_timer_after_reset Rules.engine RulesFacts.laws
           Scenario.humanBlack (1 # 4) 0 0).
  - vm_compute. reflexivity.
  - vm_compute. reflexivity.
  - vm_compute. reflexivity.
  - vm_compute. discriminate.
  - apply Qle_refl.
  - reflexivity.
Defined.

(** The session of X24 on the reference engine: the AI plays White and is
    thinking when the human presses reset and is given White; the stale
    timer then plays a3 for White, after which Black, the AI, is to move
    with nothing pending. *)
Example reset_while_thinking :
  Chess.history Rules.engine
    (Full.game
       (Full.run Scenario.humanBlack
          [Full.ResetBtn (1 # 4); Full.Timeout 0 0; Full.Timeout 0 0]))
  = ["a3"%string]
  /\ Full.playerColor
       (Full.run Scenario.humanBlack
          [Full.ResetBtn (1 # 4); Full.Timeout 0 0; Full.Timeout 0 0])
     = Chess.White
  /\ Full.timers
       (Full.run Scenario.humanBlack
          [Full.ResetBtn (1 # 4); Full.Timeout 0 0; Full.Timeout 0 0])
     = [].
Proof. repeat split; vm_compute; reflexivity. Qed.

(** X25 (the check highlight).  [renderBoard] gives the class [check] to
    a square of the board only when the engine reports check and the
    square holds the king of the side to move, and to at most one
    square. *)
Theorem check_marks_the_king (E : Chess.Engine) (g : Chess.GameState E)
        (sel : option string) (dests : list string)
        (row col row' col' : nat) :
  In (row, col) Board.cells ->
  In (row', col') Board.cells ->
  In "check"%string (View.squareClasses E g sel dests row col) ->
  Chess.in_check E g = true
  /\ Chess.board E g row col
     = Some (Chess.mkPiece Chess.King (Chess.turn E g))
  /\ (In "check"%string (View.squareClasses E g sel dests row' col') ->
      row' = row /\ col' = col).
Proof.
  intros Hin Hin' Hcheck.
  assert (Hname : forall r c,
             In "check"%string (View.squareClasses E g sel dests r c) ->
             View.checkSquare E g = Some (Board.squareName r c)).
  { intros r c. unfold View.squareClasses. cbv zeta.
    destruct (View.checkSquare E g) as [s|].
    - destruct (String.eqb s (Board.squareName r c)) eqn:Hs.
      + apply String.eqb_eq in Hs. subst s. reflexivity.
      + rewrite andb_false_r.
        repeat match goal with
               | |- context [if ?b then _ else _] => destruct b
               | |- context [match ?x with Some _ => _ | None => _ end] =>
                 destruct x
               end; cbn [app In]; intuition discriminate.
    - repeat match goal with
             | |- context [if ?b then _ else _] => destruct b
             | |- context [match ?x with Some _ => _ | None => _ end] =>
               destruct x
             end; cbn [app In]; intuition discriminate. }
  pose proof (Hname _ _ Hcheck) as Hsq0.
  pose proof Hsq0 as Hsq.
  unfold View.checkSquare in Hsq.
  destruct (Chess.in_check E g); [|discriminate].
  split; [reflexivity|].
  destruct (find _ Board.cells) as [[r c]|] eqn:Hfind; [|discriminate].
  apply find_some in Hfind. destruct Hfind as [Hcell Hking].
  assert (Heq : Board.squareName r c = Board.squareName row col)
    by congruence.
  destruct (BusyFacts.squareName_inj Hcell Hin Heq) as [-> ->].
  split.
  - destruct (Chess.board E g row col) as [[t c']|]; [|discriminate].
    cbn [Chess.ptype Chess.pcolor] in Hking.
    apply andb_true_iff in Hking. destruct Hking as [Ht Hc].
    apply FullFacts.color_eqb_eq in Hc. subst c'.
    destruct t; try discriminate. reflexivity.
  - intros Hcheck'. pose proof (Hname _ _ Hcheck') as Hsq'.
    assert (Heq' : Board.squareName row' col' = Board.squareName row col)
      by congruence.
    exact (BusyFacts.squareName_inj Hin' Hin Heq').
Qed.

Lemma check_marks_the_king_witness :
  Chess.in_check Rules.engine (Full.game Scenario.foolsMate) = true
  /\ Chess.board Rules.engine (Full.game Scenario.foolsMate) 7 4
     = Some (Chess.mkPiece Chess.King
               (Chess.turn Rules.engine (Full.game Scenario.foolsMate)))
  /\ (In "check"%string
         (View.squareClasses Rules.engine (Full.game Scenario.foolsMate)
                             None [] 7 4) ->
      7 = 7 /\ 4 = 4).
Proof.
  apply (@check_marks_the_king Rules.engine
           (Full.game Scenario.foolsMate) None [] 7 4 7 4).
  - vm_compute. tauto.
  - vm_compute. tauto.
  - vm_compute. tauto.
Defined.

(** X26 (the AI plays its own colour).  In every reachable state of
    [app_ai.js] the busy flag is set only while the AI's colour is to
    move.  When moreover the flip and reset buttons have been pressed only
    while the AI was idle (and random numbers are from 0 to below 1), a
    timer is pending only while the busy flag is set: so whenever a timer
    of the AI fires, it is the AI's turn and not the human's. *)
Theorem ai_plays_its_own_colour (E : Chess.Engine) (L : Chess.Laws E)
        (r0 : Q) (page : Full.Overlay) (es : list Full.Event) :
  (Full.aiThinking (Full.run (Full.boot E r0 page) es) = true ->
   Chess.turn E (Full.game (Full.run (Full.boot E r0 page) es))
   = Full.aiColor (Full.run (Full.boot E r0 page) es))
  /\ (FullStep.calmRun (Full.boot E r0 page) es ->
      Full.timers (Full.run (Full.boot E r0 page) es) <> [] ->
      Full.aiThinking (Full.run (Full.boot E r0 page) es) = true
      /\ Chess.turn E (Full.game (Full.run (Full.boot E r0 page) es))
         = Full.aiColor (Full.run (Full.boot E r0 page) es)
      /\ Chess.turn E (Full.game (Full.run (Full.boot E r0 page) es))
         <> Full.playerColor (Full.run (Full.boot E r0 page) es)).
Proof.
  assert (Hreach : Full.Reachable (Full.run (Full.boot E r0 page) es))
    by (exists r0, page, es; reflexivity).
  pose proof (BusyFacts.onTurn_reachable L Hreach) as Hturn.
  split; [exact Hturn|].
  intros Hcalm Hpending.
  assert (Hbusy : Full.aiThinking (Full.run (Full.boot E r0 page) es)
                  = true).
  { destruct (@FullStepFacts.full_inStep_run E es (Full.boot E r0 page) Hcalm
                (FullStepFacts.full_inStep_boot E r0 page))
      as [[_ Ht] | [[Hb _] | [Hb _]]];
      [contradiction | exact Hb | exact Hb]. }
  split; [exact Hbusy|]. split; [exact (Hturn Hbusy)|].
  rewrite (Hturn Hbusy), (FullInvariants.sides_reachable L Hreach).
  destruct (Full.playerColor _); discriminate.
Qed.

Lemma ai_plays_its_own_colour_witness :
  Full.aiThinking Scenario.afterE4 = true
  /\ Chess.turn Rules.engine (Full.game Scenario.afterE4)
     = Full.aiColor Scenario.afterE4
  /\ Chess.turn Rules.engine (Full.game Scenario.afterE4)
     <> Full.playerColor Scenario.afterE4.
Proof.
  destruct (@ai_plays_its_own_colour Rules.engine RulesFacts.laws
              (1 # 4) Full.NoOverlay
              [Full.Click "e2" None; Full.Click "e4" None])
    as [_ Hcalm].
  apply Hcalm.
  - cbn [FullStep.calmRun FullStep.calm]. repeat split.
  - vm_compute. discriminate.
Defined.

(** X27 (the history changes only at its end).  Whatever happens in
    [app_ai.js], the history afterwards is the history before, or the
    history before with one move added at the end, or (after the undo
    button) the history before without its last move, or (after the
    reset button) empty.  No event changes a move that was played
    earlier. *)
Theorem history_changes_at_its_end (E : Chess.Engine) (L : Chess.Laws E)
        (st : Full.State E) (e : Full.Event) :
  Chess.history E (Full.game (Full.handle e st))
  = Chess.history E (Full.game st)
  \/ (exists san,
         Chess.history E (Full.game (Full.handle e st))
         = Chess.history E (Full.game st) ++ [san])
  \/ (e = Full.UndoBtn
      /\ exists san,
          Chess.history E (Full.game st)
          = Chess.history E (Full.game (Full.handle e st)) ++ [san])
  \/ ((exists r, e = Full.ResetBtn r)
      /\ Chess.history E (Full.game (Full.handle e st)) = []).
Proof. apply (HistoryFacts.history_handle L). Qed.

Lemma history_changes_at_its_end_witness :
  Chess.history Rules.engine
    (Full.game (Full.handle Full.UndoBtn Scenario.afterReply))
  = Chess.history Rules.engine (Full.game Scenario.afterReply)
  \/ (exists san,
         Chess.history Rules.engine
           (Full.game (Full.handle Full.UndoBtn Scenario.afterReply))
         = Chess.history Rules.engine (Full.game Scenario.afterReply)
           ++ [san])
  \/ (Full.UndoBtn = Full.UndoBtn
      /\ exists san,
          Chess.history Rules.engine (Full.game Scenario.afterReply)
          = Chess.history Rules.engine
              (Full.game (Full.handle Full.UndoBtn Scenario.afterReply))
            ++ [san])
  \/ ((exists r, Full.UndoBtn = Full.ResetBtn r)
      /\ Chess.history Rules.engine
           (Full.game (Full.handle Full.UndoBtn Scenario.afterReply)) = []).
Proof.
  exact (history_changes_at_its_end RulesFacts.laws
           Scenario.afterReply Full.UndoBtn).
Defined.

(** X28 (the AI plays its own colour in [part_000]).  In every state
    that [part_000] reaches, the AI's colour is the one the human does
    not play, and the busy flag is set only while the AI's colour is to
    move.  With random numbers from 0 to below 1 a timer is pending only
    while the flag is set, so a timer of the AI never fires on the
    human's turn. *)
Theorem ai_script_plays_its_own_colour (E : Chess.Engine) (r0 : Q)
        (es : list Ai.Event) :
  Forall Ai.inRange es ->
  Ai.aiColor (Ai.run (Ai.boot E r0) es)
  = Chess.other (Ai.playerColor (Ai.run (Ai.boot E r0) es))
  /\ (Ai.aiThinking (Ai.run (Ai.boot E r0) es) = true ->
      Chess.turn E (Ai.game (Ai.run (Ai.boot E r0) es))
      = Ai.aiColor (Ai.run (Ai.boot E r0) es))
  /\ (Ai.timers (Ai.run (Ai.boot E r0) es) <> [] ->
      Ai.aiThinking (Ai.run (Ai.boot E r0) es) = true
      /\ Chess.turn E (Ai.game (Ai.run (Ai.boot E r0) es))
         <> Ai.playerColor (Ai.run (Ai.boot E r0) es)).
Proof.
  intros Hall.
  destruct (HistoryFacts.ai_onTurn_reachable E r0 es) as [Hsides Hturn].
  split; [exact Hsides|]. split; [exact Hturn|].
  intros Hpending.
  assert (Hbusy : Ai.aiThinking (Ai.run (Ai.boot E r0) es) = true).
  { destruct (AiTurn.inStep_run Hall (AiTurn.inStep_boot E r0))
      as [[_ Ht] | [[Hb _] | [Hb _]]];
      [contradiction | exact Hb | exact Hb]. }
  split; [exact Hbusy|].
  rewrite (Hturn Hbusy), Hsides.
  destruct (Ai.playerColor _); discriminate.
Qed.

Lemma ai_script_plays_its_own_colour_witness :
  Ai.aiThinking
    (Ai.run (Ai.boot Rules.engine (3 # 4)) [Ai.Timeout 0 0]) = true
  /\ Chess.turn Rules.engine
       (Ai.game (Ai.run (Ai.boot Rules.engine (3 # 4)) [Ai.Timeout 0 0]))
     <> Ai.playerColor
          (Ai.run (Ai.boot Rules.engine (3 # 4)) [Ai.Timeout 0 0]).
Proof.
  assert (Hall : Forall Ai.inRange [Ai.Timeout 0 0])
    by (repeat constructor; discriminate).
  destruct (@ai_script_plays_its_own_colour Rules.engine (3 # 4)
              [Ai.Timeout 0 0] Hall) as [_ [_ Hpending]].
  apply Hpending. vm_compute. discriminate.
Defined.

(** X29 (no selection survives a change of the game).  Whenever an event
    of [app_ai.js] leaves a game different from the one it found (a
    move of the human or of the AI, an undo, a redo, a reset), nothing is
    selected afterwards and there are no destinations. *)
Theorem selection_cleared_when_game_changes (E : Chess.Engine)
        (L : Chess.Laws E) (st : Full.State E) (e : Full.Event) :
  Full.game (Full.handle e st) <> Full.game st ->
  Full.selection (Full.handle e st) = (None, []).
Proof.
  intros Hchange.
  destruct (FullInvariants.step_cases L e st)
    as [[_ Hg] | [Hsel | [sq [c [_ [_ Hg]]]]]];
    [contradiction | exact Hsel | contradiction].
Qed.

Lemma selection_cleared_when_game_changes_witness :
  Full.selection (Full.handle (Full.Click "e4" None) Session.e2Selected)
  = (None, []).
Proof.
  apply (selection_cleared_when_game_changes RulesFacts.laws).
  intros H.
  apply (f_equal (fun g => List.length (Chess.history Rules.engine g))) in H.
  vm_compute in H. discriminate H.
Defined.

(** X30 (what the page starts with).  When the load handler of
    [app_ai.js] has run, the game is the engine's new game, the human
    plays White when the random number is below one half and Black
    otherwise, the AI plays the other colour, nothing is selected, the
    redo stack is empty, the board is not flipped and shows its 64
    squares, and the threat arrows are off.  The AI is thinking, with
    its thinking timer as the one pending timer, exactly when it plays
    White, White is to move and the game is not over; otherwise nothing
    is pending. *)
Theorem boot_contract (E : Chess.Engine) (r : Q) (page : Full.Overlay) :
  Full.game (Full.boot E r page) = Chess.newGame E
  /\ Full.playerColor (Full.boot E r page)
     = (if Js.ltHalf r then Chess.White else Chess.Black)
  /\ Full.aiColor (Full.boot E r page)
     = Chess.other (Full.playerColor (Full.boot E r page))
  /\ Full.selection (Full.boot E r page) = (None, [])
  /\ Full.redoStack (Full.boot E r page) = []
  /\ Full.flipped (Full.boot E r page) = false
  /\ Full.showThreats (Full.boot E r page) = false
  /\ List.length (Full.squareEls (Full.dom (Full.boot E r page))) = 64
  /\ Full.aiThinking (Full.boot E r page)
     = negb (Js.ltHalf r)
       && Chess.color_eqb (Chess.turn E (Chess.newGame E)) Chess.White
       && negb (Chess.game_over E (Chess.newGame E))
  /\ Full.timers (Full.boot E r page)
     = (if Full.aiThinking (Full.boot E r page) then [Full.Think] else []).
Proof.
  unfold Full.boot. cbv zeta.
  assert (Hdraw : forall s : Full.State E,
             Full.showThreats s = false ->
             Full.renderBoard s = Full.drawBoard s).
  { intros s Hs. unfold Full.renderBoard, Full.updateThreatOverlay.
    full_state. rewrite Hs.
    destruct (Full.overlay _); reflexivity. }
  rewrite Hdraw by (unfold Full.initThreatOverlay; destruct page; reflexivity).
  unfold Full.initThreatOverlay.
  destruct (Js.ltHalf r); cbn [Chess.other negb andb].
  - destruct page; full_state; cbn [Full.squareEls]; repeat split.
  - unfold Full.triggerAiMove.
    destruct page; full_state; cbn [Full.squareEls Full.overlay];
      full_state;
      (destruct (Chess.color_eqb _ _); cbn [negb orb andb];
       [destruct (Chess.game_over E (Chess.newGame E))|];
       full_state; cbn [Full.squareEls negb app]; repeat split).
Qed.
